(** * The benchmark harness of async_await_flask: probe, load drivers, aggregation

    A shallow embedding of [benchmarks/test_all.py]:
    - [test_single_request], the timed single-request probe;
    - [test_concurrent_sync] and [test_concurrent_async], the two load
      drivers, each with its own copy of the aggregation code;
    - [wait_for_service], the readiness poll loop, and
      [wait_for_all_services] over it;
    - [BenchmarkResults] (the store of results, [add_result],
      [print_comparison]), [run_benchmark_suite], [async_benchmark_suite],
      [generate_markdown_report] and [main];
    - the functions of Python's [statistics] module the drivers call
      ([mean], [median], [quantiles]) and the builtins [sorted], [min],
      [max], transcribed from CPython 3.11;
    and, beside it, the lookups the plots of [benchmarks/visual_benchmark.py]
    make in the report and the request counters of [1-flask-wsgi/app.py].

    Modelling decisions.
    - A duration is a difference of two [time.time()] readings.  A float
      is kept as the rational it stands for ([Qc], rationals in lowest
      terms, so that equality is Leibniz equality).  The summaries give
      every statistic its exact value.  Where the order of two computed
      floats is at stake, for the percentiles, the interpolation of
      [quantiles] is also given as the interpreter evaluates it, every
      operation rounded to binary64 ([binary64], [statistics64],
      [p95_latency64], [p99_latency64]).  Clock readings between 2004 and
      2038 are multiples of 2^-22 s; on durations measured with such a
      clock the rounded cut point is the exact one rounded once
      ([quantiles64_grid], [clock_difference_on_grid]); off this grid it
      is not, and an order that holds exactly can fail (on the floats
      0.7, 0.7 the 99th percentile comes out below the 95th).
    - A Python [dict] literal is an association list in insertion order;
      its values are the tagged union [pyval].
    - Python exceptions are values of [exn], threaded by the error monad
      [res]; [try ... except Exception] is [try_except].
    - The network and the clock are the environment: an [exchange] records
      the two clock readings of one probe and what the HTTP client did.
*)

From Stdlib Require Import ZArith QArith Qcanon List String Bool Lia.
From Stdlib Require Import Permutation Sorted.
From Stdlib Require Import Qround Qabs Qpower Lqa.
Import ListNotations.

Local Open Scope string_scope.
Local Open Scope list_scope.
Local Open Scope Z_scope.

(** ** Python values, dicts and exceptions *)

Inductive pyval : Type :=
| VBool (b : bool)
| VInt (z : Z)
| VFloat (q : Qc)
| VStr (s : string).

Definition dict := list (string * pyval).

Inductive exn : Type :=
| KeyError (key : string)
| IndexError
| TypeError
| ValueError (msg : string)
| ZeroDivisionError
| StatisticsError (msg : string)
| TransportError (msg : string).

Inductive res (A : Type) : Type :=
| Ok (a : A)
| Raise (e : exn).

Arguments Ok {A} a.
Arguments Raise {A} e.

Definition bind {A B : Type} (m : res A) (k : A -> res B) : res B :=
  match m with
  | Ok a => k a
  | Raise e => Raise e
  end.

Notation "x <- m ;; k" := (bind m (fun x => k))
  (at level 61, m at next level, right associativity).
Notation "' pat <- m ;; k" := (bind m (fun x => match x with pat => k end))
  (at level 61, pat pattern, m at next level, right associativity).

(** [try: body except Exception as e: handler e] *)
Definition try_except {A : Type} (body : res A) (handler : exn -> res A) : res A :=
  match body with
  | Ok a => Ok a
  | Raise e => handler e
  end.

(** [str(e)] *)
Definition str_of_exn (e : exn) : string :=
  match e with
  | KeyError k => k
  | IndexError => "list index out of range"
  | TypeError => "unsupported operand type"
  | ValueError m => m
  | ZeroDivisionError => "division by zero"
  | StatisticsError m => m
  | TransportError m => m
  end.

Fixpoint mapM {A B : Type} (f : A -> res B) (l : list A) : res (list B) :=
  match l with
  | [] => Ok []
  | x :: l' => y <- f x ;; ys <- mapM f l' ;; Ok (y :: ys)
  end.

(** [d[key]]: the first binding of the key, [KeyError] when there is none. *)
Fixpoint lookup (key : string) (d : dict) : option pyval :=
  match d with
  | [] => None
  | (k, v) :: d' => if String.eqb k key then Some v else lookup key d'
  end.

Definition getkey (d : dict) (key : string) : res pyval :=
  match lookup key d with
  | Some v => Ok v
  | None => Raise (KeyError key)
  end.

Definition keys (d : dict) : list string := map fst d.

(** Truth value of a Python object, as [if x:] tests it. *)
Definition truthy (v : pyval) : bool :=
  match v with
  | VBool b => b
  | VInt z => negb (z =? 0)
  | VFloat q => negb (Qc_eq_bool q 0)
  | VStr s => negb (String.eqb s "")
  end.

(** ** Numbers *)

Definition of_int (z : Z) : Qc := Q2Qc (inject_Z z).

(** The fraction [a/b] as a duration. *)
Definition frac (a : Z) (b : positive) : Qc := Q2Qc (a # b).

Definition Qcltb (x y : Qc) : bool :=
  match (x ?= y)%Qc with
  | Lt => true
  | _ => false
  end.

(** The number a value stands for in arithmetic ([bool] is a subclass of
    [int]); a string is no number. *)
Definition as_number (v : pyval) : res Qc :=
  match v with
  | VBool b => Ok (of_int (if b then 1 else 0))
  | VInt z => Ok (of_int z)
  | VFloat q => Ok q
  | VStr _ => Raise TypeError
  end.

(** [a / b], true division. *)
Definition truediv (a b : Qc) : res Qc :=
  if Qc_eq_bool b 0 then Raise ZeroDivisionError else Ok (a / b)%Qc.

(** ** Lists *)

Definition len {A : Type} (l : list A) : Z := Z.of_nat (List.length l).

(** [l[i]] with Python's negative indices. *)
Definition getitem {A : Type} (l : list A) (i : Z) : res A :=
  let k := if i <? 0 then len l + i else i in
  if k <? 0 then Raise IndexError
  else match nth_error l (Z.to_nat k) with
       | Some x => Ok x
       | None => Raise IndexError
       end.

(** [range(lo, hi)] *)
Definition range (lo hi : Z) : list Z :=
  map (fun k => lo + Z.of_nat k) (seq 0 (Z.to_nat (hi - lo))).

(** [sorted(data)]: a stable sort that compares with [<] only. *)
Fixpoint insert (x : Qc) (l : list Qc) : list Qc :=
  match l with
  | [] => [x]
  | y :: l' => if Qcltb x y then x :: y :: l' else y :: insert x l'
  end.

Definition sorted (data : list Qc) : list Qc :=
  fold_left (fun acc x => insert x acc) data [].

(** [min(data)] and [max(data)]: the first smallest (largest) item. *)
Definition min_ (data : list Qc) : res Qc :=
  match data with
  | [] => Raise (ValueError "min() arg is an empty sequence")
  | x :: l => Ok (fold_left (fun m y => if Qcltb y m then y else m) l x)
  end.

Definition max_ (data : list Qc) : res Qc :=
  match data with
  | [] => Raise (ValueError "max() arg is an empty sequence")
  | x :: l => Ok (fold_left (fun m y => if Qcltb m y then y else m) l x)
  end.

(** ** The [statistics] module *)

Module statistics.

Definition sum (data : list Qc) : Qc := fold_left Qcplus data 0%Qc.

(** [mean]: the exact sum divided by the number of points. *)
Definition mean (data : list Qc) : res Qc :=
  let total := sum data in
  let n := len data in
  if n <? 1 then Raise (StatisticsError "mean requires at least one data point")
  else Ok (total / of_int n)%Qc.

Definition median (data : list Qc) : res Qc :=
  let data := sorted data in
  let n := len data in
  if n =? 0 then Raise (StatisticsError "no median for empty data")
  else if n mod 2 =? 1 then getitem data (n / 2)
  else
    let i := n / 2 in
    a <- getitem data (i - 1) ;;
    b <- getitem data i ;;
    Ok ((a + b) / of_int 2)%Qc.

(** One turn of the loop of [quantiles], method 'exclusive', with the
    exact value of the interpolation; [statistics64.interpolated] below
    rounds as the interpreter does. *)
Definition interpolated (data : list Qc) (n ld m i : Z) : res Qc :=
  let j := i * m / n in
  let j := if j <? 1 then 1 else if j >? ld - 1 then ld - 1 else j in
  let delta := i * m - j * n in
  a <- getitem data (j - 1) ;;
  b <- getitem data j ;;
  Ok ((a * of_int (n - delta) + b * of_int delta) / of_int n)%Qc.

(** [quantiles(data, n=n)], with the default method 'exclusive'. *)
Definition quantiles (data : list Qc) (n : Z) : res (list Qc) :=
  if n <? 1 then Raise (StatisticsError "n must be at least 1")
  else
    let data := sorted data in
    let ld := len data in
    if ld <? 2 then Raise (StatisticsError "must have at least two data points")
    else
      let m := ld + 1 in
      mapM (interpolated data n ld m) (range 1 n).

End statistics.

(** ** The cut points of [quantiles] in closed form *)

(** The value the loop of [quantiles] computes from the pair [a], [b] of
    neighbouring order statistics: [a] moved towards (or past) [b] by the
    fraction [delta / n]. *)
Definition lerp (a b : Qc) (n delta : Z) : Qc :=
  ((a * of_int (n - delta) + b * of_int delta) / of_int n)%Qc.

(** The order statistic of index [j] (counted from 0) of a sorted sample. *)
Definition item (s : list Qc) (j : Z) : Qc := nth (Z.to_nat j) s 0%Qc.

(** The rank [j] of the loop after the clamp to [1 .. ld-1]. *)
Definition rank (ld n i : Z) : Z := Z.max 1 (Z.min (ld - 1) (i * (ld + 1) / n)).

(** The [i]-th cut point ([i] counted from 1) of the split of the sorted
    sample [s] into [n] intervals. *)
Definition cut (s : list Qc) (n i : Z) : Qc :=
  let ld := len s in
  let j := rank ld n i in
  let delta := i * (ld + 1) - j * n in
  lerp (item s (j - 1)) (item s j) n delta.

(** ** Properties a percentile may have *)

(** A rank-based percentile without interpolation returns one of the
    values of the sample. *)
Definition rank_based (stat : list Qc -> res Qc) (durations : list Qc) : Prop :=
  exists x, stat durations = Ok x /\ In x durations.

(** A statistic that stays within the observed range of the sample. *)
Definition within_range (stat : list Qc -> res Qc) (durations : list Qc) : Prop :=
  exists lo hi x, min_ durations = Ok lo /\ max_ durations = Ok hi
                  /\ stat durations = Ok x /\ (lo <= x)%Qc /\ (x <= hi)%Qc.

(** ** Binary64 arithmetic

    A Python [float] is a binary64 number.  A finite one is kept as the
    rational it stands for, and an operation returns the exact result
    rounded to a nearest binary64 number, a tie going to the even
    significand.  Infinities and NaN are not modelled: the operands below
    stay far from [2^1024]. *)

Module binary64.

(** [2^e] *)
Definition pow2 (e : Z) : Q := (2 ^ e)%Q.

(** The integer nearest to [t], a tie going to the even one. *)
Definition rne (t : Q) : Z :=
  let f := Qfloor t in
  match (t - inject_Z f ?= 1 # 2)%Q with
  | Lt => f
  | Gt => f + 1
  | Eq => if Z.even f then f else f + 1
  end.

(** The exponent [e] of a positive number: [2^e <= x < 2^(e+1)]. *)
Definition exponent (x : Q) : Z :=
  let e := Z.log2 (Qnum x) - Z.log2 (Zpos (Qden x)) in
  if Qle_bool (pow2 e) x then e else e - 1.

(** The exponent of the unit in the last place: 53 significant bits, and
    no exponent below that of the subnormal numbers. *)
Definition ulp_exponent (x : Q) : Z := Z.max (exponent x - 52) (-1074).

Definition round_pos (x : Q) : Q :=
  let u := ulp_exponent x in
  (inject_Z (rne (x / pow2 u)) * pow2 u)%Q.

Definition roundQ (x : Q) : Q :=
  match (x ?= 0)%Q with
  | Eq => 0%Q
  | Gt => round_pos x
  | Lt => (- round_pos (- x))%Q
  end.

(** The binary64 number nearest to [x]. *)
Definition round (x : Qc) : Qc := Q2Qc (roundQ x).

(** The binary64 numbers: a significand of at most 53 bits and an
    exponent not below that of the subnormal numbers. *)
Definition representable (x : Q) : Prop :=
  exists m u : Z, Z.abs m <= 2 ^ 53 /\ -1074 <= u
                  /\ (x == inject_Z m * pow2 u)%Q.

(** [float(z)], the conversion of an [int] operand. *)
Definition float (z : Z) : Qc := round (of_int z).

(** [x + y], [x - y], [x * y] and [x / y] on floats ([y] not 0). *)
Definition add (x y : Qc) : Qc := round (x + y).
Definition sub (x y : Qc) : Qc := round (x - y).
Definition mul (x y : Qc) : Qc := round (x * y).
Definition div (x y : Qc) : Qc := round (x / y).

End binary64.

(** ** The cut points as the interpreter computes them

    [statistics.quantiles] on a list of floats, every operation of the
    interpolation rounded as binary64 does: [data[j-1] * (n - delta)] and
    [data[j] * delta] are products of a float and an [int], their sum is a
    float, and so is its quotient by the [int] [n].  Module [statistics]
    above gives the same expressions their exact value. *)

Module statistics64.

Definition interpolated (data : list Qc) (n ld m i : Z) : res Qc :=
  let j := i * m / n in
  let j := if j <? 1 then 1 else if j >? ld - 1 then ld - 1 else j in
  let delta := i * m - j * n in
  a <- getitem data (j - 1) ;;
  b <- getitem data j ;;
  Ok (binary64.div
        (binary64.add (binary64.mul a (binary64.float (n - delta)))
                      (binary64.mul b (binary64.float delta)))
        (binary64.float n)).

Definition quantiles (data : list Qc) (n : Z) : res (list Qc) :=
  if n <? 1 then Raise (StatisticsError "n must be at least 1")
  else
    let data := sorted data in
    let ld := len data in
    if ld <? 2 then Raise (StatisticsError "must have at least two data points")
    else
      let m := ld + 1 in
      mapM (interpolated data n ld m) (range 1 n).

End statistics64.

(** The "p95_latency" and "p99_latency" entries (lines 153-154 and
    202-203) with the rounding of binary64. *)
Definition p95_latency64 (durations : list Qc) : res Qc :=
  if len durations >? 1
  then qs <- statistics64.quantiles durations 20 ;; getitem qs 18
  else getitem durations 0.

Definition p99_latency64 (durations : list Qc) : res Qc :=
  if len durations >? 1
  then qs <- statistics64.quantiles durations 100 ;; getitem qs 98
  else getitem durations 0.

(** The floats a clock of the years 2004 to 2038 reads are the multiples
    of [2^-22] s between [2^30] and [2^31] s. *)
Definition clock_reading (t : Qc) : Prop :=
  binary64.representable t /\ (of_int (2 ^ 30) <= t)%Qc /\ (t < of_int (2 ^ 31))%Qc.

(** A duration measured with such a clock: a multiple of [2^-22] s, here
    of at most [2^22] s (48 days) in absolute value. *)
Definition on_clock_grid (d : Qc) : Prop :=
  exists k : Z, Z.abs k <= 2 ^ 44 /\ d = frac k (2 ^ 22).

(** The float the literal [0.7] denotes. *)
Definition float_0_7 : Qc := binary64.round (frac 7 10).

(** ** The environment of the harness *)

(** What [client.get] does: a response with its status code, or an
    exception of the transport (connection refused, timeout, DNS failure). *)
Inductive http_result : Type :=
| Response (status_code : Z)
| Failure (msg : string).

(** One probe as the environment plays it: the clock when the probe starts,
    the outcome of the GET, the clock when the outcome is observed. *)
Record exchange : Type := {
  sent_at : Qc;
  http : http_result;
  seen_at : Qc
}.

(** One run of a load driver: the clock at its first and last line, the
    exchange of the k-th probe it launches and, for the thread pool, the
    order in which the futures complete. *)
Record world : Type := {
  run_start : Qc;
  probe : nat -> exchange;
  completion : list nat;
  run_end : Qc
}.

Definition client_get (full_url : string) (x : exchange) : res Z :=
  match http x with
  | Response status_code => Ok status_code
  | Failure msg => Raise (TransportError msg)
  end.

(** ** The single-request probe (test_all.py, lines 96-116) *)

Definition test_single_request (service_name url endpoint : string)
    (x : exchange) : res dict :=
  let full_url := (url ++ endpoint)%string in
  let start := sent_at x in
  try_except
    (response <- client_get full_url x ;;
     let duration := (seen_at x - start)%Qc in
     Ok [("success", VBool (response =? 200));
         ("duration", VFloat duration);
         ("status_code", VInt response)])
    (fun e =>
     Ok [("success", VBool false);
         ("duration", VFloat (seen_at x - start)%Qc);
         ("error", VStr (str_of_exn e))]).

(** The coroutine [make_request] of [test_concurrent_async] (lines 169-177). *)
Definition make_request (url endpoint : string) (x : exchange) : res dict :=
  let req_start := sent_at x in
  try_except
    (response <- client_get (url ++ endpoint)%string x ;;
     let duration := (seen_at x - req_start)%Qc in
     Ok [("success", VBool (response =? 200)); ("duration", VFloat duration)])
    (fun e =>
     Ok [("success", VBool false);
         ("duration", VFloat (seen_at x - req_start)%Qc);
         ("error", VStr (str_of_exn e))]).

(** ** Aggregation *)

(** The expression of the "p95_latency" entry (lines 153 and 202). *)
Definition p95_latency (durations : list Qc) : res Qc :=
  if len durations >? 1
  then qs <- statistics.quantiles durations 20 ;; getitem qs 18
  else getitem durations 0.

(** The expression of the "p99_latency" entry (lines 154 and 203). *)
Definition p99_latency (durations : list Qc) : res Qc :=
  if len durations >? 1
  then qs <- statistics.quantiles durations 100 ;; getitem qs 98
  else getitem durations 0.

(** Lines 141-159 of [test_concurrent_sync].  The entries of a dict
    literal are evaluated in order, so the first exception wins. *)
Definition sync_summary (total_time : Qc) (durations : list Qc) (errors : Z)
    : res dict :=
  match durations with
  | [] =>
      Ok [("total_time", VFloat total_time);
          ("errors", VInt errors);
          ("success_rate", VInt 0)]
  | _ :: _ =>
      requests_per_second <- truediv (of_int (len durations)) total_time ;;
      mean_latency <- statistics.mean durations ;;
      median_latency <- statistics.median durations ;;
      p95 <- p95_latency durations ;;
      p99 <- p99_latency durations ;;
      min_latency <- min_ durations ;;
      max_latency <- max_ durations ;;
      success_rate <- truediv (of_int (len durations))
                              (of_int (len durations + errors)) ;;
      Ok [("total_time", VFloat total_time);
          ("requests_per_second", VFloat requests_per_second);
          ("mean_latency", VFloat mean_latency);
          ("median_latency", VFloat median_latency);
          ("p95_latency", VFloat p95);
          ("p99_latency", VFloat p99);
          ("min_latency", VFloat min_latency);
          ("max_latency", VFloat max_latency);
          ("errors", VInt errors);
          ("success_rate", VFloat success_rate)]
  end.

(** Lines 190-208 of [test_concurrent_async]. *)
Definition async_summary (total_time : Qc) (durations : list Qc) (errors : Z)
    : res dict :=
  match durations with
  | [] =>
      Ok [("total_time", VFloat total_time);
          ("errors", VInt errors);
          ("success_rate", VInt 0)]
  | _ :: _ =>
      requests_per_second <- truediv (of_int (len durations)) total_time ;;
      mean_latency <- statistics.mean durations ;;
      median_latency <- statistics.median durations ;;
      p95 <- p95_latency durations ;;
      p99 <- p99_latency durations ;;
      min_latency <- min_ durations ;;
      max_latency <- max_ durations ;;
      success_rate <- truediv (of_int (len durations))
                              (of_int (len durations + errors)) ;;
      Ok [("total_time", VFloat total_time);
          ("requests_per_second", VFloat requests_per_second);
          ("mean_latency", VFloat mean_latency);
          ("median_latency", VFloat median_latency);
          ("p95_latency", VFloat p95);
          ("p99_latency", VFloat p99);
          ("min_latency", VFloat min_latency);
          ("max_latency", VFloat max_latency);
          ("errors", VInt errors);
          ("success_rate", VFloat success_rate)]
  end.

(** ** The load drivers *)

(** The state of the collecting loops: [durations] and [errors]. *)
Definition tally : Type := (list Qc * Z)%type.

Fixpoint foldM {A S : Type} (body : S -> A -> res S) (l : list A) (s : S)
    : res S :=
  match l with
  | [] => Ok s
  | x :: l' => s' <- body s x ;; foldM body l' s'
  end.

(** [as_completed(futures)]: the futures, each once, as they complete. *)
Definition as_completed {A : Type} (futures : list A) (order : list nat)
    : list A :=
  flat_map (fun k => match nth_error futures k with
                     | Some f => [f]
                     | None => []
                     end) order.

(** Lines 123-137: the pool, the futures and the collecting loop. *)
Definition sync_collect (service_name url endpoint : string)
    (num_requests : Z) (w : world) : res tally :=
  let durations := [] in
  let errors := 0 in
  if num_requests <=? 0
  then Raise (ValueError "max_workers must be greater than 0")
  else
    let futures :=
      map (fun k => test_single_request service_name url endpoint (probe w k))
          (seq 0 (Z.to_nat num_requests)) in
    foldM (fun '(durations, errors) future =>
             result <- future ;;
             success <- getkey result "success" ;;
             if truthy success
             then duration <- getkey result "duration" ;;
                  d <- as_number duration ;;
                  Ok (durations ++ [d], errors)
             else Ok (durations, errors + 1))
          (as_completed futures (completion w)) (durations, errors).

Definition test_concurrent_sync (service_name url endpoint : string)
    (num_requests : Z) (w : world) : res dict :=
  let start := run_start w in
  '(durations, errors) <- sync_collect service_name url endpoint num_requests w ;;
  let total_time := (run_end w - start)%Qc in
  sync_summary total_time durations errors.

(** Lines 166-186: the tasks, [asyncio.gather] and the collecting loop. *)
Definition async_collect (url endpoint : string)
    (num_requests : Z) (w : world) : res tally :=
  let durations := [] in
  let errors := 0 in
  let tasks :=
    map (fun k => make_request url endpoint (probe w k))
        (seq 0 (Z.to_nat num_requests)) in
  results <- mapM (fun task => task) tasks ;;
  foldM (fun '(durations, errors) result =>
           success <- getkey result "success" ;;
           if truthy success
           then duration <- getkey result "duration" ;;
                d <- as_number duration ;;
                Ok (durations ++ [d], errors)
           else Ok (durations, errors + 1))
        results (durations, errors).

Definition test_concurrent_async (service_name url endpoint : string)
    (num_requests : Z) (w : world) : res dict :=
  let start := run_start w in
  '(durations, errors) <- async_collect url endpoint num_requests w ;;
  let total_time := (run_end w - start)%Qc in
  async_summary total_time durations errors.

(** ** What the collecting loops compute *)

(** A probe counts as a success when the GET returned status 200. *)
Definition succeeded (x : exchange) : bool :=
  match http x with
  | Response status_code => status_code =? 200
  | Failure _ => false
  end.

(** The duration a probe measures. *)
Definition elapsed (x : exchange) : Qc := (seen_at x - sent_at x)%Qc.

(** The durations of the successes, in the order of the list, and the
    number of failures. *)
Definition collected (xs : list exchange) : tally :=
  (map elapsed (filter succeeded xs),
   len (filter (fun x => negb (succeeded x)) xs)).

(** The exchanges of the [n] probes of a run, in launch order. *)
Definition launched (w : world) (n : Z) : list exchange :=
  map (probe w) (seq 0 (Z.to_nat n)).

(** The success rate of a run that collected [durations], over the given
    denominator; 0 when nothing was collected. *)
Definition rate (durations : list Qc) (denominator : Z) : pyval :=
  match durations with
  | [] => VInt 0
  | _ :: _ => VFloat (of_int (len durations) / of_int denominator)%Qc
  end.

(** The throughput and latency entries of a summary. *)
Definition latency_fields : list string :=
  ["requests_per_second"; "mean_latency"; "median_latency"; "p95_latency";
   "p99_latency"; "min_latency"; "max_latency"].

(** ** Sample runs *)

(** Three probes sent at time 0: the first and the third answer 200 after
    0.25 s and 0.75 s, the second answers 500 after 0.5 s; the pool sees
    them complete in the order third, first, second; the run takes 1 s. *)
Definition mixed_run : world := {|
  run_start := frac 0 1;
  probe := fun k => {| sent_at := frac 0 1;
                       http := if Nat.eqb k 1 then Response 500 else Response 200;
                       seen_at := frac (Z.of_nat k + 1) 4 |};
  completion := [2; 0; 1]%nat;
  run_end := frac 1 1
|}.

(** Two probes that are both refused. *)
Definition refused_run : world := {|
  run_start := frac 0 1;
  probe := fun _ => {| sent_at := frac 0 1;
                       http := Failure "connection refused";
                       seen_at := frac 1 100 |};
  completion := [1; 0]%nat;
  run_end := frac 1 50
|}.

(** One probe that answers 200, in a run whose two clock readings are
    equal. *)
Definition instant_run : world := {|
  run_start := frac 5 1;
  probe := fun _ => {| sent_at := frac 5 1;
                       http := Response 200;
                       seen_at := frac 5 1 |};
  completion := [0]%nat;
  run_end := frac 5 1
|}.

(** Two probes that both answer 200 after half a second, in a run of one
    second. *)
Definition steady_run : world := {|
  run_start := frac 0 1;
  probe := fun _ => {| sent_at := frac 0 1;
                       http := Response 200;
                       seen_at := frac 1 2 |};
  completion := [0; 1]%nat;
  run_end := frac 1 1
|}.

(** The same run with the futures completing in another order. *)
Definition with_completion (w : world) (order : list nat) : world := {|
  run_start := run_start w;
  probe := probe w;
  completion := order;
  run_end := run_end w
|}.

(** ** The readiness gate (lines 60-76) *)

(** What the poll loop does that an observer can see. *)
Inductive event : Type :=
| Get
| Sleep (seconds : Z).

(** One GET of the health endpoint as the environment plays it: how long
    the call takes and how it ends. *)
Record attempt : Type := {
  took : Qc;
  health : http_result
}.

(** The observable events of a run and the value it returned; [None] when
    the loop is still running at the end of the environment's script. *)
Record polled : Type := {
  events : list event;
  returned : option bool
}.

Definition emit (e : event) (p : polled) : polled :=
  {| events := e :: events p; returned := returned p |}.

(** The [while] loop.  [now] is what [time.time()] reads; a GET moves the
    clock by the time it takes and [asyncio.sleep(1)] by one second. *)
Fixpoint poll_loop (timeout : Z) (start now : Qc) (script : list attempt)
    : polled :=
  match script with
  | [] =>
      if Qcltb (now - start) (of_int timeout)
      then {| events := []; returned := None |}
      else {| events := []; returned := Some false |}
  | a :: script' =>
      if Qcltb (now - start) (of_int timeout)
      then
        let now := (now + took a)%Qc in
        emit Get
          match health a with
          | Response status_code =>
              if status_code =? 200
              then {| events := []; returned := Some true |}
              else poll_loop timeout start now script'
          | Failure _ =>
              emit (Sleep 1)
                (poll_loop timeout start (now + of_int 1)%Qc script')
          end
      else {| events := []; returned := Some false |}
  end.

Definition wait_for_service (url : string) (timeout : Z) (now : Qc)
    (script : list attempt) : polled :=
  let start := now in
  poll_loop timeout start now script.

(** The default of the parameter [timeout]. *)
Definition default_timeout : Z := 60.

(** A fixed pause of one second between attempts: in the events of a run,
    a GET that is not the last event is followed by [Sleep 1]. *)
Fixpoint fixed_interval (tr : list event) : bool :=
  match tr with
  | [] => true
  | Get :: tr' =>
      match tr' with
      | [] => true
      | Sleep 1 :: _ => fixed_interval tr'
      | _ => false
      end
  | Sleep _ :: tr' => fixed_interval tr'
  end.

(** A health endpoint that answers 503 once and then 200, each time after
    0.1 s. *)
Definition warming_up : list attempt :=
  [ {| took := frac 1 10; health := Response 503 |};
    {| took := frac 1 10; health := Response 200 |} ].

(** An attempt after which the loop neither returns nor sleeps. *)
Definition busy (a : attempt) : bool :=
  match health a with
  | Response status_code => negb (status_code =? 200)
  | Failure _ => false
  end.

(** ** Dicts keyed by strings: the results store *)

(** A dict whose values all have the type [V], in insertion order. *)
Definition pydict (V : Type) : Type := list (string * V).

(** [d.get(k)] *)
Fixpoint dget {V : Type} (d : pydict V) (k : string) : option V :=
  match d with
  | [] => None
  | (k', v) :: d' => if String.eqb k' k then Some v else dget d' k
  end.

(** [k in d] *)
Definition contains {V : Type} (d : pydict V) (k : string) : bool :=
  match dget d k with
  | Some _ => true
  | None => false
  end.

(** [d[k] = v]: a bound key keeps its place, a new key goes last. *)
Fixpoint dset {V : Type} (d : pydict V) (k : string) (v : V) : pydict V :=
  match d with
  | [] => [(k, v)]
  | (k', v') :: d' =>
      if String.eqb k' k then (k', v) :: d' else (k', v') :: dset d' k v
  end.

(** The object [d[k]] is mutated by [f]; [d] itself keeps its keys. *)
Fixpoint dupdate {V : Type} (d : pydict V) (k : string) (f : V -> V)
    : pydict V :=
  match d with
  | [] => []
  | (k', v) :: d' =>
      if String.eqb k' k then (k', f v) :: d' else (k', v) :: dupdate d' k f
  end.

(** [d[k]] as an expression: [KeyError] on a missing key. *)
Definition subscript {V : Type} (d : pydict V) (k : string) : res V :=
  match dget d k with
  | Some v => Ok v
  | None => Raise (KeyError k)
  end.

(** [self.results] of [BenchmarkResults]: service, endpoint, test name. *)
Definition store : Type := pydict (pydict (pydict dict)).

(** [BenchmarkResults.__init__] (lines 29-30). *)
Definition empty_results : store := [].

(** [BenchmarkResults.add_result] (lines 32-38), on the value of
    [self.results]. *)
Definition add_result (results : store) (service endpoint test_name : string)
    (data : dict) : store :=
  let results :=
    if negb (contains results service) then dset results service []
    else results in
  let results :=
    dupdate results service (fun by_endpoint =>
      if negb (contains by_endpoint endpoint) then dset by_endpoint endpoint []
      else by_endpoint) in
  dupdate results service (fun by_endpoint =>
    dupdate by_endpoint endpoint (fun by_test =>
      dset by_test test_name data)).

(** "If [k] is not in [d], bind it to [a]; then mutate [d[k]] by [f]": the
    shape of each of the two levels of [add_result]. *)
Definition at_key {V : Type} (d : pydict V) (k : string) (a : V) (f : V -> V)
    : pydict V :=
  dupdate (if negb (contains d k) then dset d k a else d) k f.

(** [BenchmarkResults.get_summary] (lines 40-42). *)
Definition get_summary (results : store) : store := results.

(** The entry of a triple, if the three keys are bound. *)
Definition entry (results : store) (service endpoint test_name : string)
    : option dict :=
  match dget results service with
  | None => None
  | Some by_endpoint =>
      match dget by_endpoint endpoint with
      | None => None
      | Some by_test => dget by_test test_name
      end
  end.

(** The keys of a dict are pairwise different. *)
Definition unique_keys {V : Type} (d : pydict V) : Prop := NoDup (map fst d).

(** A store as Python builds it: unique keys at the three levels. *)
Definition well_formed (results : store) : Prop :=
  unique_keys results
  /\ Forall (fun by_endpoint =>
               unique_keys (snd by_endpoint)
               /\ Forall (fun by_test => unique_keys (snd by_test))
                         (snd by_endpoint))
            results.

(** ** Configuration (lines 16-23) *)

Definition SERVICES : pydict string :=
  [("flask-wsgi", "http://localhost:5001");
   ("flask-async-trap", "http://localhost:5002");
   ("flask-asgi-wrapper", "http://localhost:5003");
   ("quart-native", "http://localhost:5004")].

Definition ENDPOINTS : list string :=
  ["/parallel"; "/multi-io"; "/cpu-intensive"; "/db-simulation"; "/slow"].

(** [d.values()] and [d.items()] *)
Definition values {V : Type} (d : pydict V) : list V := map snd d.
Definition items {V : Type} (d : pydict V) : list (string * V) := d.

(** ** The gate over all services (lines 79-93) *)

(** The time the events of a poll loop take: a GET takes what the next
    attempt of the script takes, a sleep its seconds. *)
Fixpoint spent (script : list attempt) (tr : list event) : Qc :=
  match tr with
  | [] => 0%Qc
  | Get :: tr' =>
      match script with
      | a :: script' => (took a + spent script' tr')%Qc
      | [] => spent [] tr'
      end
  | Sleep seconds :: tr' => (of_int seconds + spent script tr')%Qc
  end.

(** The number of GETs among the events. *)
Definition gets (tr : list event) : Z :=
  len (filter (fun e => match e with Get => true | Sleep _ => false end) tr).

(** An attempt that ends in an exception of the transport. *)
Definition raised (a : attempt) : bool :=
  match health a with
  | Response _ => false
  | Failure _ => true
  end.

(** The time the GETs of a script take together. *)
Definition total_took (script : list attempt) : Qc :=
  fold_right (fun a t => (took a + t)%Qc) 0%Qc script.

(** A service that refuses two connections at once. *)
Definition down_twice : list attempt :=
  [ {| took := frac 0 1; health := Failure "connection refused" |};
    {| took := frac 0 1; health := Failure "connection refused" |} ].

(** A service that answers 503 three times, each time after 0.1 s. *)
Definition unavailable_thrice : list attempt :=
  [ {| took := frac 1 10; health := Response 503 |};
    {| took := frac 1 10; health := Response 503 |};
    {| took := frac 1 10; health := Response 503 |} ].

(** [await asyncio.gather] over the poll loops: it returns the list of
    their results once all of them have returned. *)
Fixpoint gather {A : Type} (tasks : list (option A)) : option (list A) :=
  match tasks with
  | [] => Some []
  | None :: _ => None
  | Some r :: tasks' =>
      match gather tasks' with
      | Some rs => Some (r :: rs)
      | None => None
      end
  end.

(** [wait_for_all_services]: [health_of url] is the script the health
    endpoint of [url] plays; [None] when a poll loop is still running at
    the end of its script. *)
Definition wait_for_all_services (now : Qc)
    (health_of : string -> list attempt) : option bool :=
  let tasks :=
    map (fun url => returned (wait_for_service url default_timeout now
                                (health_of url)))
        (values SERVICES) in
  match gather tasks with
  | None => None
  | Some results => if forallb (fun r => r) results then Some true else Some false
  end.

(** ** The suites (lines 211-271) and [main] (lines 324-353) *)

(** What the suites meet: the exchange of the single probe of a service
    and endpoint, and the run of each load test.  The output on the
    terminal is not modelled. *)
Record testbed : Type := {
  single : string -> string -> exchange;
  load : string -> string -> Z -> world;
  async_load : string -> string -> Z -> world
}.

Definition run_benchmark_suite (env : testbed) : res store :=
  let results := empty_results in
  results <-
    foldM (fun results '(service_name, url) =>
             foldM (fun results endpoint =>
                      result <- test_single_request service_name url endpoint
                                  (single env url endpoint) ;;
                      Ok (add_result results service_name endpoint
                            "single_request" result))
                   ENDPOINTS results)
          (items SERVICES) results ;;
  results <-
    foldM (fun results '(service_name, url) =>
             foldM (fun results endpoint =>
                      result <- test_concurrent_sync service_name url endpoint 10
                                  (load env url endpoint 10) ;;
                      Ok (add_result results service_name endpoint
                            "concurrent_10" result))
                   (firstn 2 ENDPOINTS) results)
          (items SERVICES) results ;;
  results <-
    foldM (fun results '(service_name, url) =>
             result <- test_concurrent_sync service_name url "/parallel" 50
                         (load env url "/parallel" 50) ;;
             Ok (add_result results service_name "/parallel"
                   "concurrent_50" result))
          (items SERVICES) results ;;
  results <-
    foldM (fun results '(service_name, url) =>
             result <- test_concurrent_sync service_name url "/parallel" 100
                         (load env url "/parallel" 100) ;;
             Ok (add_result results service_name "/parallel"
                   "concurrent_100" result))
          (items SERVICES) results ;;
  Ok results.

Definition async_benchmark_suite (env : testbed) : res store :=
  let results := empty_results in
  results <-
    foldM (fun results '(service_name, url) =>
             result <- test_concurrent_async service_name url "/parallel" 100
                         (async_load env url "/parallel" 100) ;;
             Ok (add_result results service_name "/parallel"
                   "async_concurrent_100" result))
          (items SERVICES) results ;;
  Ok results.

(** The three nested loops of [main] (lines 338-341) that add every entry
    of the async results to the sync results. *)
Definition merge_results (sync_results async_results : store) : store :=
  fold_left
    (fun acc '(service, data) =>
       fold_left
         (fun acc '(endpoint, tests) =>
            fold_left
              (fun acc '(test_name, result) =>
                 add_result acc service endpoint test_name result)
              (items tests) acc)
         (items data) acc)
    (items (get_summary async_results)) sync_results.

(** How [main] ends: the gate is still waiting at the end of a script, the
    services are not ready, a suite raised, or the merged results are
    handed to the two report writers. *)
Inductive outcome : Type :=
| StillWaiting
| NotReady
| Crashed (e : exn)
| Reported (results : store).

Definition main (now : Qc) (health_of : string -> list attempt)
    (env : testbed) : outcome :=
  match wait_for_all_services now health_of with
  | None => StillWaiting
  | Some false => NotReady
  | Some true =>
      match run_benchmark_suite env with
      | Raise e => Crashed e
      | Ok sync_results =>
          match async_benchmark_suite env with
          | Raise e => Crashed e
          | Ok async_results =>
              Reported (merge_results sync_results async_results)
          end
      end
  end.

(** The triples [run_benchmark_suite] stores, in the order of its four
    phases. *)
Definition suite_plan : list (string * string * string) :=
  flat_map (fun '(service_name, _) =>
              map (fun endpoint => (service_name, endpoint, "single_request"))
                  ENDPOINTS) (items SERVICES)
  ++ flat_map (fun '(service_name, _) =>
                 map (fun endpoint => (service_name, endpoint, "concurrent_10"))
                     (firstn 2 ENDPOINTS)) (items SERVICES)
  ++ map (fun '(service_name, _) => (service_name, "/parallel", "concurrent_50"))
         (items SERVICES)
  ++ map (fun '(service_name, _) => (service_name, "/parallel", "concurrent_100"))
         (items SERVICES).

(** A sequence of calls of [add_result]. *)
Definition posting : Type := (string * string * string * dict)%type.

Definition add_all (l : list posting) (results : store) : store :=
  fold_left (fun acc '(service, endpoint, test_name, data) =>
               add_result acc service endpoint test_name data)
            l results.

(** The data of the last posting of a triple. *)
Fixpoint posted (l : list posting) (service endpoint test_name : string)
    : option dict :=
  match l with
  | [] => None
  | (s, e, t, d) :: l' =>
      match posted l' service endpoint test_name with
      | Some d' => Some d'
      | None =>
          if String.eqb s service && String.eqb e endpoint
             && String.eqb t test_name
          then Some d else None
      end
  end.

(** The calls of the four phases of [run_benchmark_suite], each with the
    triple its result is stored under. *)
Definition suite_calls (env : testbed)
    : list (string * string * string * res dict) :=
  flat_map (fun '(service_name, url) =>
              map (fun endpoint =>
                     (service_name, endpoint, "single_request",
                      test_single_request service_name url endpoint
                        (single env url endpoint)))
                  ENDPOINTS) (items SERVICES)
  ++ flat_map (fun '(service_name, url) =>
                 map (fun endpoint =>
                        (service_name, endpoint, "concurrent_10",
                         test_concurrent_sync service_name url endpoint 10
                           (load env url endpoint 10)))
                     (firstn 2 ENDPOINTS)) (items SERVICES)
  ++ map (fun '(service_name, url) =>
            (service_name, "/parallel", "concurrent_50",
             test_concurrent_sync service_name url "/parallel" 50
               (load env url "/parallel" 50)))
         (items SERVICES)
  ++ map (fun '(service_name, url) =>
            (service_name, "/parallel", "concurrent_100",
             test_concurrent_sync service_name url "/parallel" 100
               (load env url "/parallel" 100)))
         (items SERVICES).

(** The calls of [async_benchmark_suite]. *)
Definition async_suite_calls (env : testbed)
    : list (string * string * string * res dict) :=
  map (fun '(service_name, url) =>
         (service_name, "/parallel", "async_concurrent_100",
          test_concurrent_async service_name url "/parallel" 100
            (async_load env url "/parallel" 100)))
      (items SERVICES).

(** The result of a call that returned. *)
Definition value_of (r : res dict) : dict :=
  match r with
  | Ok d => d
  | Raise _ => []
  end.

Definition returns (call : string * string * string * res dict) : Prop :=
  exists d, snd call = Ok d.

Definition postings (calls : list (string * string * string * res dict))
    : list posting :=
  map (fun call => (fst call, value_of (snd call))) calls.

(** The calls made in order, each result stored under its triple; the
    first exception ends the sequence. *)
Fixpoint run_calls (calls : list (string * string * string * res dict))
    (results : store) : res store :=
  match calls with
  | [] => Ok results
  | (service, endpoint, test_name, call) :: calls' =>
      result <- call ;;
      run_calls calls' (add_result results service endpoint test_name result)
  end.

(** The entries of a store in the order [main] walks them. *)
Definition postings_of (results : store) : list posting :=
  flat_map (fun '(service, data) =>
    flat_map (fun '(endpoint, tests) =>
      map (fun '(test_name, result) => (service, endpoint, test_name, result))
          tests) data) results.

(** The triples [async_benchmark_suite] stores. *)
Definition async_plan : list (string * string * string) :=
  map (fun '(service_name, _) =>
         (service_name, "/parallel", "async_concurrent_100"))
      (items SERVICES).

(** A test bed on which every connection is refused after 10 ms and every
    load test takes 20 ms. *)
Definition refused_exchange : exchange :=
  {| sent_at := frac 0 1; http := Failure "connection refused";
     seen_at := frac 1 100 |}.

Definition quiet_bed : testbed := {|
  single := fun _ _ => refused_exchange;
  load := fun _ _ n => {| run_start := frac 0 1;
                          probe := fun _ => refused_exchange;
                          completion := seq 0 (Z.to_nat n);
                          run_end := frac 1 50 |};
  async_load := fun _ _ n => {| run_start := frac 0 1;
                                probe := fun _ => refused_exchange;
                                completion := [];
                                run_end := frac 1 50 |}
|}.

(** Health endpoints that answer 200 to the first GET. *)
Definition all_healthy (url : string) : list attempt :=
  [ {| took := frac 1 100; health := Response 200 |} ].

(** Three services answer 200 at once; quart-native refuses every
    connection, sixty times. *)
Definition quart_down (url : string) : list attempt :=
  if String.eqb url "http://localhost:5004"
  then repeat {| took := frac 0 1; health := Failure "connection refused" |} 60
  else all_healthy url.

(** ** The lookups of visual_benchmark.py *)

(** The keys of [LABELS] (visual_benchmark.py, lines 21-26). *)
Definition LABELS_keys : list string :=
  ["flask-wsgi"; "flask-async-trap"; "flask-asgi-wrapper"; "quart-native"].

(** [results[service][endpoint][test_name][metric]] *)
Definition metric_of (results : store)
    (service endpoint test_name metric : string) : res pyval :=
  by_endpoint <- subscript results service ;;
  by_test <- subscript by_endpoint endpoint ;;
  summary <- subscript by_test test_name ;;
  getkey summary metric.

(** [try: v = ...; xs.append(v)] with [except (KeyError, TypeError):
    xs.append(0)]: the value appended. *)
Definition value_or_zero (lookup_result : res pyval) : res pyval :=
  try_except lookup_result
    (fun e => match e with
              | KeyError _ | TypeError => Ok (VInt 0)
              | _ => Raise e
              end).

(** The list [times] that [plot_concurrent_requests_comparison] builds for
    a service (lines 53-59), and the list [rps_values] (lines 73-79). *)
Definition concurrent_series (metric : string) (results : store)
    (service : string) : res (list pyval) :=
  mapM (fun test_name =>
          value_or_zero (metric_of results service "/slow" test_name metric))
       ["concurrent_10"; "concurrent_50"; "concurrent_100"].

(** The list [latencies] that [plot_endpoint_comparison] builds for a
    service (lines 211-217). *)
Definition endpoint_latencies (results : store) (service : string)
    : res (list pyval) :=
  mapM (fun endpoint =>
          value_or_zero (metric_of results service endpoint "single_request"
                           "duration"))
       ["/slow"; "/multi-io"; "/cpu-intensive"; "/db-simulation"].

(** ** The reports (lines 44-57 and 287-321)

    What a report prints or writes is kept as the sequence of the literal
    texts and the formatted fields of its f-strings, a line break apart;
    the digits Python's formatting of a number produces are not
    interpreted.  A report is what the call has written when it returns;
    an exception ends the call. *)

Inductive piece : Type :=
| Text (s : string)
| Newline
| Padded (s : string) (width : Z)
| Fixed (v : pyval) (digits : Z).

(** [result.get(key, 0)] *)
Definition get_or_zero (result : dict) (key : string) : pyval :=
  match lookup key result with
  | Some v => v
  | None => VInt 0
  end.

(** The format code [f] is defined for [float], [int] and [bool], not for
    [str]: formatting a string with [.2f] raises ValueError. *)
Definition format_piece (p : piece) : res piece :=
  match p with
  | Fixed (VStr _) _ =>
      Raise (ValueError "Unknown format code 'f' for object of type 'str'")
  | _ => Ok p
  end.

(** The f-strings of one line, evaluated from left to right. *)
Definition formatted (pieces : list piece) : res (list piece) :=
  mapM format_piece pieces.

(** [endpoint in data and test_name in data[endpoint]] (lines 49 and 307). *)
Definition has_test (data : pydict (pydict dict)) (endpoint test_name : string)
    : res bool :=
  if contains data endpoint
  then tests <- subscript data endpoint ;; Ok (contains tests test_name)
  else Ok false.

(** The loop of lines 48-57 and of lines 306-313: for every service of the
    store that has the test, [body] on its name and the result of the
    test. *)
Definition for_each_result (results : store) (endpoint test_name : string)
    (body : string -> dict -> list piece) : res (list (list piece)) :=
  mapM (fun '(service, data) =>
          found <- has_test data endpoint test_name ;;
          if (found : bool)
          then tests <- subscript data endpoint ;;
               result <- subscript tests test_name ;;
               formatted (body service result)
          else Ok [])
       (items results).

(** ['=' * 80] *)
Definition rule : string :=
  String.concat "" (repeat "=" 80).

Definition comparison_banner (endpoint test_name : string) : list piece :=
  [Newline; Text rule; Newline;
   Text "COMPARISON: "; Text endpoint; Text " - "; Text test_name; Newline;
   Text rule; Newline; Newline].

Definition comparison_line (service : string) (result : dict) : list piece :=
  [Padded service 25; Text " | ";
   Text "Total: "; Fixed (get_or_zero result "total_time") 2; Text "s | ";
   Text "RPS: "; Fixed (get_or_zero result "requests_per_second") 1;
   Text " | ";
   Text "P95: "; Fixed (get_or_zero result "p95_latency") 2; Text "s | ";
   Text "P99: "; Fixed (get_or_zero result "p99_latency") 2; Text "s";
   Newline].

(** [BenchmarkResults.print_comparison] (lines 44-57): what it prints. *)
Definition print_comparison (results : store) (endpoint test_name : string)
    : res (list piece) :=
  lines <- for_each_result results endpoint test_name comparison_line ;;
  Ok (comparison_banner endpoint test_name ++ List.concat lines).

Definition markdown_head (timestamp : string) : list piece :=
  [Text "# Benchmark Results - Flask vs Quart"; Newline; Newline;
   Text "Generated: "; Text timestamp; Newline; Newline;
   Text "## Summary"; Newline; Newline;
   Text "This benchmark compares:"; Newline;
   Text "1. **Flask + WSGI** (baseline)"; Newline;
   Text "2. **Flask + Async routes** (trap - doesn't work)"; Newline;
   Text "3. **Flask + ASGI wrapper** (overhead, no benefits)"; Newline;
   Text "4. **Quart native** (true async)"; Newline; Newline;
   Text "## Main Test: 100 Concurrent Requests (/parallel endpoint)";
   Newline; Newline;
   Text "| Solution | Total Time | RPS | P95 Latency | P99 Latency |";
   Newline;
   Text "|----------|------------|-----|-------------|-------------|";
   Newline].

Definition markdown_row (service : string) (result : dict) : list piece :=
  [Text "| "; Text service; Text " | ";
   Fixed (get_or_zero result "total_time") 2; Text "s | ";
   Fixed (get_or_zero result "requests_per_second") 1; Text " | ";
   Fixed (get_or_zero result "p95_latency") 2; Text "s | ";
   Fixed (get_or_zero result "p99_latency") 2; Text "s |"; Newline].

Definition markdown_foot : list piece :=
  [Newline; Text "## Key Findings"; Newline; Newline;
   Text "- **Flask + WSGI**: Limited by workers × threads"; Newline;
   Text "- **Flask + Async**: No improvement (WSGI limitation)"; Newline;
   Text "- **Flask + ASGI wrapper**: Worse due to overhead"; Newline;
   Text "- **Quart**: Massive improvement with true async"; Newline; Newline].

(** [generate_markdown_report] (lines 287-321): what it writes to the file;
    [timestamp] is [datetime.utcnow().isoformat()]. *)
Definition generate_markdown_report (results : store) (timestamp : string)
    : res (list piece) :=
  let summary := get_summary results in
  rows <- for_each_result summary "/parallel" "concurrent_100" markdown_row ;;
  Ok (markdown_head timestamp ++ List.concat rows ++ markdown_foot).

(** A result whose four reported metrics are numbers, or missing. *)
Definition numeric (v : pyval) : bool :=
  match v with
  | VStr _ => false
  | _ => true
  end.

Definition printable (result : dict) : bool :=
  numeric (get_or_zero result "total_time")
  && numeric (get_or_zero result "requests_per_second")
  && numeric (get_or_zero result "p95_latency")
  && numeric (get_or_zero result "p99_latency").

(** Every result of the test at the endpoint is printable. *)
Definition all_printable (results : store) (endpoint test_name : string)
    : bool :=
  forallb (fun '(_, data) =>
             match dget data endpoint with
             | Some tests =>
                 match dget tests test_name with
                 | Some result => printable result
                 | None => true
                 end
             | None => true
             end)
          (items results).

(** A store of two services: a thread-pool summary of flask-wsgi and a
    single probe of quart-native. *)
Definition two_services : store :=
  add_result
    (add_result empty_results "flask-wsgi" "/parallel" "concurrent_10"
       [("total_time", VFloat (frac 1 2)); ("errors", VInt 10);
        ("success_rate", VInt 0)])
    "quart-native" "/slow" "single_request"
    [("success", VBool false); ("duration", VFloat (frac 1 100));
     ("error", VStr "connection refused")].

(** The services of a store after a sequence of [add_result]: a service
    that is already there keeps its place, a new one goes last. *)
Definition note_service (services : list string) (service : string)
    : list string :=
  if existsb (String.eqb service) services then services
  else services ++ [service].

(** * The request counters of the applications

    src/1-flask-wsgi/app.py; 2-flask-async-trap and 4-quart-native have the
    same [track_request].  The module-level dict [metrics] has three fixed
    keys and is the state every handler goes through; a call of
    [track_request] runs to its end before the next one starts (it holds no
    [await]; under threads this is one worker's view). *)

Module flask_wsgi.

Record metrics_t : Type := {
  requests_total : Z;
  requests_by_endpoint : pydict Z;
  start_time : Qc
}.

(** [metrics] as the module creates it (lines 21-25), at time [now]. *)
Definition metrics (now : Qc) : metrics_t := {|
  requests_total := 0;
  requests_by_endpoint := [];
  start_time := now
|}.

(** [d.get(k, default)] *)
Definition get {V : Type} (d : pydict V) (k : string) (default : V) : V :=
  match dget d k with
  | Some v => v
  | None => default
  end.

(** [track_request] (lines 28-32). *)
Definition track_request (metrics : metrics_t) (endpoint_name : string)
    : metrics_t := {|
  requests_total := requests_total metrics + 1;
  requests_by_endpoint :=
    dset (requests_by_endpoint metrics) endpoint_name
         (get (requests_by_endpoint metrics) endpoint_name 0 + 1);
  start_time := start_time metrics
|}.

(** The JSON object of [get_metrics] (lines 165-176); [pid] is
    [os.getpid()], [now] is [time.time()]. *)
Record metrics_json : Type := {
  type_ : string;
  worker_id : Z;
  uptime_seconds : Qc;
  json_requests_total : Z;
  json_requests_by_endpoint : pydict Z;
  requests_per_second : pyval
}.

Definition get_metrics (metrics : metrics_t) (pid : Z) (now : Qc)
    : metrics_json :=
  let uptime := (now - start_time metrics)%Qc in
  {| type_ := "flask-wsgi";
     worker_id := pid;
     uptime_seconds := uptime;
     json_requests_total := requests_total metrics;
     json_requests_by_endpoint := requests_by_endpoint metrics;
     requests_per_second :=
       if Qcltb 0 uptime
       then VFloat (of_int (requests_total metrics) / uptime)
       else VInt 0 |}.

(** The state after the handlers of [served] ran, in this order, each
    calling [track_request] with its name. *)
Definition after_requests (now : Qc) (served : list string) : metrics_t :=
  fold_left track_request served (metrics now).

(** [served.count(name)] *)
Definition count (served : list string) (name : string) : Z :=
  len (filter (String.eqb name) served).

(** [sum(d.values())] *)
Definition total (d : pydict Z) : Z := fold_right Z.add 0 (values d).

End flask_wsgi.

(** * Properties *)

(** Inversion of a chain of binds that returned. *)
Ltac bind_inv H :=
  repeat match type of H with
         | bind ?m _ = Ok _ =>
             let E := fresh "E" in
             destruct m eqn:E; cbn [bind] in H; [|discriminate H]
         end.

(** ** Order and arithmetic on durations *)

Lemma Qcltb_true (x y : Qc) : Qcltb x y = true <-> (x < y)%Qc.
Proof.
  unfold Qcltb. rewrite Qclt_alt.
  destruct (x ?= y)%Qc; split; intro H; try reflexivity; discriminate H.
Qed.

Lemma Qcltb_false (x y : Qc) : Qcltb x y = false <-> (y <= x)%Qc.
Proof.
  split; intro H.
  - apply Qcnot_lt_le. intro Hlt. apply Qcltb_true in Hlt. congruence.
  - destruct (Qcltb x y) eqn:E; [|reflexivity].
    apply Qcltb_true in E. exfalso. exact (Qcle_not_lt _ _ H E).
Qed.

Lemma Qc_eq_bool_false (x y : Qc) : x <> y -> Qc_eq_bool x y = false.
Proof.
  intro H. destruct (Qc_eq_bool x y) eqn:E; [|reflexivity].
  apply Qc_eq_bool_correct in E. contradiction.
Qed.

Lemma Qc_eq_bool_refl (x : Qc) : Qc_eq_bool x x = true.
Proof.
  unfold Qc_eq_bool. destruct (Qc_eq_dec x x); [reflexivity | contradiction].
Qed.

Lemma of_int_plus (a b : Z) : of_int (a + b) = (of_int a + of_int b)%Qc.
Proof.
  unfold of_int, Qcplus. apply Q2Qc_eq_iff. cbn [this Q2Qc].
  rewrite !Qred_correct, inject_Z_plus. reflexivity.
Qed.

Lemma of_int_minus (a b : Z) : of_int (a - b) = (of_int a - of_int b)%Qc.
Proof.
  unfold of_int, Qcminus, Qcplus, Qcopp. apply Q2Qc_eq_iff. cbn [this Q2Qc].
  rewrite !Qred_correct. unfold Z.sub. rewrite inject_Z_plus, inject_Z_opp.
  reflexivity.
Qed.

Lemma of_int_le (a b : Z) : a <= b -> (of_int a <= of_int b)%Qc.
Proof.
  intro H. unfold Qcle, of_int. cbn [this Q2Qc]. rewrite !Qred_correct.
  rewrite <- Zle_Qle. exact H.
Qed.

Lemma of_int_lt (a b : Z) : a < b -> (of_int a < of_int b)%Qc.
Proof.
  intro H. unfold Qclt, of_int. cbn [this Q2Qc]. rewrite !Qred_correct.
  rewrite <- Zlt_Qlt. exact H.
Qed.

Lemma of_int_neq_0 (n : Z) : n <> 0 -> of_int n <> 0%Qc.
Proof.
  intros H E. destruct (Z.lt_trichotomy n 0) as [L | [L | L]]; [|contradiction|].
  - apply of_int_lt in L. rewrite E in L. exact (Qclt_not_eq _ _ L eq_refl).
  - apply of_int_lt in L. rewrite E in L.
    exact (Qclt_not_eq _ _ L eq_refl).
Qed.

(** ** [sorted] sorts *)

Lemma insert_perm (x : Qc) (l : list Qc) : Permutation (insert x l) (x :: l).
Proof.
  induction l as [|y l IH]; simpl.
  - apply Permutation_refl.
  - destruct (Qcltb x y).
    + apply Permutation_refl.
    + apply Permutation_trans with (y :: x :: l).
      * apply perm_skip. exact IH.
      * apply perm_swap.
Qed.

Lemma fold_insert_perm (data acc : list Qc) :
  Permutation (fold_left (fun acc x => insert x acc) data acc) (data ++ acc).
Proof.
  revert acc. induction data as [|x data IH]; intro acc; simpl.
  - apply Permutation_refl.
  - apply Permutation_trans with (data ++ insert x acc).
    + apply IH.
    + apply Permutation_trans with (data ++ x :: acc).
      * apply Permutation_app_head. apply insert_perm.
      * apply Permutation_sym. apply Permutation_middle.
Qed.

Lemma sorted_perm (data : list Qc) : Permutation (sorted data) data.
Proof.
  unfold sorted.
  apply Permutation_trans with (data ++ []).
  - apply fold_insert_perm.
  - rewrite app_nil_r. apply Permutation_refl.
Qed.

Lemma len_sorted (data : list Qc) : len (sorted data) = len data.
Proof.
  unfold len. f_equal. apply Permutation_length. apply sorted_perm.
Qed.

Lemma insert_sorted (x : Qc) (l : list Qc) :
  StronglySorted Qcle l -> StronglySorted Qcle (insert x l).
Proof.
  induction 1 as [|y l Hl IH Hy]; simpl.
  - constructor; constructor.
  - destruct (Qcltb x y) eqn:E.
    + apply Qcltb_true in E. constructor.
      * constructor; assumption.
      * constructor.
        -- apply Qclt_le_weak. exact E.
        -- apply Forall_impl with (P := Qcle y); [|exact Hy].
           intros z Hz. apply Qcle_trans with y; [|exact Hz].
           apply Qclt_le_weak. exact E.
    + apply Qcltb_false in E. constructor.
      * exact IH.
      * apply Forall_forall. intros z Hz.
        apply (Permutation_in _ (insert_perm x l)) in Hz.
        destruct Hz as [<- | Hz]; [exact E|].
        rewrite Forall_forall in Hy. apply Hy. exact Hz.
Qed.

Lemma fold_insert_sorted (data acc : list Qc) :
  StronglySorted Qcle acc ->
  StronglySorted Qcle (fold_left (fun acc x => insert x acc) data acc).
Proof.
  revert acc. induction data as [|x data IH]; intros acc H; simpl.
  - exact H.
  - apply IH. apply insert_sorted. exact H.
Qed.

Lemma sorted_StronglySorted (data : list Qc) :
  StronglySorted Qcle (sorted data).
Proof. apply fold_insert_sorted. constructor. Qed.

(** A sorted list is determined by its elements. *)
Lemma StronglySorted_perm_eq (l1 l2 : list Qc) :
  StronglySorted Qcle l1 -> StronglySorted Qcle l2 -> Permutation l1 l2 ->
  l1 = l2.
Proof.
  intro H1. revert l2. induction H1 as [|x l1 Hl1 IH Hx]; intros l2 H2 HP.
  - apply Permutation_nil in HP. symmetry. exact HP.
  - destruct H2 as [|y l2 Hl2 Hy].
    + apply Permutation_sym, Permutation_nil in HP. discriminate HP.
    + assert (E : x = y).
      { apply Qcle_antisym.
        - assert (Hin : In y (x :: l1)).
          { apply Permutation_in with (y :: l2);
              [apply Permutation_sym; exact HP | left; reflexivity]. }
          destruct Hin as [-> | Hin]; [apply Qcle_refl|].
          rewrite Forall_forall in Hx. apply Hx. exact Hin.
        - assert (Hin : In x (y :: l2)).
          { apply Permutation_in with (x :: l1); [exact HP | left; reflexivity]. }
          destruct Hin as [-> | Hin]; [apply Qcle_refl|].
          rewrite Forall_forall in Hy. apply Hy. exact Hin. }
      subst y. f_equal. apply IH; [exact Hl2|].
      apply Permutation_cons_inv with x. exact HP.
Qed.

Lemma sorted_Permutation (d1 d2 : list Qc) :
  Permutation d1 d2 -> sorted d1 = sorted d2.
Proof.
  intro HP. apply StronglySorted_perm_eq; try apply sorted_StronglySorted.
  apply Permutation_trans with d1; [apply sorted_perm|].
  apply Permutation_trans with d2; [exact HP|].
  apply Permutation_sym. apply sorted_perm.
Qed.

Lemma StronglySorted_nth (l : list Qc) (d : Qc) :
  StronglySorted Qcle l ->
  forall i k : nat, (i <= k)%nat -> (k < List.length l)%nat ->
  (nth i l d <= nth k l d)%Qc.
Proof.
  induction 1 as [|x l Hl IH Hx]; intros i k Hik Hk; simpl in Hk.
  - lia.
  - destruct i as [|i], k as [|k]; simpl.
    + apply Qcle_refl.
    + rewrite Forall_forall in Hx. apply Hx. apply nth_In. lia.
    + lia.
    + apply IH; lia.
Qed.

(** ** Indexing, [range] and [mapM] *)

Lemma getitem_nth {A : Type} (l : list A) (i : Z) (d : A) :
  0 <= i < len l -> getitem l i = Ok (nth (Z.to_nat i) l d).
Proof.
  intros [H0 H1]. unfold getitem.
  destruct (i <? 0) eqn:E; [apply Z.ltb_lt in E; lia|].
  rewrite E.
  destruct (nth_error l (Z.to_nat i)) as [x|] eqn:En.
  - f_equal. symmetry. apply nth_error_nth. exact En.
  - apply nth_error_None in En. unfold len in H1. lia.
Qed.

Lemma mapM_pure {A B : Type} (f : A -> res B) (g : A -> B) (l : list A) :
  (forall x, In x l -> f x = Ok (g x)) -> mapM f l = Ok (map g l).
Proof.
  induction l as [|x l IH]; intro H; simpl.
  - reflexivity.
  - rewrite (H x (or_introl eq_refl)). simpl.
    rewrite IH; [reflexivity|].
    intros y Hy. apply H. right. exact Hy.
Qed.

Lemma nth_map_in {A B : Type} (f : A -> B) (l : list A) (k : nat) (d : B) (d' : A) :
  (k < List.length l)%nat -> nth k (map f l) d = f (nth k l d').
Proof.
  revert k. induction l as [|x l IH]; intros k H; simpl in *.
  - lia.
  - destruct k as [|k]; [reflexivity|]. apply IH. lia.
Qed.

Lemma len_range (lo hi : Z) : lo <= hi -> len (range lo hi) = hi - lo.
Proof.
  intro H. unfold len, range. rewrite length_map, length_seq. lia.
Qed.

Lemma nth_range (lo hi : Z) (k : nat) (d : Z) :
  Z.of_nat k < hi - lo -> nth k (range lo hi) d = lo + Z.of_nat k.
Proof.
  intro H. unfold range.
  rewrite (nth_map_in _ _ _ _ 0%nat) by (rewrite length_seq; lia).
  rewrite seq_nth by lia. reflexivity.
Qed.

(** ** [quantiles] computes the closed form *)

Lemma rank_bounds (ld n i : Z) : 2 <= ld -> 1 <= rank ld n i <= ld - 1.
Proof. unfold rank. lia. Qed.

Lemma interpolated_cut (s : list Qc) (n i : Z) :
  2 <= len s ->
  statistics.interpolated s n (len s) (len s + 1) i = Ok (cut s n i).
Proof.
  intro Hld. unfold statistics.interpolated, cut.
  set (ld := len s) in *.
  assert (Hj : (if i * (ld + 1) / n <? 1 then 1
                else if i * (ld + 1) / n >? ld - 1 then ld - 1
                     else i * (ld + 1) / n) = rank ld n i).
  { unfold rank.
    destruct (i * (ld + 1) / n <? 1) eqn:E1.
    - apply Z.ltb_lt in E1. lia.
    - apply Z.ltb_ge in E1.
      destruct (i * (ld + 1) / n >? ld - 1) eqn:E2.
      + apply Z.gtb_lt in E2. lia.
      + rewrite Z.gtb_ltb in E2. apply Z.ltb_ge in E2. lia. }
  rewrite Hj.
  pose proof (rank_bounds ld n i Hld) as Hb.
  rewrite (getitem_nth s (rank ld n i - 1) 0%Qc) by (fold ld; lia).
  rewrite (getitem_nth s (rank ld n i) 0%Qc) by (fold ld; lia).
  reflexivity.
Qed.

Lemma quantiles_cuts (data : list Qc) (n : Z) :
  2 <= len data -> 1 <= n ->
  statistics.quantiles data n = Ok (map (cut (sorted data) n) (range 1 n)).
Proof.
  intros Hld Hn. unfold statistics.quantiles.
  destruct (n <? 1) eqn:E; [apply Z.ltb_lt in E; lia|].
  destruct (len (sorted data) <? 2) eqn:E2.
  { apply Z.ltb_lt in E2. rewrite len_sorted in E2. lia. }
  apply mapM_pure. intros i _. apply interpolated_cut.
  rewrite len_sorted. exact Hld.
Qed.

Lemma quantiles_getitem (data : list Qc) (n k : Z) :
  2 <= len data -> 0 <= k < n - 1 ->
  (qs <- statistics.quantiles data n ;; getitem qs k)
  = Ok (cut (sorted data) n (1 + k)).
Proof.
  intros Hld Hk. rewrite quantiles_cuts by lia. unfold bind.
  rewrite (getitem_nth _ k 0%Qc).
  - f_equal.
    assert (Hlen : len (range 1 n) = n - 1) by (apply len_range; lia).
    rewrite (nth_map_in _ _ _ _ 0) by (unfold len in Hlen; lia).
    f_equal. rewrite nth_range by lia. lia.
  - unfold len. rewrite length_map. fold (len (range 1 n)).
    rewrite len_range; lia.
Qed.

Lemma p95_latency_cut (durations : list Qc) :
  2 <= len durations -> p95_latency durations = Ok (cut (sorted durations) 20 19).
Proof.
  intro H. unfold p95_latency.
  destruct (len durations >? 1) eqn:E.
  - apply (quantiles_getitem durations 20 18); lia.
  - rewrite Z.gtb_ltb in E. apply Z.ltb_ge in E. lia.
Qed.

Lemma p99_latency_cut (durations : list Qc) :
  2 <= len durations -> p99_latency durations = Ok (cut (sorted durations) 100 99).
Proof.
  intro H. unfold p99_latency.
  destruct (len durations >? 1) eqn:E.
  - apply (quantiles_getitem durations 100 98); lia.
  - rewrite Z.gtb_ltb in E. apply Z.ltb_ge in E. lia.
Qed.

(** ** Linear interpolation between two ordered values *)

Lemma of_int_mult (a b : Z) : of_int (a * b) = (of_int a * of_int b)%Qc.
Proof.
  unfold of_int, Qcmult. apply Q2Qc_eq_iff. cbn [this Q2Qc].
  rewrite !Qred_correct, inject_Z_mult. reflexivity.
Qed.

Lemma Qcmult_nonneg (x y : Qc) : (0 <= x -> 0 <= y -> 0 <= x * y)%Qc.
Proof.
  intros Hx Hy. rewrite <- (Qcmult_0_l y).
  apply Qcmult_le_compat_r; assumption.
Qed.

Lemma Qcle_diff (x y : Qc) : (x <= y -> 0 <= y - x)%Qc.
Proof. intro H. apply Qcle_minus_iff in H. exact H. Qed.

Section Interpolation.

Variables a b : Qc.
Hypothesis Hab : (a <= b)%Qc.

Lemma lerp_scaled (n delta : Z) :
  0 < n ->
  (lerp a b n delta * of_int n = a * of_int n + (b - a) * of_int delta)%Qc.
Proof.
  intro Hn. unfold lerp. rewrite of_int_minus.
  field. apply of_int_neq_0. lia.
Qed.

Lemma lerp_lower (n delta : Z) :
  0 < n -> 0 <= delta -> (a <= lerp a b n delta)%Qc.
Proof.
  intros Hn Hd.
  apply Qcmult_lt_0_le_reg_r with (of_int n); [apply (of_int_lt 0); lia|].
  rewrite lerp_scaled by exact Hn.
  apply Qcle_minus_iff.
  replace (a * of_int n + (b - a) * of_int delta + - (a * of_int n))%Qc
    with ((b - a) * of_int delta)%Qc by ring.
  apply Qcmult_nonneg; [apply Qcle_diff; exact Hab | apply (of_int_le 0); exact Hd].
Qed.

Lemma lerp_upper (n delta : Z) :
  0 < n -> delta <= n -> (lerp a b n delta <= b)%Qc.
Proof.
  intros Hn Hd.
  apply Qcmult_lt_0_le_reg_r with (of_int n); [apply (of_int_lt 0); lia|].
  rewrite lerp_scaled by exact Hn.
  apply Qcle_minus_iff.
  replace (b * of_int n + - (a * of_int n + (b - a) * of_int delta))%Qc
    with ((b - a) * of_int (n - delta))%Qc by (rewrite of_int_minus; ring).
  apply Qcmult_nonneg; [apply Qcle_diff; exact Hab | apply (of_int_le 0); lia].
Qed.

Lemma lerp_beyond (n delta : Z) :
  0 < n -> n <= delta -> (b <= lerp a b n delta)%Qc.
Proof.
  intros Hn Hd.
  apply Qcmult_lt_0_le_reg_r with (of_int n); [apply (of_int_lt 0); lia|].
  rewrite lerp_scaled by exact Hn.
  apply Qcle_minus_iff.
  replace (a * of_int n + (b - a) * of_int delta + - (b * of_int n))%Qc
    with ((b - a) * of_int (delta - n))%Qc by (rewrite of_int_minus; ring).
  apply Qcmult_nonneg; [apply Qcle_diff; exact Hab | apply (of_int_le 0); lia].
Qed.

(** On one pair the value grows with the fraction [delta / n]. *)
Lemma lerp_mono (n1 delta1 n2 delta2 : Z) :
  0 < n1 -> 0 < n2 -> delta1 * n2 <= delta2 * n1 ->
  (lerp a b n1 delta1 <= lerp a b n2 delta2)%Qc.
Proof.
  intros H1 H2 Hd.
  apply Qcmult_lt_0_le_reg_r with (of_int n1); [apply (of_int_lt 0); lia|].
  apply Qcmult_lt_0_le_reg_r with (of_int n2); [apply (of_int_lt 0); lia|].
  rewrite lerp_scaled by exact H1.
  replace (lerp a b n2 delta2 * of_int n1 * of_int n2)%Qc
    with (lerp a b n2 delta2 * of_int n2 * of_int n1)%Qc by ring.
  rewrite lerp_scaled by exact H2.
  apply Qcle_minus_iff.
  replace ((a * of_int n2 + (b - a) * of_int delta2) * of_int n1
           + - ((a * of_int n1 + (b - a) * of_int delta1) * of_int n2))%Qc
    with ((b - a) * of_int (delta2 * n1 - delta1 * n2))%Qc
    by (rewrite of_int_minus, !of_int_mult; ring).
  apply Qcmult_nonneg; [apply Qcle_diff; exact Hab | apply (of_int_le 0); lia].
Qed.

End Interpolation.

(** ** [min] and [max] *)

Lemma fold_min_spec (l : list Qc) (x : Qc) :
  let m := fold_left (fun m y => if Qcltb y m then y else m) l x in
  In m (x :: l) /\ forall y, In y (x :: l) -> (m <= y)%Qc.
Proof.
  revert x. induction l as [|z l IH]; intro x; simpl.
  - split; [left; reflexivity|].
    intros y [<- | []]. apply Qcle_refl.
  - specialize (IH (if Qcltb z x then z else x)). simpl in IH.
    destruct IH as [Hin Hle]. split.
    + destruct Hin as [Hin | Hin]; [|right; right; exact Hin].
      rewrite <- Hin. destruct (Qcltb z x); [right; left|left]; reflexivity.
    + intros y Hy.
      assert (Hzx : ((if Qcltb z x then z else x) <= x
                     /\ (if Qcltb z x then z else x) <= z)%Qc).
      { destruct (Qcltb z x) eqn:E.
        - apply Qcltb_true in E. split; [apply Qclt_le_weak; exact E | apply Qcle_refl].
        - apply Qcltb_false in E. split; [apply Qcle_refl | exact E]. }
      destruct Hzx as [Hx Hz].
      destruct Hy as [<- | [<- | Hy]].
      * eapply Qcle_trans; [|exact Hx]. apply Hle. left. reflexivity.
      * eapply Qcle_trans; [|exact Hz]. apply Hle. left. reflexivity.
      * apply Hle. right. exact Hy.
Qed.

Lemma fold_max_spec (l : list Qc) (x : Qc) :
  let m := fold_left (fun m y => if Qcltb m y then y else m) l x in
  In m (x :: l) /\ forall y, In y (x :: l) -> (y <= m)%Qc.
Proof.
  revert x. induction l as [|z l IH]; intro x; simpl.
  - split; [left; reflexivity|].
    intros y [<- | []]. apply Qcle_refl.
  - specialize (IH (if Qcltb x z then z else x)). simpl in IH.
    destruct IH as [Hin Hle]. split.
    + destruct Hin as [Hin | Hin]; [|right; right; exact Hin].
      rewrite <- Hin. destruct (Qcltb x z); [right; left|left]; reflexivity.
    + intros y Hy.
      assert (Hzx : (x <= (if Qcltb x z then z else x)
                     /\ z <= (if Qcltb x z then z else x))%Qc).
      { destruct (Qcltb x z) eqn:E.
        - apply Qcltb_true in E. split; [apply Qclt_le_weak; exact E | apply Qcle_refl].
        - apply Qcltb_false in E. split; [apply Qcle_refl | exact E]. }
      destruct Hzx as [Hx Hz].
      destruct Hy as [<- | [<- | Hy]].
      * eapply Qcle_trans; [exact Hx|]. apply Hle. left. reflexivity.
      * eapply Qcle_trans; [exact Hz|]. apply Hle. left. reflexivity.
      * apply Hle. right. exact Hy.
Qed.

Lemma min_spec (data : list Qc) :
  data <> [] ->
  exists lo, min_ data = Ok lo /\ In lo data
             /\ forall y, In y data -> (lo <= y)%Qc.
Proof.
  destruct data as [|x l]; [congruence|]. intros _.
  eexists. split; [reflexivity|]. apply fold_min_spec.
Qed.

Lemma max_spec (data : list Qc) :
  data <> [] ->
  exists hi, max_ data = Ok hi /\ In hi data
             /\ forall y, In y data -> (y <= hi)%Qc.
Proof.
  destruct data as [|x l]; [congruence|]. intros _.
  eexists. split; [reflexivity|]. apply fold_max_spec.
Qed.

Lemma min_Permutation (d1 d2 : list Qc) :
  Permutation d1 d2 -> min_ d1 = min_ d2.
Proof.
  intro HP. destruct d1 as [|x1 l1].
  - apply Permutation_nil in HP. subst d2. reflexivity.
  - destruct d2 as [|x2 l2];
      [apply Permutation_sym, Permutation_nil in HP; discriminate HP|].
    destruct (min_spec (x1 :: l1)) as (m1 & E1 & I1 & L1); [discriminate|].
    destruct (min_spec (x2 :: l2)) as (m2 & E2 & I2 & L2); [discriminate|].
    rewrite E1, E2. f_equal. apply Qcle_antisym.
    + apply L1. apply Permutation_in with (x2 :: l2);
        [apply Permutation_sym; exact HP | exact I2].
    + apply L2. apply Permutation_in with (x1 :: l1); [exact HP | exact I1].
Qed.

Lemma max_Permutation (d1 d2 : list Qc) :
  Permutation d1 d2 -> max_ d1 = max_ d2.
Proof.
  intro HP. destruct d1 as [|x1 l1].
  - apply Permutation_nil in HP. subst d2. reflexivity.
  - destruct d2 as [|x2 l2];
      [apply Permutation_sym, Permutation_nil in HP; discriminate HP|].
    destruct (max_spec (x1 :: l1)) as (m1 & E1 & I1 & L1); [discriminate|].
    destruct (max_spec (x2 :: l2)) as (m2 & E2 & I2 & L2); [discriminate|].
    rewrite E1, E2. f_equal. apply Qcle_antisym.
    + apply L2. apply Permutation_in with (x1 :: l1); [exact HP | exact I1].
    + apply L1. apply Permutation_in with (x2 :: l2);
        [apply Permutation_sym; exact HP | exact I2].
Qed.

(** ** Cut points of a sorted sample *)

Lemma div_bounds (x n : Z) : 0 < n -> n * (x / n) <= x < n * (x / n) + n.
Proof.
  intro Hn. pose proof (Z.div_mod x n ltac:(lia)) as E.
  pose proof (Z.mod_pos_bound x n Hn). lia.
Qed.

Section SortedSample.

Variable s : list Qc.
Hypothesis Hs : StronglySorted Qcle s.
Hypothesis Hld : 2 <= len s.

Lemma item_mono (j k : Z) : 0 <= j <= k -> k < len s -> (item s j <= item s k)%Qc.
Proof.
  intros Hjk Hk. unfold item. apply StronglySorted_nth; [exact Hs|lia|].
  unfold len in Hk. lia.
Qed.

Lemma item_In (j : Z) : 0 <= j < len s -> In (item s j) s.
Proof. intro H. unfold item. apply nth_In. unfold len in H. lia. Qed.

(** The cut point is not below the lower order statistic of its pair
    when the rank was not clamped from below. *)
Lemma cut_lower (n i : Z) :
  0 < n -> n <= i * (len s + 1) ->
  (item s (rank (len s) n i - 1) <= cut s n i)%Qc.
Proof.
  intros Hn Hi. unfold cut. cbv zeta.
  pose proof (div_bounds (i * (len s + 1)) n Hn) as Hq.
  apply lerp_lower; [|exact Hn|].
  - apply item_mono; pose proof (rank_bounds (len s) n i Hld); lia.
  - unfold rank. nia.
Qed.

(** It is not above the upper one when the rank was not clamped from
    above, or was clamped by exactly one. *)
Lemma cut_upper (n i : Z) :
  0 < n -> i * (len s + 1) <= n * len s ->
  (cut s n i <= item s (rank (len s) n i))%Qc.
Proof.
  intros Hn Hi. unfold cut. cbv zeta.
  pose proof (div_bounds (i * (len s + 1)) n Hn) as Hq.
  apply lerp_upper; [|exact Hn|].
  - apply item_mono; pose proof (rank_bounds (len s) n i Hld); lia.
  - unfold rank. nia.
Qed.

(** On a sample too small for the fractile the rank is clamped and the
    cut point lies at or past the largest value. *)
Lemma cut_beyond (n i : Z) :
  0 < n -> n * len s <= i * (len s + 1) ->
  (item s (len s - 1) <= cut s n i)%Qc.
Proof.
  intros Hn Hi. unfold cut. cbv zeta.
  pose proof (div_bounds (i * (len s + 1)) n Hn) as Hq.
  assert (Hr : rank (len s) n i = len s - 1) by (unfold rank; nia).
  rewrite Hr.
  apply lerp_beyond; [|exact Hn|nia].
  apply item_mono; lia.
Qed.

Lemma cut_95_le_99 : (cut s 20 19 <= cut s 100 99)%Qc.
Proof.
  pose proof (div_bounds (19 * (len s + 1)) 20 ltac:(lia)) as H1.
  pose proof (div_bounds (99 * (len s + 1)) 100 ltac:(lia)) as H2.
  pose proof (rank_bounds (len s) 20 19 Hld) as B1.
  pose proof (rank_bounds (len s) 100 99 Hld) as B2.
  destruct (Z.eq_dec (rank (len s) 20 19) (rank (len s) 100 99)) as [E | N].
  - unfold cut. cbv zeta. rewrite E.
    apply lerp_mono; [|lia|lia|lia].
    apply item_mono; lia.
  - assert (Hlt : rank (len s) 20 19 < rank (len s) 100 99)
      by (unfold rank in *; lia).
    apply Qcle_trans with (item s (rank (len s) 20 19)).
    { unfold cut. cbv zeta. apply lerp_upper; [|lia|].
      - apply item_mono; lia.
      - unfold rank in *. lia. }
    apply Qcle_trans with (item s (rank (len s) 100 99 - 1)).
    { apply item_mono; lia. }
    apply cut_lower; lia.
Qed.

End SortedSample.

(** ** The probes and the collecting loops *)

Lemma test_single_request_outcome (service_name url endpoint : string)
    (x : exchange) :
  exists d, test_single_request service_name url endpoint x = Ok d
            /\ getkey d "success" = Ok (VBool (succeeded x))
            /\ getkey d "duration" = Ok (VFloat (elapsed x)).
Proof.
  unfold test_single_request, client_get, succeeded, elapsed.
  destruct (http x) as [c | msg]; simpl;
    eexists; (split; [reflexivity|]); split; reflexivity.
Qed.

Lemma make_request_outcome (url endpoint : string) (x : exchange) :
  exists d, make_request url endpoint x = Ok d
            /\ getkey d "success" = Ok (VBool (succeeded x))
            /\ getkey d "duration" = Ok (VFloat (elapsed x)).
Proof.
  unfold make_request, client_get, succeeded, elapsed.
  destruct (http x) as [c | msg]; simpl;
    eexists; (split; [reflexivity|]); split; reflexivity.
Qed.

Lemma collected_cons (x : exchange) (xs : list exchange) :
  collected (x :: xs)
  = if succeeded x
    then (elapsed x :: fst (collected xs), snd (collected xs))
    else (fst (collected xs), 1 + snd (collected xs)).
Proof.
  unfold collected. cbn [filter].
  destruct (succeeded x); cbn [negb map fst snd]; f_equal.
  unfold len. cbn [List.length]. lia.
Qed.

(** The loop of [test_concurrent_sync] over futures that hold the
    outcomes of the exchanges [xs]. *)
Lemma sync_loop (service_name url endpoint : string) (xs : list exchange) :
  forall (durations : list Qc) (errors : Z),
  foldM (fun '(durations, errors) future =>
           result <- future ;;
           success <- getkey result "success" ;;
           if truthy success
           then duration <- getkey result "duration" ;;
                d <- as_number duration ;;
                Ok (durations ++ [d], errors)
           else Ok (durations, errors + 1))
        (map (test_single_request service_name url endpoint) xs)
        (durations, errors)
  = Ok (durations ++ fst (collected xs), errors + snd (collected xs)).
Proof.
  induction xs as [|x xs IH]; intros durations errors.
  - simpl. rewrite app_nil_r, Z.add_0_r. reflexivity.
  - cbn [map foldM].
    destruct (test_single_request_outcome service_name url endpoint x)
      as (d & E & Es & Ed).
    rewrite E. cbn [bind]. rewrite Es. cbn [bind truthy].
    rewrite collected_cons.
    destruct (succeeded x).
    + rewrite Ed. cbn [bind as_number].
      etransitivity; [apply IH|]. cbn [fst snd].
      rewrite <- app_assoc. reflexivity.
    + etransitivity; [apply IH|]. cbn [fst snd]. f_equal. f_equal. lia.
Qed.

Lemma gather_tasks (url endpoint : string) (xs : list exchange) :
  exists results,
    mapM (fun task => task) (map (make_request url endpoint) xs) = Ok results
    /\ Forall2 (fun x d => getkey d "success" = Ok (VBool (succeeded x))
                           /\ getkey d "duration" = Ok (VFloat (elapsed x)))
               xs results.
Proof.
  induction xs as [|x xs (results & E & F)].
  - exists []. split; [reflexivity | constructor].
  - destruct (make_request_outcome url endpoint x) as (d & Ex & Es & Ed).
    exists (d :: results). split.
    + cbn [map mapM]. rewrite Ex. cbn [bind]. rewrite E. reflexivity.
    + constructor; [split; assumption | exact F].
Qed.

(** The loop of [test_concurrent_async] over the gathered results. *)
Lemma async_loop (xs : list exchange) (results : list dict) :
  Forall2 (fun x d => getkey d "success" = Ok (VBool (succeeded x))
                      /\ getkey d "duration" = Ok (VFloat (elapsed x)))
          xs results ->
  forall (durations : list Qc) (errors : Z),
  foldM (fun '(durations, errors) result =>
           success <- getkey result "success" ;;
           if truthy success
           then duration <- getkey result "duration" ;;
                d <- as_number duration ;;
                Ok (durations ++ [d], errors)
           else Ok (durations, errors + 1))
        results (durations, errors)
  = Ok (durations ++ fst (collected xs), errors + snd (collected xs)).
Proof.
  induction 1 as [|x d xs results [Es Ed] F IH]; intros durations errors.
  - simpl. rewrite app_nil_r, Z.add_0_r. reflexivity.
  - cbn [foldM]. rewrite Es. cbn [bind truthy].
    rewrite collected_cons.
    destruct (succeeded x).
    + rewrite Ed. cbn [bind as_number].
      etransitivity; [apply IH|]. cbn [fst snd].
      rewrite <- app_assoc. reflexivity.
    + etransitivity; [apply IH|]. cbn [fst snd]. f_equal. f_equal. lia.
Qed.

(** ** Completion order *)

Lemma as_completed_map {A B : Type} (f : A -> B) (l : list A)
    (order : list nat) :
  as_completed (map f l) order = map f (as_completed l order).
Proof.
  unfold as_completed. induction order as [|k order IH]; simpl.
  - reflexivity.
  - rewrite map_app, IH. f_equal.
    rewrite nth_error_map. destruct (nth_error l k); reflexivity.
Qed.

Lemma as_completed_seq {A : Type} (l pre : list A) :
  as_completed (pre ++ l) (seq (List.length pre) (List.length l)) = l.
Proof.
  revert pre. induction l as [|x l IH]; intro pre.
  - reflexivity.
  - cbn [List.length seq]. unfold as_completed. cbn [flat_map].
    rewrite nth_error_app2 by lia. rewrite Nat.sub_diag. cbn [nth_error app].
    f_equal.
    specialize (IH (pre ++ [x])).
    rewrite <- app_assoc, length_app in IH. cbn [app List.length] in IH.
    rewrite Nat.add_1_r in IH. exact IH.
Qed.

Lemma as_completed_Permutation {A : Type} (l : list A) (order : list nat) :
  Permutation order (seq 0 (List.length l)) ->
  Permutation (as_completed l order) l.
Proof.
  intro HP.
  apply Permutation_trans with (as_completed l (seq 0 (List.length l))).
  - unfold as_completed. apply Permutation_flat_map. exact HP.
  - pose proof (as_completed_seq l []) as E. cbn [app List.length] in E.
    rewrite E. apply Permutation_refl.
Qed.

(** ** What the drivers collect *)

Lemma len_launched (w : world) (n : Z) : 0 <= n -> len (launched w n) = n.
Proof.
  intro H. unfold len, launched. rewrite length_map, length_seq. lia.
Qed.

Lemma sync_collect_collected (service_name url endpoint : string)
    (num_requests : Z) (w : world) :
  1 <= num_requests ->
  sync_collect service_name url endpoint num_requests w
  = Ok (collected (as_completed (launched w num_requests) (completion w))).
Proof.
  intro H. unfold sync_collect.
  destruct (num_requests <=? 0) eqn:E; [apply Z.leb_le in E; lia|].
  rewrite <- map_map, as_completed_map.
  etransitivity; [apply sync_loop|].
  cbn [app]. rewrite Z.add_0_l. unfold launched.
  destruct (collected _); reflexivity.
Qed.

Lemma async_collect_collected (url endpoint : string)
    (num_requests : Z) (w : world) :
  async_collect url endpoint num_requests w
  = Ok (collected (launched w num_requests)).
Proof.
  unfold async_collect. rewrite <- map_map.
  destruct (gather_tasks url endpoint (map (probe w) (seq 0 (Z.to_nat num_requests))))
    as (results & E & F).
  rewrite E. cbn [bind].
  etransitivity; [apply (async_loop _ _ F)|].
  cbn [app]. rewrite Z.add_0_l. unfold launched.
  destruct (collected _); reflexivity.
Qed.

Lemma collected_count (xs : list exchange) :
  snd (collected xs) + len (fst (collected xs)) = len xs.
Proof.
  induction xs as [|x xs IH].
  - reflexivity.
  - rewrite collected_cons. unfold len in *.
    destruct (succeeded x); cbn [fst snd List.length]; lia.
Qed.

Lemma collected_errors_nonneg (xs : list exchange) : 0 <= snd (collected xs).
Proof. unfold collected, len. cbn [snd]. lia. Qed.

Lemma collected_Permutation (xs ys : list exchange) :
  Permutation xs ys ->
  Permutation (fst (collected xs)) (fst (collected ys))
  /\ snd (collected xs) = snd (collected ys).
Proof.
  induction 1 as [|x xs ys HP [IH1 IH2]|x y xs|xs ys zs _ [IH1 IH2] _ [IH3 IH4]].
  - split; [apply Permutation_refl | reflexivity].
  - rewrite !collected_cons. destruct (succeeded x); cbn [fst snd]; split;
      try (apply perm_skip); try assumption; congruence.
  - rewrite !collected_cons.
    destruct (succeeded x), (succeeded y); cbn [fst snd]; split;
      try apply Permutation_refl; try apply perm_swap; lia.
  - split; [eapply Permutation_trans; eassumption | congruence].
Qed.

Lemma as_completed_launched (w : world) (n : Z) :
  Permutation (completion w) (seq 0 (Z.to_nat n)) ->
  Permutation (as_completed (launched w n) (completion w)) (launched w n).
Proof.
  intro HP. apply as_completed_Permutation.
  unfold launched. rewrite length_map, length_seq. exact HP.
Qed.

(** ** The statistics depend on the sample as a multiset *)

Lemma len_Permutation {A : Type} (l1 l2 : list A) :
  Permutation l1 l2 -> len l1 = len l2.
Proof. intro H. unfold len. f_equal. apply Permutation_length. exact H. Qed.

Lemma fold_plus_Permutation (l1 l2 : list Qc) :
  Permutation l1 l2 ->
  forall a, fold_left Qcplus l1 a = fold_left Qcplus l2 a.
Proof.
  induction 1 as [|x l1 l2 _ IH|x y l|l1 l2 l3 _ IH1 _ IH2]; intro a; simpl.
  - reflexivity.
  - apply IH.
  - f_equal. ring.
  - rewrite IH1. apply IH2.
Qed.

Lemma mean_Permutation (d1 d2 : list Qc) :
  Permutation d1 d2 -> statistics.mean d1 = statistics.mean d2.
Proof.
  intro HP. unfold statistics.mean, statistics.sum.
  rewrite (len_Permutation _ _ HP), (fold_plus_Permutation _ _ HP).
  reflexivity.
Qed.

Lemma median_Permutation (d1 d2 : list Qc) :
  Permutation d1 d2 -> statistics.median d1 = statistics.median d2.
Proof.
  intro HP. unfold statistics.median.
  rewrite (sorted_Permutation _ _ HP). reflexivity.
Qed.

Lemma quantiles_Permutation (d1 d2 : list Qc) (n : Z) :
  Permutation d1 d2 -> statistics.quantiles d1 n = statistics.quantiles d2 n.
Proof.
  intro HP. unfold statistics.quantiles.
  rewrite (sorted_Permutation _ _ HP). reflexivity.
Qed.

Lemma getitem_0_Permutation (d1 d2 : list Qc) :
  Permutation d1 d2 -> len d1 <= 1 -> getitem d1 0 = getitem d2 0.
Proof.
  intros HP Hlen. destruct d1 as [|x [|y d1]].
  - apply Permutation_nil in HP. subst d2. reflexivity.
  - apply Permutation_length_1_inv in HP. subst d2. reflexivity.
  - unfold len in Hlen. cbn [List.length] in Hlen. lia.
Qed.

Lemma p95_latency_Permutation (d1 d2 : list Qc) :
  Permutation d1 d2 -> p95_latency d1 = p95_latency d2.
Proof.
  intro HP. unfold p95_latency.
  rewrite <- (len_Permutation _ _ HP), <- (quantiles_Permutation _ _ 20 HP).
  destruct (len d1 >? 1) eqn:E; [reflexivity|].
  apply getitem_0_Permutation; [exact HP|].
  rewrite Z.gtb_ltb in E. apply Z.ltb_ge in E. exact E.
Qed.

Lemma p99_latency_Permutation (d1 d2 : list Qc) :
  Permutation d1 d2 -> p99_latency d1 = p99_latency d2.
Proof.
  intro HP. unfold p99_latency.
  rewrite <- (len_Permutation _ _ HP), <- (quantiles_Permutation _ _ 100 HP).
  destruct (len d1 >? 1) eqn:E; [reflexivity|].
  apply getitem_0_Permutation; [exact HP|].
  rewrite Z.gtb_ltb in E. apply Z.ltb_ge in E. exact E.
Qed.

Lemma sync_summary_Permutation (total_time : Qc) (errors : Z)
    (d1 d2 : list Qc) :
  Permutation d1 d2 ->
  sync_summary total_time d1 errors = sync_summary total_time d2 errors.
Proof.
  intro HP. destruct d1 as [|x1 l1].
  - apply Permutation_nil in HP. subst d2. reflexivity.
  - destruct d2 as [|x2 l2];
      [apply Permutation_sym, Permutation_nil in HP; discriminate HP|].
    unfold sync_summary.
    rewrite (len_Permutation _ _ HP), (mean_Permutation _ _ HP),
      (median_Permutation _ _ HP), (p95_latency_Permutation _ _ HP),
      (p99_latency_Permutation _ _ HP), (min_Permutation _ _ HP),
      (max_Permutation _ _ HP).
    reflexivity.
Qed.

(** The two drivers carry the same aggregation code. *)
Lemma sync_async_summary (total_time : Qc) (durations : list Qc) (errors : Z) :
  sync_summary total_time durations errors
  = async_summary total_time durations errors.
Proof. reflexivity. Qed.

Lemma async_summary_Permutation (total_time : Qc) (errors : Z)
    (d1 d2 : list Qc) :
  Permutation d1 d2 ->
  async_summary total_time d1 errors = async_summary total_time d2 errors.
Proof.
  intro HP. rewrite <- !sync_async_summary.
  apply sync_summary_Permutation. exact HP.
Qed.

(** ** When the aggregation returns, and what *)

Lemma truediv_Ok (a b : Qc) : b <> 0%Qc -> truediv a b = Ok (a / b)%Qc.
Proof. intro H. unfold truediv. rewrite Qc_eq_bool_false by exact H. reflexivity. Qed.

Lemma truediv_inv (a b q : Qc) : truediv a b = Ok q -> q = (a / b)%Qc.
Proof.
  unfold truediv. destruct (Qc_eq_bool b 0); [discriminate|].
  intro H. injection H as <-. reflexivity.
Qed.


Lemma median_returns (data : list Qc) :
  data <> [] -> exists m, statistics.median data = Ok m.
Proof.
  intro H. unfold statistics.median.
  assert (Hn : 1 <= len (sorted data)).
  { rewrite len_sorted. destruct data; [congruence|].
    unfold len. cbn [List.length]. lia. }
  set (s := sorted data) in *. set (n := len s) in *.
  destruct (n =? 0) eqn:E0; [apply Z.eqb_eq in E0; lia|].
  pose proof (div_bounds n 2 ltac:(lia)) as Hd.
  destruct (n mod 2 =? 1) eqn:E1.
  - rewrite (getitem_nth s (n / 2) 0%Qc) by (fold n; lia). eexists. reflexivity.
  - apply Z.eqb_neq in E1.
    pose proof (Z.div_mod n 2 ltac:(lia)).
    pose proof (Z.mod_pos_bound n 2 ltac:(lia)).
    rewrite (getitem_nth s (n / 2 - 1) 0%Qc) by (fold n; lia).
    rewrite (getitem_nth s (n / 2) 0%Qc) by (fold n; lia).
    eexists. reflexivity.
Qed.

Lemma p95_latency_returns (durations : list Qc) :
  durations <> [] -> exists p, p95_latency durations = Ok p.
Proof.
  intro H. destruct (Z_lt_le_dec (len durations) 2) as [L | L].
  - destruct durations as [|x [|y l]]; [congruence| |].
    + eexists. reflexivity.
    + unfold len in L. cbn [List.length] in L. lia.
  - eexists. apply p95_latency_cut. exact L.
Qed.

Lemma p99_latency_returns (durations : list Qc) :
  durations <> [] -> exists p, p99_latency durations = Ok p.
Proof.
  intro H. destruct (Z_lt_le_dec (len durations) 2) as [L | L].
  - destruct durations as [|x [|y l]]; [congruence| |].
    + eexists. reflexivity.
    + unfold len in L. cbn [List.length] in L. lia.
  - eexists. apply p99_latency_cut. exact L.
Qed.

Lemma sync_summary_returns (total_time : Qc) (durations : list Qc)
    (errors : Z) :
  0 <= errors -> durations = [] \/ total_time <> 0%Qc ->
  exists d, sync_summary total_time durations errors = Ok d.
Proof.
  intros He Ht. destruct durations as [|x l].
  - eexists. reflexivity.
  - destruct Ht as [Ht | Ht]; [discriminate Ht|].
    assert (Hne : x :: l <> []) by discriminate.
    assert (Hlen : 1 <= len (x :: l)) by (unfold len; cbn [List.length]; lia).
    unfold sync_summary.
    rewrite (truediv_Ok _ _ Ht). cbn [bind].
    unfold statistics.mean.
    destruct (len (x :: l) <? 1) eqn:E; [apply Z.ltb_lt in E; lia|].
    cbn [bind].
    destruct (median_returns _ Hne) as (m & ->).
    destruct (p95_latency_returns _ Hne) as (p95 & ->).
    destruct (p99_latency_returns _ Hne) as (p99 & ->).
    destruct (min_spec _ Hne) as (lo & -> & _).
    destruct (max_spec _ Hne) as (hi & -> & _).
    cbn [bind].
    rewrite truediv_Ok by (apply of_int_neq_0; lia).
    eexists. reflexivity.
Qed.

(** * The claims *)

(** ** Percentiles *)

Lemma lerp_towards (a b : Qc) (n delta : Z) :
  n <> 0 -> lerp a b n delta = (a + (b - a) * (of_int delta / of_int n))%Qc.
Proof.
  intro Hn. unfold lerp. rewrite of_int_minus. field.
  apply of_int_neq_0. exact Hn.
Qed.

Lemma rank_95 (ld : Z) :
  2 <= ld -> rank ld 20 19 = Z.min (ld - 1) (19 * (ld + 1) / 20).
Proof.
  intro H. unfold rank.
  pose proof (div_bounds (19 * (ld + 1)) 20 ltac:(lia)). lia.
Qed.

Lemma rank_99 (ld : Z) :
  2 <= ld -> rank ld 100 99 = Z.min (ld - 1) (99 * (ld + 1) / 100).
Proof.
  intro H. unfold rank.
  pose proof (div_bounds (99 * (ld + 1)) 100 ltac:(lia)). lia.
Qed.

Lemma two_durations : 2 <= len [frac 1 4; frac 1 2].
Proof. apply Z.leb_le. reflexivity. Defined.

Lemma p95_of_two : p95_latency [frac 1 4; frac 1 2] = Ok (frac 57 80).
Proof.
  rewrite p95_latency_cut by exact two_durations.
  apply f_equal. apply Qc_is_canon. vm_compute. reflexivity.
Qed.

Lemma p99_of_two : p99_latency [frac 1 4; frac 1 2] = Ok (frac 297 400).
Proof.
  rewrite p99_latency_cut by exact two_durations.
  apply f_equal. apply Qc_is_canon. vm_compute. reflexivity.
Qed.

Lemma frac_neq (a c : Z) (b d : positive) :
  Qred (a # b) <> Qred (c # d) -> frac a b <> frac c d.
Proof. intros H E. apply H. exact (f_equal this E). Qed.

(** C1, as stated, fails: on the sample 0.25, 0.5 the 95th percentile is
    57/80 = 0.7125 and the 99th is 297/400 = 0.7425; neither is a value of
    the sample, so the scheme is not a rank-based one without
    interpolation. *)
Lemma C1_counterexample :
  p95_latency [frac 1 4; frac 1 2] = Ok (frac 57 80)
  /\ p99_latency [frac 1 4; frac 1 2] = Ok (frac 297 400)
  /\ ~ rank_based p95_latency [frac 1 4; frac 1 2]
  /\ ~ rank_based p99_latency [frac 1 4; frac 1 2].
Proof.
  split; [exact p95_of_two|]. split; [exact p99_of_two|].
  split; intros (x & E & Hin).
  - rewrite p95_of_two in E. injection E as <-.
    destruct Hin as [H | [H | []]]; revert H; apply frac_neq;
      vm_compute; discriminate.
  - rewrite p99_of_two in E. injection E as <-.
    destruct Hin as [H | [H | []]]; revert H; apply frac_neq;
      vm_compute; discriminate.
Qed.

(** C1, amended: for every list of at least two durations, p95_latency is
    cut point 18 (counted from 0) of the 19 cut points of
    [quantiles(durations, n=20)] and p99_latency is cut point 98 of the 99
    of [quantiles(durations, n=100)]; each is the linear interpolation
    [lerp] (an extrapolation when the rank is clamped) between the two
    neighbouring order statistics of rank [j-1] and [j] of the sorted
    sample, with [j = min (ld-1) (i*(ld+1) div n)] and weight
    [i*(ld+1) - j*n] over [n]. *)
Theorem C1_percentiles_interpolate (durations : list Qc) :
  2 <= len durations ->
  (exists qs, statistics.quantiles durations 20 = Ok qs /\ len qs = 19
              /\ p95_latency durations = getitem qs 18)
  /\ (exists qs, statistics.quantiles durations 100 = Ok qs /\ len qs = 99
                 /\ p99_latency durations = getitem qs 98)
  /\ (exists j, j = Z.min (len durations - 1) (19 * (len durations + 1) / 20)
        /\ 1 <= j <= len durations - 1
        /\ p95_latency durations
           = Ok (lerp (item (sorted durations) (j - 1))
                      (item (sorted durations) j)
                      20 (19 * (len durations + 1) - j * 20)))
  /\ (exists j, j = Z.min (len durations - 1) (99 * (len durations + 1) / 100)
        /\ 1 <= j <= len durations - 1
        /\ p99_latency durations
           = Ok (lerp (item (sorted durations) (j - 1))
                      (item (sorted durations) j)
                      100 (99 * (len durations + 1) - j * 100))).
Proof.
  intro H.
  assert (Hgt : (len durations >? 1) = true) by (apply Z.gtb_lt; lia).
  split; [|split; [|split]].
  - eexists. split; [apply quantiles_cuts; lia|]. split.
    + unfold len. rewrite length_map. fold (len (range 1 20)).
      apply len_range. lia.
    + unfold p95_latency. rewrite Hgt, quantiles_cuts by lia. reflexivity.
  - eexists. split; [apply quantiles_cuts; lia|]. split.
    + unfold len. rewrite length_map. fold (len (range 1 100)).
      apply len_range. lia.
    + unfold p99_latency. rewrite Hgt, quantiles_cuts by lia. reflexivity.
  - eexists. split; [reflexivity|].
    rewrite <- rank_95 by exact H.
    split; [apply rank_bounds; exact H|].
    rewrite p95_latency_cut by exact H. unfold cut. rewrite len_sorted.
    reflexivity.
  - eexists. split; [reflexivity|].
    rewrite <- rank_99 by exact H.
    split; [apply rank_bounds; exact H|].
    rewrite p99_latency_cut by exact H. unfold cut. rewrite len_sorted.
    reflexivity.
Qed.

Lemma C1_witness :
  2 <= len [frac 1 4; frac 1 2]
  /\ exists j, j = Z.min (len [frac 1 4; frac 1 2] - 1)
                         (19 * (len [frac 1 4; frac 1 2] + 1) / 20)
        /\ 1 <= j <= len [frac 1 4; frac 1 2] - 1
        /\ p95_latency [frac 1 4; frac 1 2]
           = Ok (lerp (item (sorted [frac 1 4; frac 1 2]) (j - 1))
                      (item (sorted [frac 1 4; frac 1 2]) j)
                      20 (19 * (len [frac 1 4; frac 1 2] + 1) - j * 20)).
Proof.
  split; [exact two_durations|].
  exact (proj1 (proj2 (proj2
    (C1_percentiles_interpolate [frac 1 4; frac 1 2] two_durations)))).
Defined.

Lemma max_of_two : max_ [frac 1 4; frac 1 2] = Ok (frac 1 2).
Proof.
  unfold max_. apply f_equal. apply Qc_is_canon. vm_compute. reflexivity.
Qed.

(** In exact arithmetic the two cut points are not below the minimum of
    the sample; the 95th is not above the maximum when the sample has at
    least 19 values, the 99th when it has at least 99; on a sample of at
    most 19 (99) values the cut point is at or above the maximum. *)
Lemma cut_bounds (durations : list Qc) :
  2 <= len durations ->
  exists lo hi,
    min_ durations = Ok lo /\ max_ durations = Ok hi
    /\ In lo durations /\ In hi durations
    /\ (lo <= cut (sorted durations) 20 19)%Qc
    /\ (lo <= cut (sorted durations) 100 99)%Qc
    /\ (19 <= len durations -> (cut (sorted durations) 20 19 <= hi)%Qc)
    /\ (99 <= len durations -> (cut (sorted durations) 100 99 <= hi)%Qc)
    /\ (len durations <= 19 -> (hi <= cut (sorted durations) 20 19)%Qc)
    /\ (len durations <= 99 -> (hi <= cut (sorted durations) 100 99)%Qc).
Proof.
  intro H.
  assert (Hne : durations <> []).
  { intros ->. unfold len in H. cbn [List.length] in H. lia. }
  destruct (min_spec _ Hne) as (lo & Elo & Ilo & Hlo).
  destruct (max_spec _ Hne) as (hi & Ehi & Ihi & Hhi).
  exists lo, hi.
  pose proof (sorted_StronglySorted durations) as Hs.
  pose proof (sorted_perm durations) as HP.
  assert (Hld : 2 <= len (sorted durations)) by (rewrite len_sorted; exact H).
  assert (Hin : forall j, 0 <= j < len (sorted durations) ->
                          In (item (sorted durations) j) durations).
  { intros j Hj. apply (Permutation_in _ HP). apply item_In. exact Hj. }
  assert (Hlast : (hi <= item (sorted durations) (len (sorted durations) - 1))%Qc).
  { pose proof Ihi as Ihi'.
    apply (Permutation_in _ (Permutation_sym HP)) in Ihi'.
    destruct (In_nth _ _ 0%Qc Ihi') as (k & Hk & <-).
    apply StronglySorted_nth; [exact Hs | unfold len; lia | unfold len; lia]. }
  pose proof (rank_bounds (len (sorted durations)) 20 19 Hld) as B95.
  pose proof (rank_bounds (len (sorted durations)) 100 99 Hld) as B99.
  split; [exact Elo|]. split; [exact Ehi|].
  split; [exact Ilo|]. split; [exact Ihi|].
  rewrite <- (len_sorted durations).
  split; [|split; [|split; [|split; [|split]]]].
  - eapply Qcle_trans; [|apply cut_lower; [exact Hs | exact Hld | lia | lia]].
    apply Hlo, Hin. lia.
  - eapply Qcle_trans; [|apply cut_lower; [exact Hs | exact Hld | lia | lia]].
    apply Hlo, Hin. lia.
  - intro H19.
    eapply Qcle_trans; [apply cut_upper; [exact Hs | exact Hld | lia | lia]|].
    apply Hhi, Hin. lia.
  - intro H99.
    eapply Qcle_trans; [apply cut_upper; [exact Hs | exact Hld | lia | lia]|].
    apply Hhi, Hin. lia.
  - intro H19.
    eapply Qcle_trans; [exact Hlast|]. apply cut_beyond; [exact Hs | exact Hld | lia | lia].
  - intro H99.
    eapply Qcle_trans; [exact Hlast|]. apply cut_beyond; [exact Hs | exact Hld | lia | lia].
Qed.

(** ** The probe *)

(** C3: the probe never raises and always reports a duration.  A response
    yields the keys success, duration, status_code, with success true
    exactly for status 200; a transport failure yields the keys success,
    duration, error, with success false and the message of the failure. *)
Theorem C3_probe_outcomes (service_name url endpoint : string) (x : exchange) :
  exists d,
    test_single_request service_name url endpoint x = Ok d
    /\ lookup "duration" d = Some (VFloat (seen_at x - sent_at x)%Qc)
    /\ match http x with
       | Response status_code =>
           d = [("success", VBool (status_code =? 200));
                ("duration", VFloat (seen_at x - sent_at x)%Qc);
                ("status_code", VInt status_code)]
           /\ (lookup "success" d = Some (VBool true) <-> status_code = 200)
           /\ lookup "error" d = None
       | Failure msg =>
           d = [("success", VBool false);
                ("duration", VFloat (seen_at x - sent_at x)%Qc);
                ("error", VStr msg)]
           /\ lookup "status_code" d = None
       end.
Proof.
  unfold test_single_request, client_get.
  destruct (http x) as [c | msg]; cbn [bind try_except str_of_exn];
    eexists; (split; [reflexivity|]); (split; [reflexivity|]).
  - split; [reflexivity|]. split; [|reflexivity].
    cbn. split; intro H.
    + injection H as H. apply Z.eqb_eq. exact H.
    + subst c. reflexivity.
  - split; reflexivity.
Qed.

(** ** The drivers *)

Lemma mixed_completion :
  Permutation (completion mixed_run) (seq 0 (Z.to_nat 3)).
Proof.
  apply perm_trans with [0; 2; 1]%nat.
  - apply perm_swap.
  - apply perm_skip. apply perm_swap.
Defined.

Lemma refused_completion :
  Permutation (completion refused_run) (seq 0 (Z.to_nat 2)).
Proof. apply perm_swap. Defined.

Lemma one_le_three : 1 <= 3.
Proof. apply Z.leb_le. reflexivity. Defined.

Lemma len_as_completed_launched (w : world) (n : Z) :
  0 <= n -> Permutation (completion w) (seq 0 (Z.to_nat n)) ->
  len (as_completed (launched w n) (completion w)) = n.
Proof.
  intros Hn HP.
  rewrite (len_Permutation _ _ (as_completed_launched w n HP)).
  apply len_launched. exact Hn.
Qed.

(** Both loops end with as many outcomes counted as probes were issued. *)
Lemma loops_count_all (service_name url endpoint : string)
    (num_requests : Z) (w : world) :
  1 <= num_requests ->
  Permutation (completion w) (seq 0 (Z.to_nat num_requests)) ->
  (exists durations errors,
     sync_collect service_name url endpoint num_requests w
     = Ok (durations, errors)
     /\ errors + len durations = num_requests /\ 0 <= errors)
  /\ (exists durations errors,
        async_collect url endpoint num_requests w = Ok (durations, errors)
        /\ errors + len durations = num_requests /\ 0 <= errors).
Proof.
  intros HN HP. split.
  - rewrite sync_collect_collected by exact HN.
    pose proof (collected_count
                  (as_completed (launched w num_requests) (completion w))) as Hc.
    pose proof (collected_errors_nonneg
                  (as_completed (launched w num_requests) (completion w))) as Hp.
    rewrite len_as_completed_launched in Hc by (lia || exact HP).
    destruct (collected _) as [durations errors].
    exists durations, errors. split; [reflexivity | split; [exact Hc | exact Hp]].
  - rewrite async_collect_collected.
    pose proof (collected_count (launched w num_requests)) as Hc.
    pose proof (collected_errors_nonneg (launched w num_requests)) as Hp.
    rewrite len_launched in Hc by lia.
    destruct (collected _) as [durations errors].
    exists durations, errors. split; [reflexivity | split; [exact Hc | exact Hp]].
Qed.

(** C2: for every N >= 1, whatever the probes meet and in whatever order
    the pool completes them, both drivers reach the aggregation with
    errors + len(durations) = N. *)
Theorem C2_count_invariant (service_name url endpoint : string)
    (num_requests : Z) (w : world) :
  1 <= num_requests ->
  Permutation (completion w) (seq 0 (Z.to_nat num_requests)) ->
  (exists durations errors,
     sync_collect service_name url endpoint num_requests w
     = Ok (durations, errors)
     /\ errors + len durations = num_requests)
  /\ (exists durations errors,
        async_collect url endpoint num_requests w = Ok (durations, errors)
        /\ errors + len durations = num_requests).
Proof.
  intros HN HP.
  destruct (loops_count_all service_name url endpoint num_requests w HN HP)
    as [(ds & es & Es & Hs & _) (da & ea & Ea & Ha & _)].
  split; [exists ds, es | exists da, ea]; split; assumption.
Qed.

Lemma C2_witness :
  1 <= 3 /\ Permutation (completion mixed_run) (seq 0 (Z.to_nat 3))
  /\ exists durations errors,
       sync_collect "quart-native" "http://localhost:5004" "/parallel" 3 mixed_run
       = Ok (durations, errors)
       /\ errors + len durations = 3.
Proof.
  split; [exact one_le_three|]. split; [exact mixed_completion|].
  exact (proj1 (C2_count_invariant "quart-native" "http://localhost:5004"
                  "/parallel" 3 mixed_run one_le_three mixed_completion)).
Defined.

Lemma lookup_latency_fields_empty_summary (total_time : Qc) (errors : Z) :
  Forall (fun key => lookup key [("total_time", VFloat total_time);
                                 ("errors", VInt errors);
                                 ("success_rate", VInt 0)] = None)
         latency_fields.
Proof. unfold latency_fields. repeat constructor. Qed.

(** C4: a run of either driver that collected no successful duration
    returns the summary with exactly the entries total_time, errors and
    success_rate = 0; none of the throughput and latency entries is
    present. *)
Theorem C4_empty_sample_summary (service_name url endpoint : string)
    (ns na : Z) (ws wa : world) (es ea : Z) :
  sync_collect service_name url endpoint ns ws = Ok ([], es) ->
  async_collect url endpoint na wa = Ok ([], ea) ->
  (exists d,
     test_concurrent_sync service_name url endpoint ns ws = Ok d
     /\ d = [("total_time", VFloat (run_end ws - run_start ws)%Qc);
             ("errors", VInt es);
             ("success_rate", VInt 0)]
     /\ Forall (fun key => lookup key d = None) latency_fields)
  /\ (exists d,
        test_concurrent_async service_name url endpoint na wa = Ok d
        /\ d = [("total_time", VFloat (run_end wa - run_start wa)%Qc);
                ("errors", VInt ea);
                ("success_rate", VInt 0)]
        /\ Forall (fun key => lookup key d = None) latency_fields).
Proof.
  intros Hs Ha. split.
  - unfold test_concurrent_sync. rewrite Hs. cbn [bind sync_summary].
    eexists. split; [reflexivity|]. split; [reflexivity|].
    apply lookup_latency_fields_empty_summary.
  - unfold test_concurrent_async. rewrite Ha. cbn [bind async_summary].
    eexists. split; [reflexivity|]. split; [reflexivity|].
    apply lookup_latency_fields_empty_summary.
Qed.

Lemma refused_sync_collect :
  sync_collect "flask-wsgi" "http://localhost:5001" "/slow" 2 refused_run
  = Ok ([], 2).
Proof. reflexivity. Defined.

Lemma refused_async_collect :
  async_collect "http://localhost:5001" "/slow" 2 refused_run = Ok ([], 2).
Proof. reflexivity. Defined.

Lemma C4_witness :
  sync_collect "flask-wsgi" "http://localhost:5001" "/slow" 2 refused_run
  = Ok ([], 2)
  /\ async_collect "http://localhost:5001" "/slow" 2 refused_run = Ok ([], 2)
  /\ exists d,
       test_concurrent_sync "flask-wsgi" "http://localhost:5001" "/slow" 2
         refused_run = Ok d
       /\ d = [("total_time", VFloat (run_end refused_run - run_start refused_run)%Qc);
               ("errors", VInt 2);
               ("success_rate", VInt 0)]
       /\ Forall (fun key => lookup key d = None) latency_fields.
Proof.
  split; [exact refused_sync_collect|]. split; [exact refused_async_collect|].
  exact (proj1 (C4_empty_sample_summary "flask-wsgi" "http://localhost:5001"
                  "/slow" 2 2 refused_run refused_run 2 2
                  refused_sync_collect refused_async_collect)).
Defined.

Lemma Qcminus_neq_0 (x y : Qc) : x <> y -> (x - y)%Qc <> 0%Qc.
Proof.
  intros H E. apply H.
  replace x with ((x - y) + y)%Qc by ring. rewrite E. ring.
Qed.

Lemma test_concurrent_sync_summary (service_name url endpoint : string)
    (num_requests : Z) (w : world) (durations : list Qc) (errors : Z) :
  sync_collect service_name url endpoint num_requests w = Ok (durations, errors) ->
  test_concurrent_sync service_name url endpoint num_requests w
  = sync_summary (run_end w - run_start w)%Qc durations errors.
Proof. intro H. unfold test_concurrent_sync. rewrite H. reflexivity. Qed.

Lemma test_concurrent_async_summary (service_name url endpoint : string)
    (num_requests : Z) (w : world) (durations : list Qc) (errors : Z) :
  async_collect url endpoint num_requests w = Ok (durations, errors) ->
  test_concurrent_async service_name url endpoint num_requests w
  = async_summary (run_end w - run_start w)%Qc durations errors.
Proof. intro H. unfold test_concurrent_async. rewrite H. reflexivity. Qed.




(** ** Aggregation and the order of the sample *)

(** C7: the aggregation depends on the durations as a multiset only: for
    two lists that are permutations of each other, with the same error
    count and total time, every statistic and the whole summary (or the
    exception raised instead) are the same. *)
Theorem C7_summary_of_multiset (total_time : Qc) (errors : Z)
    (d1 d2 : list Qc) :
  Permutation d1 d2 ->
  sync_summary total_time d1 errors = sync_summary total_time d2 errors
  /\ async_summary total_time d1 errors = async_summary total_time d2 errors
  /\ truediv (of_int (len d1)) total_time = truediv (of_int (len d2)) total_time
  /\ statistics.mean d1 = statistics.mean d2
  /\ statistics.median d1 = statistics.median d2
  /\ p95_latency d1 = p95_latency d2
  /\ p99_latency d1 = p99_latency d2
  /\ min_ d1 = min_ d2
  /\ max_ d1 = max_ d2
  /\ truediv (of_int (len d1)) (of_int (len d1 + errors))
     = truediv (of_int (len d2)) (of_int (len d2 + errors)).
Proof.
  intro HP.
  split; [apply sync_summary_Permutation; exact HP|].
  split; [apply async_summary_Permutation; exact HP|].
  split; [rewrite (len_Permutation _ _ HP); reflexivity|].
  split; [apply mean_Permutation; exact HP|].
  split; [apply median_Permutation; exact HP|].
  split; [apply p95_latency_Permutation; exact HP|].
  split; [apply p99_latency_Permutation; exact HP|].
  split; [apply min_Permutation; exact HP|].
  split; [apply max_Permutation; exact HP|].
  rewrite (len_Permutation _ _ HP). reflexivity.
Qed.

Lemma three_durations_swapped :
  Permutation [frac 3 4; frac 1 4; frac 1 2] [frac 1 4; frac 3 4; frac 1 2].
Proof. apply perm_swap. Defined.

Lemma C7_witness :
  Permutation [frac 3 4; frac 1 4; frac 1 2] [frac 1 4; frac 3 4; frac 1 2]
  /\ sync_summary (frac 1 1) [frac 3 4; frac 1 4; frac 1 2] 1
     = sync_summary (frac 1 1) [frac 1 4; frac 3 4; frac 1 2] 1.
Proof.
  split; [exact three_durations_swapped|].
  exact (proj1 (C7_summary_of_multiset (frac 1 1) 1 _ _ three_durations_swapped)).
Defined.

(** C9: a thread-pool run and a cooperative run that collected the same
    multiset of successful durations and the same number of failures, and
    measured the same total time, return the same summary, field by field
    (or raise the same exception). *)
Theorem C9_strategies_agree (service_name url endpoint : string)
    (ns na : Z) (ws wa : world) (ds da : list Qc) (es ea : Z) :
  sync_collect service_name url endpoint ns ws = Ok (ds, es) ->
  async_collect url endpoint na wa = Ok (da, ea) ->
  Permutation ds da ->
  es = ea ->
  (run_end ws - run_start ws)%Qc = (run_end wa - run_start wa)%Qc ->
  test_concurrent_sync service_name url endpoint ns ws
  = test_concurrent_async service_name url endpoint na wa.
Proof.
  intros Hs Ha HP He Ht.
  rewrite (test_concurrent_sync_summary _ _ _ _ _ _ _ Hs).
  rewrite (test_concurrent_async_summary _ _ _ _ _ _ _ Ha).
  subst ea. rewrite Ht.
  etransitivity; [apply sync_summary_Permutation; exact HP|].
  apply sync_async_summary.
Qed.

(** On one and the same environment the two drivers agree, whatever the
    order in which the pool completes the probes. *)
Lemma drivers_agree_on_a_world (service_name url endpoint : string)
    (num_requests : Z) (w : world) :
  1 <= num_requests ->
  Permutation (completion w) (seq 0 (Z.to_nat num_requests)) ->
  test_concurrent_sync service_name url endpoint num_requests w
  = test_concurrent_async service_name url endpoint num_requests w.
Proof.
  intros HN HP.
  pose proof (sync_collect_collected service_name url endpoint num_requests w HN) as Es.
  pose proof (async_collect_collected url endpoint num_requests w) as Ea.
  destruct (collected_Permutation _ _ (as_completed_launched w num_requests HP))
    as [Hd He].
  destruct (collected (as_completed _ _)) as [ds es].
  destruct (collected (launched _ _)) as [da ea].
  cbn [fst snd] in Hd, He.
  rewrite (test_concurrent_sync_summary _ _ _ _ _ _ _ Es).
  rewrite (test_concurrent_async_summary _ _ _ _ _ _ _ Ea).
  subst ea.
  etransitivity; [apply sync_summary_Permutation; exact Hd|].
  apply sync_async_summary.
Qed.

Lemma mixed_sync_collect :
  sync_collect "quart-native" "http://localhost:5004" "/parallel" 3 mixed_run
  = Ok ([elapsed (probe mixed_run 2); elapsed (probe mixed_run 0)], 1).
Proof. reflexivity. Defined.

Lemma mixed_async_collect :
  async_collect "http://localhost:5004" "/parallel" 3 mixed_run
  = Ok ([elapsed (probe mixed_run 0); elapsed (probe mixed_run 2)], 1).
Proof. reflexivity. Defined.

Lemma mixed_durations_swapped :
  Permutation [elapsed (probe mixed_run 2); elapsed (probe mixed_run 0)]
              [elapsed (probe mixed_run 0); elapsed (probe mixed_run 2)].
Proof. apply perm_swap. Defined.

Lemma C9_witness :
  sync_collect "quart-native" "http://localhost:5004" "/parallel" 3 mixed_run
  = Ok ([elapsed (probe mixed_run 2); elapsed (probe mixed_run 0)], 1)
  /\ async_collect "http://localhost:5004" "/parallel" 3 mixed_run
     = Ok ([elapsed (probe mixed_run 0); elapsed (probe mixed_run 2)], 1)
  /\ Permutation [elapsed (probe mixed_run 2); elapsed (probe mixed_run 0)]
                 [elapsed (probe mixed_run 0); elapsed (probe mixed_run 2)]
  /\ test_concurrent_sync "quart-native" "http://localhost:5004" "/parallel" 3
       mixed_run
     = test_concurrent_async "quart-native" "http://localhost:5004" "/parallel" 3
         mixed_run.
Proof.
  split; [exact mixed_sync_collect|]. split; [exact mixed_async_collect|].
  split; [exact mixed_durations_swapped|].
  exact (C9_strategies_agree "quart-native" "http://localhost:5004" "/parallel"
           3 3 mixed_run mixed_run _ _ 1 1
           mixed_sync_collect mixed_async_collect mixed_durations_swapped
           eq_refl eq_refl).
Defined.

(** ** The readiness gate *)

Lemma fixed_interval_emit_Get (p : list event) :
  fixed_interval (Get :: Sleep 1 :: p) = fixed_interval p.
Proof. reflexivity. Qed.

(** After a GET that raised the loop sleeps one second before the next
    attempt: on a script without a non-200 response the events are paced. *)
Lemma poll_loop_paced (timeout : Z) (start : Qc) (script : list attempt) :
  forallb (fun a => negb (busy a)) script = true ->
  forall now, fixed_interval (events (poll_loop timeout start now script)) = true.
Proof.
  induction script as [|a script IH]; intros Hb now.
  - simpl. destruct (Qcltb _ _); reflexivity.
  - cbn [forallb] in Hb. apply andb_true_iff in Hb. destruct Hb as [Ha Hb].
    cbn [poll_loop].
    destruct (Qcltb (now - start) (of_int timeout)); [|reflexivity].
    unfold busy in Ha. destruct (health a) as [c | msg].
    + destruct (c =? 200); [reflexivity | discriminate Ha].
    + cbn [emit events]. rewrite fixed_interval_emit_Get. apply IH. exact Hb.
Qed.

(** The gate answers true only when a GET returned 200. *)
Lemma poll_loop_true (timeout : Z) (start : Qc) (script : list attempt) :
  forall now,
  returned (poll_loop timeout start now script) = Some true ->
  exists a, In a script /\ health a = Response 200.
Proof.
  induction script as [|a script IH]; intros now H.
  - simpl in H. destruct (Qcltb _ _); discriminate H.
  - cbn [poll_loop] in H.
    destruct (Qcltb (now - start) (of_int timeout)); [|discriminate H].
    destruct (health a) as [c | msg] eqn:E.
    + destruct (c =? 200) eqn:Ec.
      * apply Z.eqb_eq in Ec. subst c. exists a. split; [left; reflexivity | exact E].
      * cbn [emit returned] in H. destruct (IH _ H) as (b & Hb & Eb).
        exists b. split; [right; exact Hb | exact Eb].
    + cbn [emit returned] in H. destruct (IH _ H) as (b & Hb & Eb).
      exists b. split; [right; exact Hb | exact Eb].
Qed.

(** C8 fails on the code: with a health endpoint that answers 503 and then
    200 the gate returns true after two GETs with no pause between them,
    where the claim has a pause of one second between the attempts of every
    iteration.  The sleep is in the [except] branch only. *)
Theorem C8_no_pause_after_non_200 :
  wait_for_service "http://localhost:5001" default_timeout (frac 0 1) warming_up
  = {| events := [Get; Get]; returned := Some true |}
  /\ fixed_interval [Get; Get] = false.
Proof. split; reflexivity. Qed.

(** * The rest of the harness *)

(** ** Dicts *)

Lemma dget_dset_same {V : Type} (d : pydict V) (k : string) (v : V) :
  dget (dset d k v) k = Some v.
Proof.
  induction d as [|[k' v'] d IH]; simpl.
  - rewrite String.eqb_refl. reflexivity.
  - destruct (String.eqb k' k) eqn:E; simpl; rewrite E; [reflexivity | exact IH].
Qed.

Lemma dget_dset_other {V : Type} (d : pydict V) (k k' : string) (v : V) :
  k <> k' -> dget (dset d k v) k' = dget d k'.
Proof.
  intro H. induction d as [|[k0 v0] d IH]; simpl.
  - destruct (String.eqb k k') eqn:E; [apply String.eqb_eq in E; contradiction|].
    reflexivity.
  - destruct (String.eqb k0 k) eqn:E; simpl.
    + apply String.eqb_eq in E. subst k0.
      destruct (String.eqb k k') eqn:E'; [apply String.eqb_eq in E'; contradiction|].
      reflexivity.
    + destruct (String.eqb k0 k'); [reflexivity | exact IH].
Qed.

Lemma dget_dupdate_same {V : Type} (d : pydict V) (k : string) (f : V -> V) :
  dget (dupdate d k f) k = option_map f (dget d k).
Proof.
  induction d as [|[k' v'] d IH]; simpl.
  - reflexivity.
  - destruct (String.eqb k' k) eqn:E; simpl; rewrite E; [reflexivity | exact IH].
Qed.

Lemma dget_dupdate_other {V : Type} (d : pydict V) (k k' : string) (f : V -> V) :
  k <> k' -> dget (dupdate d k f) k' = dget d k'.
Proof.
  intro H. induction d as [|[k0 v0] d IH]; simpl.
  - reflexivity.
  - destruct (String.eqb k0 k) eqn:E; simpl.
    + apply String.eqb_eq in E. subst k0.
      destruct (String.eqb k k') eqn:E'; [apply String.eqb_eq in E'; contradiction|].
      reflexivity.
    + destruct (String.eqb k0 k'); [reflexivity | exact IH].
Qed.

Lemma keys_dupdate {V : Type} (d : pydict V) (k : string) (f : V -> V) :
  map fst (dupdate d k f) = map fst d.
Proof.
  induction d as [|[k' v'] d IH]; simpl.
  - reflexivity.
  - destruct (String.eqb k' k); simpl; [reflexivity | f_equal; exact IH].
Qed.

Lemma dget_In {V : Type} (d : pydict V) (k : string) :
  dget d k = None <-> ~ In k (map fst d).
Proof.
  induction d as [|[k' v'] d IH]; simpl.
  - split; [intros _ [] | reflexivity].
  - destruct (String.eqb k' k) eqn:E.
    + apply String.eqb_eq in E. split; [discriminate | intro H; exfalso; apply H; left; exact E].
    + apply String.eqb_neq in E. rewrite IH. split.
      * intros H [H' | H']; [contradiction | apply H; exact H'].
      * intros H H'. apply H. right. exact H'.
Qed.

Lemma keys_dset {V : Type} (d : pydict V) (k : string) (v : V) :
  map fst (dset d k v)
  = if contains d k then map fst d else map fst d ++ [k].
Proof.
  unfold contains. induction d as [|[k' v'] d IH]; simpl.
  - reflexivity.
  - destruct (String.eqb k' k) eqn:E; simpl.
    + apply String.eqb_eq in E. subst k'. reflexivity.
    + rewrite IH. destruct (dget d k); reflexivity.
Qed.

Lemma unique_keys_dset {V : Type} (d : pydict V) (k : string) (v : V) :
  unique_keys d -> unique_keys (dset d k v).
Proof.
  unfold unique_keys. intro H. rewrite keys_dset. unfold contains.
  destruct (dget d k) eqn:E; [exact H|].
  apply dget_In in E.
  apply NoDup_rev in H. rewrite <- (rev_involutive (map fst d ++ [k])).
  apply NoDup_rev. rewrite rev_app_distr. simpl. constructor.
  - rewrite <- in_rev. exact E.
  - exact H.
Qed.

Lemma dupdate_dupdate {V : Type} (d : pydict V) (k : string) (f g : V -> V) :
  dupdate (dupdate d k f) k g = dupdate d k (fun v => g (f v)).
Proof.
  induction d as [|[k' v'] d IH]; simpl.
  - reflexivity.
  - destruct (String.eqb k' k) eqn:E; simpl; rewrite E; [reflexivity|].
    f_equal. exact IH.
Qed.

Lemma dupdate_ext {V : Type} (d : pydict V) (k : string) (f g : V -> V) :
  (forall v, f v = g v) -> dupdate d k f = dupdate d k g.
Proof.
  intro H. induction d as [|[k' v'] d IH]; simpl.
  - reflexivity.
  - destruct (String.eqb k' k); [rewrite H; reflexivity | f_equal; exact IH].
Qed.

Lemma dset_dset {V : Type} (d : pydict V) (k : string) (v v' : V) :
  dset (dset d k v) k v' = dset d k v'.
Proof.
  induction d as [|[k0 v0] d IH]; simpl.
  - rewrite String.eqb_refl. reflexivity.
  - destruct (String.eqb k0 k) eqn:E; simpl; rewrite E; [reflexivity|].
    f_equal. exact IH.
Qed.

Lemma contains_dset {V : Type} (d : pydict V) (k : string) (v : V) :
  contains (dset d k v) k = true.
Proof. unfold contains. rewrite dget_dset_same. reflexivity. Qed.

Lemma contains_dupdate {V : Type} (d : pydict V) (k k' : string) (f : V -> V) :
  contains (dupdate d k f) k' = contains d k'.
Proof.
  unfold contains. destruct (string_dec k k') as [<- | N].
  - rewrite dget_dupdate_same. destruct (dget d k); reflexivity.
  - rewrite dget_dupdate_other by exact N. reflexivity.
Qed.

Lemma contains_at_key {V : Type} (d : pydict V) (k : string) (a : V)
    (f : V -> V) :
  contains (at_key d k a f) k = true.
Proof.
  unfold at_key. rewrite contains_dupdate.
  destruct (contains d k) eqn:E; simpl; [exact E | apply contains_dset].
Qed.

Lemma at_key_at_key {V : Type} (d : pydict V) (k : string) (a : V)
    (f g : V -> V) :
  at_key (at_key d k a f) k a g = at_key d k a (fun v => g (f v)).
Proof.
  unfold at_key at 1. rewrite contains_at_key. simpl.
  unfold at_key. apply dupdate_dupdate.
Qed.

Lemma at_key_ext {V : Type} (d : pydict V) (k : string) (a : V)
    (f g : V -> V) :
  (forall v, f v = g v) -> at_key d k a f = at_key d k a g.
Proof. intro H. unfold at_key. apply dupdate_ext. exact H. Qed.

Lemma dget_at_key_same {V : Type} (d : pydict V) (k : string) (a : V)
    (f : V -> V) :
  dget (at_key d k a f) k
  = Some (f (match dget d k with Some v => v | None => a end)).
Proof.
  unfold at_key, contains. rewrite dget_dupdate_same.
  destruct (dget d k) eqn:E; simpl.
  - rewrite E. reflexivity.
  - rewrite dget_dset_same. reflexivity.
Qed.

Lemma dget_at_key_other {V : Type} (d : pydict V) (k k' : string) (a : V)
    (f : V -> V) :
  k <> k' -> dget (at_key d k a f) k' = dget d k'.
Proof.
  intro N. unfold at_key. rewrite dget_dupdate_other by exact N.
  destruct (contains d k); simpl; [reflexivity|].
  apply dget_dset_other. exact N.
Qed.

Lemma keys_at_key {V : Type} (d : pydict V) (k : string) (a : V)
    (f : V -> V) :
  map fst (at_key d k a f)
  = if contains d k then map fst d else map fst d ++ [k].
Proof.
  unfold at_key. rewrite keys_dupdate.
  destruct (contains d k) eqn:E; simpl; [reflexivity|].
  rewrite keys_dset, E. reflexivity.
Qed.

(** ** The results store *)

Lemma add_result_at_key (results : store) (service endpoint test_name : string)
    (data : dict) :
  add_result results service endpoint test_name data
  = at_key results service []
      (fun by_endpoint =>
         at_key by_endpoint endpoint []
           (fun by_test => dset by_test test_name data)).
Proof.
  unfold add_result, at_key. rewrite dupdate_dupdate. reflexivity.
Qed.

Lemma entry_add_result_same (results : store)
    (service endpoint test_name : string) (data : dict) :
  entry (add_result results service endpoint test_name data)
        service endpoint test_name
  = Some data.
Proof.
  rewrite add_result_at_key. unfold entry.
  rewrite dget_at_key_same, dget_at_key_same, dget_dset_same. reflexivity.
Qed.

(** X1: what [add_result] stores under a triple is what a lookup of the
    triple finds, whatever the store held before. *)
Theorem X1_add_result_entry (results : store)
    (service endpoint test_name : string) (data : dict) :
  entry (add_result results service endpoint test_name data)
        service endpoint test_name
  = Some data.
Proof.
  rewrite add_result_at_key. unfold entry.
  rewrite dget_at_key_same, dget_at_key_same, dget_dset_same. reflexivity.
Qed.

Lemma entry_add_result_other (results : store)
    (service endpoint test_name : string) (data : dict)
    (service' endpoint' test_name' : string) :
  (service', endpoint', test_name') <> (service, endpoint, test_name) ->
  entry (add_result results service endpoint test_name data)
        service' endpoint' test_name'
  = entry results service' endpoint' test_name'.
Proof.
  intro N. rewrite add_result_at_key. unfold entry.
  destruct (string_dec service service') as [<- | Ns];
    [|rewrite dget_at_key_other by exact Ns; reflexivity].
  rewrite dget_at_key_same.
  destruct (string_dec endpoint endpoint') as [<- | Ne].
  - rewrite dget_at_key_same.
    assert (Nt : test_name <> test_name') by (intros <-; apply N; reflexivity).
    rewrite dget_dset_other by exact Nt.
    destruct (dget results service) as [by_endpoint|]; simpl.
    + destruct (dget by_endpoint endpoint); reflexivity.
    + reflexivity.
  - rewrite dget_at_key_other by exact Ne.
    destruct (dget results service); reflexivity.
Qed.

(** X2: [add_result] changes the entry of no other triple. *)
Theorem X2_add_result_other_entries (results : store)
    (service endpoint test_name : string) (data : dict)
    (service' endpoint' test_name' : string) :
  (service', endpoint', test_name') <> (service, endpoint, test_name) ->
  entry (add_result results service endpoint test_name data)
        service' endpoint' test_name'
  = entry results service' endpoint' test_name'.
Proof.
  intro N. rewrite add_result_at_key. unfold entry.
  destruct (string_dec service service') as [<- | Ns];
    [|rewrite dget_at_key_other by exact Ns; reflexivity].
  rewrite dget_at_key_same.
  destruct (string_dec endpoint endpoint') as [<- | Ne].
  - rewrite dget_at_key_same.
    assert (Nt : test_name <> test_name') by (intros <-; apply N; reflexivity).
    rewrite dget_dset_other by exact Nt.
    destruct (dget results service) as [by_endpoint|]; simpl.
    + destruct (dget by_endpoint endpoint); reflexivity.
    + reflexivity.
  - rewrite dget_at_key_other by exact Ne.
    destruct (dget results service); reflexivity.
Qed.

Lemma X2_witness :
  ("quart-native", "/slow", "single_request")
  <> ("quart-native", "/parallel", "single_request")
  /\ entry (add_result empty_results "quart-native" "/parallel" "single_request" [])
           "quart-native" "/slow" "single_request"
     = entry empty_results "quart-native" "/slow" "single_request".
Proof.
  assert (N : ("quart-native", "/slow", "single_request")
              <> ("quart-native", "/parallel", "single_request"))
    by discriminate.
  split; [exact N|].
  exact (X2_add_result_other_entries empty_results "quart-native" "/parallel"
           "single_request" [] "quart-native" "/slow" "single_request" N).
Defined.

(** X3: a repeated test overwrites: after two calls for the same triple the
    store is the one the second call alone would have built. *)
Theorem X3_add_result_overwrites (results : store)
    (service endpoint test_name : string) (data1 data2 : dict) :
  add_result (add_result results service endpoint test_name data1)
             service endpoint test_name data2
  = add_result results service endpoint test_name data2.
Proof.
  rewrite !add_result_at_key, at_key_at_key.
  apply at_key_ext. intro by_endpoint.
  rewrite at_key_at_key. apply at_key_ext. intro by_test.
  apply dset_dset.
Qed.

(** X4: [add_result] removes no service and keeps the order of the store:
    a known service stays where it is, a new one goes last. *)
Theorem X4_add_result_services (results : store)
    (service endpoint test_name : string) (data : dict) :
  map fst (add_result results service endpoint test_name data)
  = if contains results service then map fst results
    else map fst results ++ [service].
Proof. rewrite add_result_at_key. apply keys_at_key. Qed.

Lemma unique_keys_at_key {V : Type} (d : pydict V) (k : string) (a : V)
    (f : V -> V) :
  unique_keys d -> unique_keys (at_key d k a f).
Proof.
  intro H. unfold at_key, unique_keys. rewrite keys_dupdate.
  destruct (contains d k); simpl; [exact H|].
  apply unique_keys_dset. exact H.
Qed.

Lemma Forall_dset {V : Type} (P : V -> Prop) (d : pydict V) (k : string)
    (v : V) :
  P v -> Forall (fun kv => P (snd kv)) d ->
  Forall (fun kv => P (snd kv)) (dset d k v).
Proof.
  intros Hv H. induction H as [|[k' v'] d Hk Hd IH]; simpl.
  - constructor; [exact Hv | constructor].
  - destruct (String.eqb k' k); constructor; assumption.
Qed.

Lemma Forall_dupdate {V : Type} (P : V -> Prop) (d : pydict V) (k : string)
    (f : V -> V) :
  (forall v, P v -> P (f v)) -> Forall (fun kv => P (snd kv)) d ->
  Forall (fun kv => P (snd kv)) (dupdate d k f).
Proof.
  intros Hf H. induction H as [|[k' v'] d Hk Hd IH]; simpl.
  - constructor.
  - destruct (String.eqb k' k); constructor; try assumption.
    apply Hf. exact Hk.
Qed.

Lemma Forall_at_key {V : Type} (P : V -> Prop) (d : pydict V) (k : string)
    (a : V) (f : V -> V) :
  P a -> (forall v, P v -> P (f v)) -> Forall (fun kv => P (snd kv)) d ->
  Forall (fun kv => P (snd kv)) (at_key d k a f).
Proof.
  intros Ha Hf H. unfold at_key. apply Forall_dupdate; [exact Hf|].
  destruct (contains d k); simpl; [exact H|].
  apply Forall_dset; assumption.
Qed.

(** The association lists stay dicts: [add_result] keeps the keys unique
    at the three levels. *)
Lemma add_result_well_formed (results : store)
    (service endpoint test_name : string) (data : dict) :
  well_formed results ->
  well_formed (add_result results service endpoint test_name data).
Proof.
  intros [Hu Hf]. rewrite add_result_at_key. split.
  - apply unique_keys_at_key. exact Hu.
  - apply (Forall_at_key
             (fun by_endpoint =>
                unique_keys by_endpoint
                /\ Forall (fun by_test => unique_keys (snd by_test)) by_endpoint));
      [split; constructor | | exact Hf].
    intros by_endpoint [Hu' Hf']. split.
    + apply unique_keys_at_key. exact Hu'.
    + apply (Forall_at_key (fun by_test => unique_keys by_test));
        [constructor | | exact Hf'].
      intros by_test Ht. apply unique_keys_dset. exact Ht.
Qed.

(** ** The readiness gate, continued *)

Lemma Qcltb_of_int_false (k timeout : Z) (x : Qc) :
  timeout <= k -> (of_int k <= x)%Qc -> Qcltb x (of_int timeout) = false.
Proof.
  intros H Hx. apply Qcltb_false.
  apply Qcle_trans with (of_int k); [apply of_int_le; exact H | exact Hx].
Qed.

Lemma Qcltb_of_int_lt (k timeout : Z) (x : Qc) :
  (of_int k <= x)%Qc -> Qcltb x (of_int timeout) = true -> k < timeout.
Proof.
  intros Hx H. apply Qcltb_true in H.
  destruct (Z_lt_le_dec k timeout) as [L | L]; [exact L|].
  exfalso. apply of_int_le in L.
  apply (Qclt_not_le _ _ H). apply Qcle_trans with (of_int k); assumption.
Qed.

Lemma poll_loop_gives_up_late (timeout : Z) (start : Qc)
    (script : list attempt) :
  forall now,
  returned (poll_loop timeout start now script) = Some false ->
  (of_int timeout
   <= now - start + spent script (events (poll_loop timeout start now script)))%Qc.
Proof.
  induction script as [|a script IH]; intros now H.
  - cbn [poll_loop] in *.
    destruct (Qcltb (now - start) (of_int timeout)) eqn:E; [discriminate H|].
    apply Qcltb_false in E. cbn [events spent].
    replace (now - start + 0)%Qc with (now - start)%Qc by ring. exact E.
  - cbn [poll_loop] in *.
    destruct (Qcltb (now - start) (of_int timeout)) eqn:E.
    + destruct (health a) as [c | msg].
      * destruct (c =? 200); [discriminate H|].
        cbn [emit events returned spent] in *.
        specialize (IH _ H).
        replace (now - start + (took a + spent script
                   (events (poll_loop timeout start (now + took a) script))))%Qc
          with (now + took a - start + spent script
                  (events (poll_loop timeout start (now + took a) script)))%Qc
          by ring.
        exact IH.
      * cbn [emit events returned spent] in *.
        specialize (IH _ H).
        replace (now - start + (took a + (of_int 1 + spent script
                   (events (poll_loop timeout start (now + took a + of_int 1) script)))))%Qc
          with (now + took a + of_int 1 - start + spent script
                  (events (poll_loop timeout start (now + took a + of_int 1) script)))%Qc
          by ring.
        exact IH.
    + apply Qcltb_false in E. cbn [events spent].
      replace (now - start + 0)%Qc with (now - start)%Qc by ring. exact E.
Qed.

(** X6: the gate never gives up early: when [wait_for_service] returns
    False, the GETs it made and the seconds it slept add up to at least the
    timeout. *)
Theorem X6_gate_gives_up_late (url : string) (timeout : Z) (now : Qc)
    (script : list attempt) :
  returned (wait_for_service url timeout now script) = Some false ->
  (of_int timeout
   <= spent script (events (wait_for_service url timeout now script)))%Qc.
Proof.
  unfold wait_for_service. intro H. apply poll_loop_gives_up_late in H.
  replace (now - now + spent script (events (poll_loop timeout now now script)))%Qc
    with (spent script (events (poll_loop timeout now now script))) in H by ring.
  exact H.
Qed.

Lemma down_twice_times_out :
  returned (wait_for_service "http://localhost:5001" 2 (frac 0 1) down_twice)
  = Some false.
Proof. reflexivity. Defined.

Lemma X6_witness :
  returned (wait_for_service "http://localhost:5001" 2 (frac 0 1) down_twice)
  = Some false
  /\ (of_int 2
      <= spent down_twice
           (events (wait_for_service "http://localhost:5001" 2 (frac 0 1)
                      down_twice)))%Qc.
Proof.
  split; [exact down_twice_times_out|].
  exact (X6_gate_gives_up_late "http://localhost:5001" 2 (frac 0 1) down_twice
           down_twice_times_out).
Defined.

Lemma poll_loop_down (timeout : Z) (start : Qc) (script : list attempt) :
  Forall (fun a => (0 <= took a)%Qc /\ raised a = true) script ->
  forall (now : Qc) (k : Z),
  (of_int k <= now - start)%Qc -> timeout - k <= len script ->
  returned (poll_loop timeout start now script) = Some false
  /\ gets (events (poll_loop timeout start now script)) <= Z.max 0 (timeout - k).
Proof.
  induction 1 as [|a script [Ha Hr] Hs IH]; intros now k Hk Hlen.
  - unfold len in Hlen. cbn [List.length] in Hlen. cbn [poll_loop].
    rewrite (Qcltb_of_int_false k timeout) by (lia || exact Hk).
    split; [reflexivity|]. unfold gets, len. cbn. lia.
  - cbn [poll_loop].
    destruct (Qcltb (now - start) (of_int timeout)) eqn:E;
      [|split; [reflexivity | unfold gets, len; cbn; lia]].
    pose proof (Qcltb_of_int_lt _ _ _ Hk E) as Hlt.
    unfold raised in Hr. destruct (health a) as [c | msg]; [discriminate Hr|].
    cbn [emit returned events].
    assert (Hk' : (of_int (k + 1) <= now + took a + of_int 1 - start)%Qc).
    { rewrite of_int_plus.
      replace (now + took a + of_int 1 - start)%Qc
        with ((now - start) + (took a + of_int 1))%Qc by ring.
      apply Qcplus_le_compat; [exact Hk|].
      rewrite <- (Qcplus_0_l (of_int 1)) at 1.
      apply Qcplus_le_compat; [exact Ha | apply Qcle_refl]. }
    assert (Hlen' : timeout - (k + 1) <= len script).
    { unfold len in *. cbn [List.length] in Hlen. lia. }
    destruct (IH _ _ Hk' Hlen') as [Hret Hg].
    split; [exact Hret|].
    unfold gets, len in *. cbn [filter List.length]. lia.
Qed.

(** X7: against a service that is down (every GET raises) the gate makes
    at most [timeout] attempts and then returns False: each failed attempt
    is followed by a sleep of one second, so [timeout] attempts are enough
    for the loop to end. *)
Theorem X7_gate_down_bounded (url : string) (timeout : Z) (now : Qc)
    (script : list attempt) :
  Forall (fun a => (0 <= took a)%Qc /\ raised a = true) script ->
  timeout <= len script ->
  returned (wait_for_service url timeout now script) = Some false
  /\ gets (events (wait_for_service url timeout now script)) <= Z.max 0 timeout.
Proof.
  intros Hs Hlen. unfold wait_for_service.
  destruct (poll_loop_down timeout now script Hs now 0) as [H1 H2].
  - replace (now - now)%Qc with 0%Qc by ring. apply Qcle_refl.
  - lia.
  - split; [exact H1|]. rewrite Z.sub_0_r in H2. exact H2.
Qed.

Lemma down_twice_is_down :
  Forall (fun a => (0 <= took a)%Qc /\ raised a = true) down_twice.
Proof.
  repeat constructor; intro H; discriminate H.
Defined.

Lemma two_le_len_down_twice : 2 <= len down_twice.
Proof. apply Z.leb_le. reflexivity. Defined.

Lemma X7_witness :
  Forall (fun a => (0 <= took a)%Qc /\ raised a = true) down_twice
  /\ 2 <= len down_twice
  /\ returned (wait_for_service "http://localhost:5001" 2 (frac 0 1) down_twice)
     = Some false
  /\ gets (events (wait_for_service "http://localhost:5001" 2 (frac 0 1)
                     down_twice)) <= Z.max 0 2.
Proof.
  split; [exact down_twice_is_down|]. split; [exact two_le_len_down_twice|].
  exact (X7_gate_down_bounded "http://localhost:5001" 2 (frac 0 1) down_twice
           down_twice_is_down two_le_len_down_twice).
Defined.

Lemma total_took_nonneg (script : list attempt) :
  Forall (fun a => (0 <= took a)%Qc /\ busy a = true) script ->
  (0 <= total_took script)%Qc.
Proof.
  induction 1 as [|a script [Ha _] _ IH]; cbn [total_took fold_right].
  - apply Qcle_refl.
  - rewrite <- (Qcplus_0_l 0). apply Qcplus_le_compat; assumption.
Qed.

Lemma poll_loop_busy (timeout : Z) (start : Qc) (script : list attempt) :
  Forall (fun a => (0 <= took a)%Qc /\ busy a = true) script ->
  forall now,
  (now - start + total_took script < of_int timeout)%Qc ->
  poll_loop timeout start now script
  = {| events := repeat Get (List.length script); returned := None |}.
Proof.
  induction 1 as [|a script [Ha Hb] Hs IH]; intros now Hlt.
  - cbn [poll_loop]. cbn [total_took fold_right] in Hlt.
    replace (now - start + 0)%Qc with (now - start)%Qc in Hlt by ring.
    apply Qcltb_true in Hlt. rewrite Hlt. reflexivity.
  - cbn [poll_loop]. cbn [total_took fold_right] in Hlt.
    fold (total_took script) in Hlt.
    pose proof (total_took_nonneg script Hs) as Hn.
    assert (Hnow : (now - start < of_int timeout)%Qc).
    { eapply Qcle_lt_trans; [|exact Hlt].
      rewrite <- (Qcplus_0_r (now - start)) at 1.
      apply Qcplus_le_compat; [apply Qcle_refl|].
      rewrite <- (Qcplus_0_l 0). apply Qcplus_le_compat; assumption. }
    apply Qcltb_true in Hnow. rewrite Hnow.
    unfold busy in Hb. destruct (health a) as [c | msg]; [|discriminate Hb].
    destruct (c =? 200); [discriminate Hb|].
    rewrite IH.
    + reflexivity.
    + replace (now + took a - start + total_took script)%Qc
        with (now - start + (took a + total_took script))%Qc by ring.
      exact Hlt.
Qed.

(** X8: against a service that answers, but never with 200, the gate
    polls back to back: as long as the GETs together take less than the
    timeout, every response is followed at once by the next GET; no sleep
    occurs and the loop is still running. *)
Theorem X8_gate_polls_back_to_back (url : string) (timeout : Z) (now : Qc)
    (script : list attempt) :
  Forall (fun a => (0 <= took a)%Qc /\ busy a = true) script ->
  (total_took script < of_int timeout)%Qc ->
  wait_for_service url timeout now script
  = {| events := repeat Get (List.length script); returned := None |}.
Proof.
  intros Hs Hlt. unfold wait_for_service. apply poll_loop_busy; [exact Hs|].
  replace (now - now + total_took script)%Qc with (total_took script) by ring.
  exact Hlt.
Qed.

Lemma unavailable_thrice_is_busy :
  Forall (fun a => (0 <= took a)%Qc /\ busy a = true) unavailable_thrice.
Proof. repeat constructor; intro H; discriminate H. Defined.

Lemma unavailable_thrice_is_short :
  (total_took unavailable_thrice < of_int default_timeout)%Qc.
Proof. reflexivity. Defined.

Lemma X8_witness :
  Forall (fun a => (0 <= took a)%Qc /\ busy a = true) unavailable_thrice
  /\ (total_took unavailable_thrice < of_int default_timeout)%Qc
  /\ wait_for_service "http://localhost:5002" default_timeout (frac 0 1)
       unavailable_thrice
     = {| events := [Get; Get; Get]; returned := None |}.
Proof.
  split; [exact unavailable_thrice_is_busy|].
  split; [exact unavailable_thrice_is_short|].
  exact (X8_gate_polls_back_to_back "http://localhost:5002" default_timeout
           (frac 0 1) unavailable_thrice unavailable_thrice_is_busy
           unavailable_thrice_is_short).
Defined.

(** ** The gate over all services *)

Lemma gather_all_true (tasks : list (option bool)) (results : list bool) :
  gather tasks = Some results -> forallb (fun r => r) results = true ->
  forall t, In t tasks -> t = Some true.
Proof.
  revert results. induction tasks as [|[r|] tasks IH]; intros results Hg Ha t Ht.
  - destruct Ht.
  - cbn [gather] in Hg. destruct (gather tasks) as [rs|] eqn:E; [|discriminate Hg].
    injection Hg as <-. cbn [forallb] in Ha. apply andb_true_iff in Ha.
    destruct Ha as [Hr Hrs]. destruct Ht as [<- | Ht].
    + rewrite Hr. reflexivity.
    + apply (IH rs eq_refl Hrs t Ht).
  - discriminate Hg.
Qed.

(** X9: when [wait_for_all_services] returns True, the health endpoint of
    every configured service has answered with status 200. *)
Theorem X9_all_services_ready (now : Qc) (health_of : string -> list attempt) :
  wait_for_all_services now health_of = Some true ->
  forall name url, In (name, url) SERVICES ->
  exists a, In a (health_of url) /\ health a = Response 200.
Proof.
  unfold wait_for_all_services. intros H name url Hin.
  destruct (gather _) as [results|] eqn:Eg; [|discriminate H].
  destruct (forallb (fun r => r) results) eqn:Ea; [|discriminate H].
  assert (Hr : returned (wait_for_service url default_timeout now (health_of url))
               = Some true).
  { apply (gather_all_true _ _ Eg Ea).
    apply (in_map (fun url => returned (wait_for_service url default_timeout now
                                          (health_of url)))).
    unfold values. apply (in_map snd) in Hin. exact Hin. }
  unfold wait_for_service in Hr. apply poll_loop_true in Hr. exact Hr.
Qed.

Lemma all_up :
  wait_for_all_services (frac 0 1)
    (fun _ => [ {| took := frac 1 100; health := Response 200 |} ])
  = Some true.
Proof. reflexivity. Defined.

Lemma X9_witness :
  wait_for_all_services (frac 0 1)
    (fun _ => [ {| took := frac 1 100; health := Response 200 |} ])
  = Some true
  /\ exists a, In a [ {| took := frac 1 100; health := Response 200 |} ]
               /\ health a = Response 200.
Proof.
  split; [exact all_up|].
  exact (X9_all_services_ready (frac 0 1)
           (fun _ => [ {| took := frac 1 100; health := Response 200 |} ])
           all_up "quart-native" "http://localhost:5004"
           (or_intror (or_intror (or_intror (or_introl eq_refl))))).
Defined.

(** ** Edge cases of the aggregation *)

Lemma sorted_singleton (d : Qc) : sorted [d] = [d].
Proof. reflexivity. Qed.

Lemma mean_singleton (d : Qc) : statistics.mean [d] = Ok d.
Proof.
  unfold statistics.mean, statistics.sum. change (len [d]) with 1.
  cbn [fold_left]. change (1 <? 1) with false. cbv iota. apply f_equal.
  change (of_int 1) with 1%Qc. field. discriminate.
Qed.

(** X10: with exactly one successful duration [d] no quantile is computed:
    mean, median, p95, p99, minimum and maximum are all [d]; the
    throughput is 1 / total_time and the success rate 1 / (1 + errors). *)
Theorem X10_singleton_summary (total_time d : Qc) (errors : Z) :
  total_time <> 0%Qc -> 0 <= errors ->
  sync_summary total_time [d] errors
  = Ok [("total_time", VFloat total_time);
        ("requests_per_second", VFloat (of_int 1 / total_time)%Qc);
        ("mean_latency", VFloat d);
        ("median_latency", VFloat d);
        ("p95_latency", VFloat d);
        ("p99_latency", VFloat d);
        ("min_latency", VFloat d);
        ("max_latency", VFloat d);
        ("errors", VInt errors);
        ("success_rate", VFloat (of_int 1 / of_int (1 + errors))%Qc)]
  /\ async_summary total_time [d] errors = sync_summary total_time [d] errors.
Proof.
  intros Ht He. split; [|reflexivity].
  unfold sync_summary. change (len [d]) with 1.
  rewrite (truediv_Ok _ _ Ht), mean_singleton. cbn [bind].
  rewrite truediv_Ok by (apply of_int_neq_0; lia).
  reflexivity.
Qed.

Lemma one_neq_zero : frac 1 1 <> 0%Qc.
Proof. discriminate. Defined.

Lemma zero_le_two : 0 <= 2.
Proof. apply Z.leb_le. reflexivity. Defined.

Lemma X10_witness :
  frac 1 1 <> 0%Qc /\ 0 <= 2
  /\ async_summary (frac 1 1) [frac 1 4] 2 = sync_summary (frac 1 1) [frac 1 4] 2.
Proof.
  split; [exact one_neq_zero|]. split; [exact zero_le_two|].
  exact (proj2 (X10_singleton_summary (frac 1 1) (frac 1 4) 2
                  one_neq_zero zero_le_two)).
Defined.

Lemma collected_success (xs : list exchange) (x : exchange) :
  In x xs -> succeeded x = true -> fst (collected xs) <> [].
Proof.
  intros Hin Hs. unfold collected. cbn [fst].
  assert (H : In (elapsed x) (map elapsed (filter succeeded xs))).
  { apply in_map. apply filter_In. split; assumption. }
  intro E. rewrite E in H. destruct H.
Qed.

Lemma sync_summary_zero_time (durations : list Qc) (errors : Z) :
  durations <> [] ->
  sync_summary 0%Qc durations errors = Raise ZeroDivisionError.
Proof.
  intro H. destruct durations as [|d l]; [congruence|]. reflexivity.
Qed.

Lemma In_launched (w : world) (n : Z) (k : nat) :
  (k < Z.to_nat n)%nat -> In (probe w k) (launched w n).
Proof.
  intro H. unfold launched. apply in_map. apply in_seq. lia.
Qed.

(** X11: a run in which a probe succeeded and the two readings of the
    clock around the run are equal has no summary: the throughput
    len(durations) / total_time raises ZeroDivisionError, in both drivers. *)
Theorem X11_zero_total_time (service_name url endpoint : string)
    (num_requests : Z) (w : world) (k : nat) :
  1 <= num_requests ->
  Permutation (completion w) (seq 0 (Z.to_nat num_requests)) ->
  (k < Z.to_nat num_requests)%nat -> succeeded (probe w k) = true ->
  run_end w = run_start w ->
  test_concurrent_sync service_name url endpoint num_requests w
  = Raise ZeroDivisionError
  /\ test_concurrent_async service_name url endpoint num_requests w
     = Raise ZeroDivisionError.
Proof.
  intros HN HP Hk Hs Ht.
  assert (Hz : (run_end w - run_start w)%Qc = 0%Qc) by (rewrite Ht; ring).
  pose proof (In_launched w num_requests k Hk) as Hin.
  split.
  - pose proof (sync_collect_collected service_name url endpoint num_requests w HN) as E.
    assert (Hne : fst (collected (as_completed (launched w num_requests)
                                    (completion w))) <> []).
    { apply (collected_success _ (probe w k)); [|exact Hs].
      apply (Permutation_in _ (Permutation_sym (as_completed_launched w _ HP))).
      exact Hin. }
    destruct (collected _) as [ds es]. cbn [fst] in Hne.
    rewrite (test_concurrent_sync_summary _ _ _ _ _ _ _ E), Hz.
    apply sync_summary_zero_time. exact Hne.
  - pose proof (async_collect_collected url endpoint num_requests w) as E.
    pose proof (collected_success _ _ Hin Hs) as Hne.
    destruct (collected _) as [ds es]. cbn [fst] in Hne.
    rewrite (test_concurrent_async_summary _ _ _ _ _ _ _ E), Hz.
    rewrite <- sync_async_summary.
    apply sync_summary_zero_time. exact Hne.
Qed.

Lemma one_le_one : 1 <= 1.
Proof. apply Z.leb_le. reflexivity. Defined.

Lemma instant_completion :
  Permutation (completion instant_run) (seq 0 (Z.to_nat 1)).
Proof. apply Permutation_refl. Defined.

Lemma zero_lt_one_nat : (0 < Z.to_nat 1)%nat.
Proof. apply Nat.ltb_lt. reflexivity. Defined.

Lemma X11_witness :
  1 <= 1 /\ Permutation (completion instant_run) (seq 0 (Z.to_nat 1))
  /\ (0 < Z.to_nat 1)%nat /\ succeeded (probe instant_run 0) = true
  /\ run_end instant_run = run_start instant_run
  /\ test_concurrent_sync "quart-native" "http://localhost:5004" "/slow" 1
       instant_run = Raise ZeroDivisionError.
Proof.
  split; [exact one_le_one|]. split; [exact instant_completion|].
  split; [exact zero_lt_one_nat|]. split; [reflexivity|]. split; [reflexivity|].
  exact (proj1 (X11_zero_total_time "quart-native" "http://localhost:5004"
                  "/slow" 1 instant_run 0 one_le_one instant_completion
                  zero_lt_one_nat eq_refl eq_refl)).
Defined.

(** X12: asked for no probe (a count of 0 or less) the two drivers differ:
    the thread-pool driver raises the ValueError of a pool without
    workers, the cooperative driver returns the summary of an empty run. *)
Theorem X12_no_requests (service_name url endpoint : string)
    (num_requests : Z) (w : world) :
  num_requests <= 0 ->
  test_concurrent_sync service_name url endpoint num_requests w
  = Raise (ValueError "max_workers must be greater than 0")
  /\ test_concurrent_async service_name url endpoint num_requests w
     = Ok [("total_time", VFloat (run_end w - run_start w)%Qc);
           ("errors", VInt 0);
           ("success_rate", VInt 0)].
Proof.
  intro H. split.
  - unfold test_concurrent_sync, sync_collect.
    destruct (num_requests <=? 0) eqn:E; [reflexivity|].
    apply Z.leb_gt in E. lia.
  - unfold test_concurrent_async, async_collect.
    replace (Z.to_nat num_requests) with 0%nat by lia. reflexivity.
Qed.

Lemma zero_le_zero : 0 <= 0.
Proof. apply Z.leb_le. reflexivity. Defined.

Lemma X12_witness :
  0 <= 0
  /\ test_concurrent_sync "flask-wsgi" "http://localhost:5001" "/slow" 0 mixed_run
     = Raise (ValueError "max_workers must be greater than 0").
Proof.
  split; [exact zero_le_zero|].
  exact (proj1 (X12_no_requests "flask-wsgi" "http://localhost:5001" "/slow" 0
                  mixed_run zero_le_zero)).
Defined.

(** ** Mean and median lie in the observed range *)

Lemma of_int_len_cons {A : Type} (x : A) (l : list A) :
  of_int (len (x :: l)) = (of_int 1 + of_int (len l))%Qc.
Proof.
  rewrite <- of_int_plus. f_equal. unfold len. cbn [List.length]. lia.
Qed.

Lemma fold_plus_lower (l : list Qc) (lo : Qc) :
  (forall y, In y l -> (lo <= y)%Qc) ->
  forall a, (lo * of_int (len l) + a <= fold_left Qcplus l a)%Qc.
Proof.
  induction l as [|x l IH]; intros H a.
  - cbn [fold_left]. change (of_int (len [])) with 0%Qc.
    replace (lo * 0 + a)%Qc with a by ring. apply Qcle_refl.
  - cbn [fold_left]. rewrite of_int_len_cons.
    eapply Qcle_trans; [|apply IH; intros y Hy; apply H; right; exact Hy].
    replace (lo * (of_int 1 + of_int (len l)) + a)%Qc
      with (lo * of_int (len l) + (a + lo))%Qc
      by (change (of_int 1) with 1%Qc; ring).
    apply Qcplus_le_compat; [apply Qcle_refl|].
    apply Qcplus_le_compat; [apply Qcle_refl|].
    apply H. left. reflexivity.
Qed.

Lemma fold_plus_upper (l : list Qc) (hi : Qc) :
  (forall y, In y l -> (y <= hi)%Qc) ->
  forall a, (fold_left Qcplus l a <= hi * of_int (len l) + a)%Qc.
Proof.
  induction l as [|x l IH]; intros H a.
  - cbn [fold_left]. change (of_int (len [])) with 0%Qc.
    replace (hi * 0 + a)%Qc with a by ring. apply Qcle_refl.
  - cbn [fold_left]. rewrite of_int_len_cons.
    eapply Qcle_trans; [apply IH; intros y Hy; apply H; right; exact Hy|].
    replace (hi * (of_int 1 + of_int (len l)) + a)%Qc
      with (hi * of_int (len l) + (a + hi))%Qc
      by (change (of_int 1) with 1%Qc; ring).
    apply Qcplus_le_compat; [apply Qcle_refl|].
    apply Qcplus_le_compat; [apply Qcle_refl|].
    apply H. left. reflexivity.
Qed.

Lemma mean_bounds (data : list Qc) (lo hi : Qc) :
  data <> [] ->
  (forall y, In y data -> (lo <= y)%Qc) ->
  (forall y, In y data -> (y <= hi)%Qc) ->
  exists m, statistics.mean data = Ok m /\ (lo <= m)%Qc /\ (m <= hi)%Qc.
Proof.
  intros Hne Hlo Hhi.
  assert (Hlen : 1 <= len data).
  { destruct data; [congruence|]. unfold len. cbn [List.length]. lia. }
  unfold statistics.mean, statistics.sum.
  destruct (len data <? 1) eqn:E; [apply Z.ltb_lt in E; lia|].
  eexists. split; [reflexivity|].
  assert (Hn : (0 < of_int (len data))%Qc) by (apply (of_int_lt 0); lia).
  assert (Hn0 : of_int (len data) <> 0%Qc) by (apply of_int_neq_0; lia).
  split; apply Qcmult_lt_0_le_reg_r with (of_int (len data)); try exact Hn.
  - replace (fold_left Qcplus data 0 / of_int (len data) * of_int (len data))%Qc
      with (fold_left Qcplus data 0%Qc) by (field; exact Hn0).
    pose proof (fold_plus_lower data lo Hlo 0%Qc) as H.
    replace (lo * of_int (len data) + 0)%Qc with (lo * of_int (len data))%Qc in H by ring.
    exact H.
  - replace (fold_left Qcplus data 0 / of_int (len data) * of_int (len data))%Qc
      with (fold_left Qcplus data 0%Qc) by (field; exact Hn0).
    pose proof (fold_plus_upper data hi Hhi 0%Qc) as H.
    replace (hi * of_int (len data) + 0)%Qc with (hi * of_int (len data))%Qc in H by ring.
    exact H.
Qed.

Lemma half_sum_bounds (a b lo hi : Qc) :
  (lo <= a)%Qc -> (lo <= b)%Qc -> (a <= hi)%Qc -> (b <= hi)%Qc ->
  (lo <= (a + b) / of_int 2)%Qc /\ ((a + b) / of_int 2 <= hi)%Qc.
Proof.
  intros H1 H2 H3 H4.
  assert (Hn : (0 < of_int 2)%Qc) by reflexivity.
  assert (Hn0 : of_int 2 <> 0%Qc) by discriminate.
  split; apply Qcmult_lt_0_le_reg_r with (of_int 2); try exact Hn.
  - replace ((a + b) / of_int 2 * of_int 2)%Qc with (a + b)%Qc by (field; exact Hn0).
    replace (lo * of_int 2)%Qc with (lo + lo)%Qc
      by (change (of_int 2) with (1 + 1)%Qc; ring).
    apply Qcplus_le_compat; assumption.
  - replace ((a + b) / of_int 2 * of_int 2)%Qc with (a + b)%Qc by (field; exact Hn0).
    replace (hi * of_int 2)%Qc with (hi + hi)%Qc
      by (change (of_int 2) with (1 + 1)%Qc; ring).
    apply Qcplus_le_compat; assumption.
Qed.

Lemma median_bounds (data : list Qc) (lo hi : Qc) :
  data <> [] ->
  (forall y, In y data -> (lo <= y)%Qc) ->
  (forall y, In y data -> (y <= hi)%Qc) ->
  exists m, statistics.median data = Ok m /\ (lo <= m)%Qc /\ (m <= hi)%Qc.
Proof.
  intros Hne Hlo Hhi. unfold statistics.median.
  assert (Hn : 1 <= len (sorted data)).
  { rewrite len_sorted. destruct data; [congruence|].
    unfold len. cbn [List.length]. lia. }
  assert (Hin : forall j, 0 <= j < len (sorted data) ->
                          In (item (sorted data) j) data).
  { intros j Hj. apply (Permutation_in _ (sorted_perm data)).
    unfold item. apply nth_In. unfold len in Hj. lia. }
  set (s := sorted data) in *. set (n := len s) in *.
  destruct (n =? 0) eqn:E0; [apply Z.eqb_eq in E0; lia|].
  pose proof (Z.div_mod n 2 ltac:(lia)).
  pose proof (Z.mod_pos_bound n 2 ltac:(lia)).
  destruct (n mod 2 =? 1) eqn:E1.
  - rewrite (getitem_nth s (n / 2) 0%Qc) by (fold n; lia).
    eexists. split; [reflexivity|].
    fold (item s (n / 2)). split; [apply Hlo | apply Hhi]; apply Hin; lia.
  - apply Z.eqb_neq in E1.
    rewrite (getitem_nth s (n / 2 - 1) 0%Qc) by (fold n; lia).
    rewrite (getitem_nth s (n / 2) 0%Qc) by (fold n; lia).
    eexists. split; [reflexivity|].
    fold (item s (n / 2 - 1)). fold (item s (n / 2)).
    apply half_sum_bounds; try apply Hlo; try apply Hhi; apply Hin; lia.
Qed.

(** X13: for every non-empty sample the mean and the median of the
    summary lie between min_latency and max_latency. *)
Theorem X13_mean_median_in_range (durations : list Qc) :
  durations <> [] ->
  exists lo hi mean median,
    min_ durations = Ok lo /\ max_ durations = Ok hi
    /\ statistics.mean durations = Ok mean
    /\ statistics.median durations = Ok median
    /\ (lo <= mean)%Qc /\ (mean <= hi)%Qc
    /\ (lo <= median)%Qc /\ (median <= hi)%Qc.
Proof.
  intro Hne.
  destruct (min_spec _ Hne) as (lo & Elo & _ & Hlo).
  destruct (max_spec _ Hne) as (hi & Ehi & _ & Hhi).
  destruct (mean_bounds _ lo hi Hne Hlo Hhi) as (m & Em & Hm1 & Hm2).
  destruct (median_bounds _ lo hi Hne Hlo Hhi) as (md & Emd & Hd1 & Hd2).
  exists lo, hi, m, md. repeat split; assumption.
Qed.

Lemma two_durations_nonempty : [frac 1 4; frac 1 2] <> [].
Proof. discriminate. Defined.

Lemma X13_witness :
  [frac 1 4; frac 1 2] <> []
  /\ exists lo hi mean median,
       min_ [frac 1 4; frac 1 2] = Ok lo /\ max_ [frac 1 4; frac 1 2] = Ok hi
       /\ statistics.mean [frac 1 4; frac 1 2] = Ok mean
       /\ statistics.median [frac 1 4; frac 1 2] = Ok median
       /\ (lo <= mean)%Qc /\ (mean <= hi)%Qc
       /\ (lo <= median)%Qc /\ (median <= hi)%Qc.
Proof.
  split; [exact two_durations_nonempty|].
  exact (X13_mean_median_in_range [frac 1 4; frac 1 2] two_durations_nonempty).
Defined.

(** ** The shape of a summary *)

Lemma sync_summary_inv (total_time : Qc) (durations : list Qc) (errors : Z)
    (d : dict) :
  sync_summary total_time durations errors = Ok d ->
  (durations = []
   /\ d = [("total_time", VFloat total_time); ("errors", VInt errors);
           ("success_rate", VInt 0)])
  \/ (durations <> []
      /\ exists rps mean median p95 p99 lo hi rate,
           truediv (of_int (len durations)) total_time = Ok rps
           /\ statistics.mean durations = Ok mean
           /\ statistics.median durations = Ok median
           /\ p95_latency durations = Ok p95
           /\ p99_latency durations = Ok p99
           /\ min_ durations = Ok lo /\ max_ durations = Ok hi
           /\ truediv (of_int (len durations)) (of_int (len durations + errors))
              = Ok rate
           /\ d = [("total_time", VFloat total_time);
                   ("requests_per_second", VFloat rps);
                   ("mean_latency", VFloat mean);
                   ("median_latency", VFloat median);
                   ("p95_latency", VFloat p95);
                   ("p99_latency", VFloat p99);
                   ("min_latency", VFloat lo);
                   ("max_latency", VFloat hi);
                   ("errors", VInt errors);
                   ("success_rate", VFloat rate)]).
Proof.
  intro H. destruct durations as [|x l].
  - left. injection H as <-. split; reflexivity.
  - right. split; [discriminate|].
    unfold sync_summary in H. bind_inv H. injection H as <-.
    do 8 eexists. repeat (split; [reflexivity|]). reflexivity.
Qed.

Lemma launched_all_failed (w : world) (n : Z) :
  fst (collected (launched w n)) = [] ->
  forall k, (k < Z.to_nat n)%nat -> succeeded (probe w k) = false.
Proof.
  intros H k Hk. destruct (succeeded (probe w k)) eqn:E; [|reflexivity].
  exfalso. apply (collected_success _ _ (In_launched w n k Hk) E). exact H.
Qed.

(** The number of failed probes of a run. *)
Lemma sync_run_summary (service_name url endpoint : string)
    (num_requests : Z) (w : world) :
  1 <= num_requests ->
  Permutation (completion w) (seq 0 (Z.to_nat num_requests)) ->
  exists ds,
    Permutation ds (fst (collected (launched w num_requests)))
    /\ test_concurrent_sync service_name url endpoint num_requests w
       = sync_summary (run_end w - run_start w)%Qc ds
           (snd (collected (launched w num_requests))).
Proof.
  intros HN HP.
  pose proof (sync_collect_collected service_name url endpoint num_requests w HN) as E.
  destruct (collected_Permutation _ _ (as_completed_launched w num_requests HP))
    as [Hd He].
  destruct (collected (as_completed _ _)) as [ds es]. cbn [fst snd] in Hd, He.
  exists ds. split; [exact Hd|].
  rewrite (test_concurrent_sync_summary _ _ _ _ _ _ _ E), He. reflexivity.
Qed.

Lemma async_run_summary (service_name url endpoint : string)
    (num_requests : Z) (w : world) :
  test_concurrent_async service_name url endpoint num_requests w
  = sync_summary (run_end w - run_start w)%Qc
      (fst (collected (launched w num_requests)))
      (snd (collected (launched w num_requests))).
Proof.
  pose proof (async_collect_collected url endpoint num_requests w) as E.
  destruct (collected _) as [ds es].
  rewrite (test_concurrent_async_summary _ _ _ _ _ _ _ E). reflexivity.
Qed.

Lemma rate_range (l e : Z) (q : Qc) :
  1 <= l -> 0 <= e -> truediv (of_int l) (of_int (l + e)) = Ok q ->
  (0 < q)%Qc /\ (q <= 1)%Qc.
Proof.
  intros Hl He H. apply truediv_inv in H. subst q.
  assert (Hd : (0 < of_int (l + e))%Qc) by (apply (of_int_lt 0); lia).
  assert (Hd0 : of_int (l + e) <> 0%Qc) by (apply of_int_neq_0; lia).
  split.
  - apply Qclt_minus_iff. replace (of_int l / of_int (l + e) + - 0)%Qc
      with (of_int l / of_int (l + e))%Qc by ring.
    destruct (Qclt_le_dec 0 (of_int l / of_int (l + e))) as [L | L]; [exact L|].
    exfalso.
    assert (H : (of_int l / of_int (l + e) * of_int (l + e) <= 0 * of_int (l + e))%Qc)
      by (apply Qcmult_le_compat_r; [exact L | apply Qclt_le_weak; exact Hd]).
    replace (of_int l / of_int (l + e) * of_int (l + e))%Qc with (of_int l) in H
      by (field; exact Hd0).
    rewrite Qcmult_0_l in H.
    apply (Qcle_not_lt _ _ H). apply (of_int_lt 0). lia.
  - apply Qcmult_lt_0_le_reg_r with (of_int (l + e)); [exact Hd|].
    replace (of_int l / of_int (l + e) * of_int (l + e))%Qc with (of_int l)
      by (field; exact Hd0).
    rewrite Qcmult_1_l. apply of_int_le. lia.
Qed.

Lemma either_driver_summary (service_name url endpoint : string)
    (num_requests : Z) (w : world) (d : dict) :
  1 <= num_requests ->
  Permutation (completion w) (seq 0 (Z.to_nat num_requests)) ->
  test_concurrent_sync service_name url endpoint num_requests w = Ok d
  \/ test_concurrent_async service_name url endpoint num_requests w = Ok d ->
  exists ds,
    Permutation ds (fst (collected (launched w num_requests)))
    /\ sync_summary (run_end w - run_start w)%Qc ds
         (snd (collected (launched w num_requests))) = Ok d.
Proof.
  intros HN HP [Hd | Hd].
  - destruct (sync_run_summary service_name url endpoint num_requests w HN HP)
      as (ds & Hp & E).
    exists ds. split; [exact Hp|]. rewrite <- E. exact Hd.
  - rewrite async_run_summary in Hd. eexists.
    split; [apply Permutation_refl | exact Hd].
Qed.

(** X14: the success rate of every summary a driver returns is the integer
    0 (no probe succeeded) or a fraction in the interval (0, 1]. *)
Theorem X14_success_rate_range (service_name url endpoint : string)
    (num_requests : Z) (w : world) (d : dict) :
  1 <= num_requests ->
  Permutation (completion w) (seq 0 (Z.to_nat num_requests)) ->
  test_concurrent_sync service_name url endpoint num_requests w = Ok d
  \/ test_concurrent_async service_name url endpoint num_requests w = Ok d ->
  lookup "success_rate" d = Some (VInt 0)
  \/ exists q, lookup "success_rate" d = Some (VFloat q)
               /\ (0 < q)%Qc /\ (q <= 1)%Qc.
Proof.
  intros HN HP Hd.
  destruct (either_driver_summary _ _ _ _ _ _ HN HP Hd) as (ds & _ & Hs).
  pose proof (collected_errors_nonneg (launched w num_requests)) as He.
  apply sync_summary_inv in Hs.
  destruct Hs as [[_ ->] | (Hne & rps & mean & median & p95 & p99 & lo & hi & rate
                            & _ & _ & _ & _ & _ & _ & _ & Hr & ->)].
  - left. reflexivity.
  - right. exists rate. split; [reflexivity|].
    assert (Hl : 1 <= len ds).
    { destruct ds; [congruence|]. unfold len. cbn [List.length]. lia. }
    exact (rate_range _ _ _ Hl He Hr).
Qed.

Lemma two_le_two : 1 <= 2.
Proof. apply Z.leb_le. reflexivity. Defined.

Lemma refused_sync_summary :
  test_concurrent_sync "flask-wsgi" "http://localhost:5001" "/slow" 2 refused_run
  = Ok [("total_time", VFloat (run_end refused_run - run_start refused_run)%Qc);
        ("errors", VInt 2);
        ("success_rate", VInt 0)].
Proof. reflexivity. Defined.

Lemma X14_witness :
  1 <= 2 /\ Permutation (completion refused_run) (seq 0 (Z.to_nat 2))
  /\ (lookup "success_rate"
        [("total_time", VFloat (run_end refused_run - run_start refused_run)%Qc);
         ("errors", VInt 2);
         ("success_rate", VInt 0)] = Some (VInt 0)
      \/ exists q,
           lookup "success_rate"
             [("total_time", VFloat (run_end refused_run - run_start refused_run)%Qc);
              ("errors", VInt 2);
              ("success_rate", VInt 0)] = Some (VFloat q)
           /\ (0 < q)%Qc /\ (q <= 1)%Qc).
Proof.
  split; [exact two_le_two|]. split; [exact refused_completion|].
  exact (X14_success_rate_range "flask-wsgi" "http://localhost:5001" "/slow" 2
           refused_run _ two_le_two refused_completion
           (or_introl refused_sync_summary)).
Defined.

Lemma collected_nil_iff (xs : list exchange) :
  fst (collected xs) = []
  <-> forallb (fun x => negb (succeeded x)) xs = true.
Proof.
  induction xs as [|x xs IH].
  - split; reflexivity.
  - rewrite collected_cons. cbn [forallb].
    destruct (succeeded x); cbn [fst negb andb].
    + split; discriminate.
    + exact IH.
Qed.

(** X15: the bookkeeping of a summary: total_time is the difference of the
    two clock readings of the run, errors is the number of probes that did
    not succeed, and the keys are the three keys of the degenerate summary
    exactly when no probe succeeded and the ten keys of the full summary
    otherwise. *)
Theorem X15_summary_bookkeeping (service_name url endpoint : string)
    (num_requests : Z) (w : world) (d : dict) :
  1 <= num_requests ->
  Permutation (completion w) (seq 0 (Z.to_nat num_requests)) ->
  test_concurrent_sync service_name url endpoint num_requests w = Ok d
  \/ test_concurrent_async service_name url endpoint num_requests w = Ok d ->
  lookup "total_time" d = Some (VFloat (run_end w - run_start w)%Qc)
  /\ lookup "errors" d
     = Some (VInt (len (filter (fun x => negb (succeeded x))
                               (launched w num_requests))))
  /\ keys d
     = if forallb (fun x => negb (succeeded x)) (launched w num_requests)
       then ["total_time"; "errors"; "success_rate"]
       else ["total_time"; "requests_per_second"; "mean_latency";
             "median_latency"; "p95_latency"; "p99_latency"; "min_latency";
             "max_latency"; "errors"; "success_rate"].
Proof.
  intros HN HP Hd.
  destruct (either_driver_summary _ _ _ _ _ _ HN HP Hd) as (ds & Hp & Hs).
  apply sync_summary_inv in Hs.
  destruct Hs as [[-> ->] | (Hne & rps & mean & median & p95 & p99 & lo & hi & rate
                             & _ & _ & _ & _ & _ & _ & _ & _ & ->)].
  - apply Permutation_nil in Hp.
    apply collected_nil_iff in Hp. rewrite Hp. repeat split.
  - assert (Hf : forallb (fun x => negb (succeeded x)) (launched w num_requests)
                 = false).
    { destruct (forallb _ _) eqn:E; [|reflexivity].
      apply collected_nil_iff in E. rewrite E in Hp.
      apply Permutation_sym, Permutation_nil in Hp. contradiction. }
    rewrite Hf. repeat split.
Qed.

Lemma X15_witness :
  1 <= 2 /\ Permutation (completion refused_run) (seq 0 (Z.to_nat 2))
  /\ lookup "errors"
       [("total_time", VFloat (run_end refused_run - run_start refused_run)%Qc);
        ("errors", VInt 2);
        ("success_rate", VInt 0)]
     = Some (VInt (len (filter (fun x => negb (succeeded x))
                               (launched refused_run 2)))).
Proof.
  split; [exact two_le_two|]. split; [exact refused_completion|].
  exact (proj1 (proj2
    (X15_summary_bookkeeping "flask-wsgi" "http://localhost:5001" "/slow" 2
       refused_run _ two_le_two refused_completion
       (or_introl refused_sync_summary)))).
Defined.

Lemma collected_all_succeeded (xs : list exchange) :
  (forall x, In x xs -> succeeded x = true) ->
  snd (collected xs) = 0 /\ len (fst (collected xs)) = len xs.
Proof.
  induction xs as [|x xs IH]; intro H.
  - split; reflexivity.
  - rewrite collected_cons. rewrite (H x (or_introl eq_refl)). cbn [fst snd].
    destruct IH as [IH1 IH2]; [intros y Hy; apply H; right; exact Hy|].
    split; [exact IH1|]. unfold len in *. cbn [List.length]. lia.
Qed.

(** X16: when all N probes succeed and the run takes time, both drivers
    return the same summary, with errors = 0, success_rate = 1 and
    requests_per_second = N / total_time. *)
Theorem X16_all_probes_succeed (service_name url endpoint : string)
    (num_requests : Z) (w : world) :
  1 <= num_requests ->
  Permutation (completion w) (seq 0 (Z.to_nat num_requests)) ->
  (forall k, (k < Z.to_nat num_requests)%nat -> succeeded (probe w k) = true) ->
  run_end w <> run_start w ->
  exists d,
    test_concurrent_sync service_name url endpoint num_requests w = Ok d
    /\ test_concurrent_async service_name url endpoint num_requests w = Ok d
    /\ lookup "errors" d = Some (VInt 0)
    /\ lookup "success_rate" d = Some (VFloat 1%Qc)
    /\ lookup "requests_per_second" d
       = Some (VFloat (of_int num_requests / (run_end w - run_start w))%Qc).
Proof.
  intros HN HP Hall Ht.
  pose proof (drivers_agree_on_a_world service_name url endpoint _ _ HN HP) as Hagree.
  pose proof (async_run_summary service_name url endpoint num_requests w) as Ha.
  destruct (collected_all_succeeded (launched w num_requests)) as [He Hl].
  { intros x Hx. unfold launched in Hx. apply in_map_iff in Hx.
    destruct Hx as (k & <- & Hk). apply in_seq in Hk. apply Hall. lia. }
  rewrite len_launched in Hl by lia. rewrite He in Ha.
  destruct (sync_summary_returns (run_end w - run_start w)%Qc
              (fst (collected (launched w num_requests))) 0 ltac:(lia)) as (d & Hd).
  { right. apply Qcminus_neq_0. exact Ht. }
  exists d. split; [rewrite Hagree, Ha; exact Hd|].
  split; [rewrite Ha; exact Hd|].
  apply sync_summary_inv in Hd.
  destruct Hd as [[E _] | (Hne & rps & mean & median & p95 & p99 & lo & hi & rate
                           & Hrps & _ & _ & _ & _ & _ & _ & Hr & ->)].
  - rewrite E in Hl. change (len []) with 0 in Hl. lia.
  - rewrite Hl in Hrps, Hr. apply truediv_inv in Hrps, Hr. subst rps rate.
    split; [reflexivity|]. split; [|reflexivity].
    cbn [lookup String.eqb Ascii.eqb Bool.eqb]. do 2 f_equal.
    rewrite Z.add_0_r. field. apply of_int_neq_0. lia.
Qed.

Lemma steady_completion :
  Permutation (completion steady_run) (seq 0 (Z.to_nat 2)).
Proof. apply Permutation_refl. Defined.

Lemma steady_all_succeed :
  forall k, (k < Z.to_nat 2)%nat -> succeeded (probe steady_run k) = true.
Proof. intros k _. reflexivity. Defined.

Lemma steady_takes_time : run_end steady_run <> run_start steady_run.
Proof. discriminate. Defined.

Lemma X16_witness :
  1 <= 2 /\ Permutation (completion steady_run) (seq 0 (Z.to_nat 2))
  /\ (forall k, (k < Z.to_nat 2)%nat -> succeeded (probe steady_run k) = true)
  /\ run_end steady_run <> run_start steady_run
  /\ exists d,
       test_concurrent_sync "quart-native" "http://localhost:5004" "/parallel" 2
         steady_run = Ok d
       /\ test_concurrent_async "quart-native" "http://localhost:5004" "/parallel"
            2 steady_run = Ok d
       /\ lookup "errors" d = Some (VInt 0)
       /\ lookup "success_rate" d = Some (VFloat 1%Qc)
       /\ lookup "requests_per_second" d
          = Some (VFloat (of_int 2 / (run_end steady_run - run_start steady_run))%Qc).
Proof.
  split; [exact two_le_two|]. split; [exact steady_completion|].
  split; [exact steady_all_succeed|]. split; [exact steady_takes_time|].
  exact (X16_all_probes_succeed "quart-native" "http://localhost:5004" "/parallel"
           2 steady_run two_le_two steady_completion steady_all_succeed
           steady_takes_time).
Defined.

(** ** [quantiles] *)

Lemma quantiles_result (data : list Qc) (n : Z) :
  match statistics.quantiles data n with
  | Ok qs => 1 <= n /\ 2 <= len data /\ len qs = n - 1
  | Raise e => (n < 1 \/ len data < 2) /\ exists msg, e = StatisticsError msg
  end.
Proof.
  destruct (Z_lt_le_dec n 1) as [Hn | Hn].
  - unfold statistics.quantiles.
    destruct (n <? 1) eqn:E; [|apply Z.ltb_ge in E; lia].
    split; [left; exact Hn | eexists; reflexivity].
  - destruct (Z_lt_le_dec (len data) 2) as [Hl | Hl].
    + unfold statistics.quantiles.
      destruct (n <? 1) eqn:E; [apply Z.ltb_lt in E; lia|].
      rewrite len_sorted.
      destruct (len data <? 2) eqn:E2; [|apply Z.ltb_ge in E2; lia].
      split; [right; exact Hl | eexists; reflexivity].
    + rewrite quantiles_cuts by assumption.
      split; [exact Hn|]. split; [exact Hl|].
      unfold len. rewrite length_map. fold (len (range 1 n)).
      apply len_range. lia.
Qed.

(** X17: [quantiles] raises StatisticsError exactly when fewer than one
    interval is asked for or the sample has fewer than two points;
    otherwise it returns n - 1 cut points. *)
Theorem X17_quantiles_result (data : list Qc) (n : Z) :
  match statistics.quantiles data n with
  | Ok qs => 1 <= n /\ 2 <= len data /\ len qs = n - 1
  | Raise e => (n < 1 \/ len data < 2) /\ exists msg, e = StatisticsError msg
  end.
Proof. apply quantiles_result. Qed.

Lemma cut_step (s : list Qc) (n i : Z) :
  StronglySorted Qcle s -> 2 <= len s -> 0 < n ->
  (cut s n i <= cut s n (i + 1))%Qc.
Proof.
  intros Hs Hld Hn.
  pose proof (div_bounds (i * (len s + 1)) n Hn) as H1.
  pose proof (div_bounds ((i + 1) * (len s + 1)) n Hn) as H2.
  pose proof (rank_bounds (len s) n i Hld) as B1.
  pose proof (rank_bounds (len s) n (i + 1) Hld) as B2.
  assert (Hq : i * (len s + 1) / n <= (i + 1) * (len s + 1) / n).
  { apply Z.div_le_mono; [exact Hn | nia]. }
  destruct (Z.eq_dec (rank (len s) n i) (rank (len s) n (i + 1))) as [E | N].
  - unfold cut. cbv zeta. rewrite E.
    apply lerp_mono; [|exact Hn|exact Hn|nia].
    apply item_mono; [exact Hs|lia|lia].
  - assert (Hlt : rank (len s) n i < rank (len s) n (i + 1))
      by (unfold rank in *; lia).
    apply Qcle_trans with (item s (rank (len s) n i)).
    { unfold cut. cbv zeta. apply lerp_upper; [|exact Hn|].
      - apply item_mono; [exact Hs|lia|lia].
      - unfold rank in *. nia. }
    apply Qcle_trans with (item s (rank (len s) n (i + 1) - 1)).
    { apply item_mono; [exact Hs|lia|lia]. }
    unfold cut. cbv zeta. apply lerp_lower; [|exact Hn|].
    + apply item_mono; [exact Hs|lia|lia].
    + unfold rank in *. nia.
Qed.

Lemma offsets_cons (lo : Z) (k : nat) :
  map (fun j => lo + Z.of_nat j) (seq 0 (S k))
  = lo :: map (fun j => (lo + 1) + Z.of_nat j) (seq 0 k).
Proof.
  cbn [seq map]. f_equal; [lia|].
  rewrite <- seq_shift, map_map. apply map_ext. intro j. lia.
Qed.

Lemma cuts_sorted (s : list Qc) (n : Z) (k : nat) :
  StronglySorted Qcle s -> 2 <= len s -> 0 < n ->
  forall lo,
  Sorted Qcle (map (cut s n) (map (fun j => lo + Z.of_nat j) (seq 0 k))).
Proof.
  intros Hs Hld Hn. induction k as [|k IH]; intro lo.
  - constructor.
  - rewrite offsets_cons. cbn [map]. constructor; [apply IH|].
    destruct k as [|k]; [constructor|].
    rewrite offsets_cons. cbn [map]. constructor.
    apply cut_step; assumption.
Qed.

(** ** Scheduling *)

(** X19: what a load test reports does not depend on scheduling: on the
    same probes and clock readings the thread-pool driver returns the same
    result for every order in which the futures complete, and that result
    is the one of the cooperative driver. *)
Theorem X19_scheduling_independent (service_name url endpoint : string)
    (num_requests : Z) (w : world) (order order' : list nat) :
  1 <= num_requests ->
  Permutation order (seq 0 (Z.to_nat num_requests)) ->
  Permutation order' (seq 0 (Z.to_nat num_requests)) ->
  test_concurrent_sync service_name url endpoint num_requests
    (with_completion w order)
  = test_concurrent_sync service_name url endpoint num_requests
      (with_completion w order')
  /\ test_concurrent_sync service_name url endpoint num_requests
       (with_completion w order)
     = test_concurrent_async service_name url endpoint num_requests w.
Proof.
  intros HN HP HP'.
  assert (H : forall o, Permutation o (seq 0 (Z.to_nat num_requests)) ->
            test_concurrent_sync service_name url endpoint num_requests
              (with_completion w o)
            = test_concurrent_async service_name url endpoint num_requests w).
  { intros o Ho.
    rewrite (drivers_agree_on_a_world _ _ _ _ (with_completion w o) HN Ho).
    reflexivity. }
  split; [rewrite (H _ HP), (H _ HP'); reflexivity | apply H; exact HP].
Qed.

Lemma order_120 : Permutation [1; 2; 0]%nat (seq 0 (Z.to_nat 3)).
Proof.
  apply perm_trans with [1; 0; 2]%nat.
  - apply perm_skip. apply perm_swap.
  - apply perm_swap.
Defined.

Lemma X19_witness :
  1 <= 3 /\ Permutation [2; 0; 1]%nat (seq 0 (Z.to_nat 3))
  /\ Permutation [1; 2; 0]%nat (seq 0 (Z.to_nat 3))
  /\ test_concurrent_sync "quart-native" "http://localhost:5004" "/parallel" 3
       (with_completion mixed_run [2; 0; 1]%nat)
     = test_concurrent_sync "quart-native" "http://localhost:5004" "/parallel" 3
         (with_completion mixed_run [1; 2; 0]%nat).
Proof.
  split; [exact one_le_three|]. split; [exact mixed_completion|].
  split; [exact order_120|].
  exact (proj1 (X19_scheduling_independent "quart-native" "http://localhost:5004"
                  "/parallel" 3 mixed_run _ _ one_le_three mixed_completion
                  order_120)).
Defined.

(** ** Sequences of [add_result] *)

Lemma triple_eqb_true (s e t s' e' t' : string) :
  (String.eqb s s' && String.eqb e e' && String.eqb t t')%bool = true
  <-> (s, e, t) = (s', e', t').
Proof.
  rewrite !andb_true_iff, !String.eqb_eq. split.
  - intros [[-> ->] ->]. reflexivity.
  - intro H. injection H as -> -> ->. repeat split.
Qed.

Lemma entry_add_all (l : list posting) :
  forall (results : store) (service endpoint test_name : string),
  entry (add_all l results) service endpoint test_name
  = match posted l service endpoint test_name with
    | Some d => Some d
    | None => entry results service endpoint test_name
    end.
Proof.
  induction l as [|[[[s e] t] d] l IH]; intros results service endpoint test_name.
  - reflexivity.
  - cbn [add_all fold_left posted]. fold (add_all l (add_result results s e t d)).
    rewrite IH.
    destruct (posted l service endpoint test_name) as [d'|]; [reflexivity|].
    destruct (String.eqb s service && String.eqb e endpoint
              && String.eqb t test_name)%bool eqn:E.
    + apply triple_eqb_true in E. injection E as <- <- <-.
      apply entry_add_result_same.
    + apply entry_add_result_other. intro H. symmetry in H.
      apply triple_eqb_true in H. congruence.
Qed.

Lemma add_all_app (l1 l2 : list posting) (results : store) :
  add_all (l1 ++ l2) results = add_all l2 (add_all l1 results).
Proof. unfold add_all. apply fold_left_app. Qed.

Lemma add_all_well_formed (l : list posting) :
  forall results, well_formed results -> well_formed (add_all l results).
Proof.
  induction l as [|[[[s e] t] d] l IH]; intros results H.
  - exact H.
  - cbn [add_all fold_left]. fold (add_all l (add_result results s e t d)).
    apply IH. rewrite add_result_at_key. destruct H as [Hu Hf]. split.
    + apply unique_keys_at_key. exact Hu.
    + apply (Forall_at_key
               (fun by_endpoint =>
                  unique_keys by_endpoint
                  /\ Forall (fun by_test => unique_keys (snd by_test)) by_endpoint));
        [split; constructor | | exact Hf].
      intros by_endpoint [Hu' Hf']. split.
      * apply unique_keys_at_key. exact Hu'.
      * apply (Forall_at_key (fun by_test => unique_keys by_test));
          [constructor | | exact Hf'].
        intros by_test Ht. apply unique_keys_dset. exact Ht.
Qed.

Lemma merge_results_add_all (sync_results async_results : store) :
  merge_results sync_results async_results
  = add_all (postings_of async_results) sync_results.
Proof.
  unfold merge_results, get_summary, items. revert sync_results.
  induction async_results as [|[service data] rest IH]; intro acc.
  - reflexivity.
  - cbn [fold_left postings_of flat_map]. rewrite add_all_app.
    fold (postings_of rest). rewrite <- IH. f_equal.
    clear IH rest. revert acc.
    induction data as [|[endpoint tests] data IH]; intro acc.
    + reflexivity.
    + cbn [fold_left flat_map]. rewrite add_all_app, <- IH. f_equal.
      clear IH data. revert acc.
      induction tests as [|[test_name result] tests IH]; intro acc.
      * reflexivity.
      * cbn [fold_left map add_all]. apply IH.
Qed.

Lemma posted_app (l1 l2 : list posting) (s e t : string) :
  posted (l1 ++ l2) s e t
  = match posted l2 s e t with
    | Some d => Some d
    | None => posted l1 s e t
    end.
Proof.
  induction l1 as [|[[[s0 e0] t0] d0] l1 IH].
  - cbn [app posted]. destruct (posted l2 s e t); reflexivity.
  - cbn [app posted]. rewrite IH.
    destruct (posted l2 s e t); [reflexivity|].
    reflexivity.
Qed.

Lemma posted_absent (l : list posting) (s e t : string) :
  (forall p, In p l -> fst (fst p) <> (s, e)) -> posted l s e t = None.
Proof.
  induction l as [|[[[s0 e0] t0] d0] l IH]; intro H.
  - reflexivity.
  - cbn [posted]. rewrite IH by (intros p Hp; apply H; right; exact Hp).
    destruct (String.eqb s0 s && String.eqb e0 e && String.eqb t0 t)%bool eqn:E;
      [|reflexivity].
    apply triple_eqb_true in E. injection E as -> -> ->.
    exfalso. apply (H (s, e, t, d0)); [left; reflexivity | reflexivity].
Qed.

Lemma posted_absent_key (l : list posting) (s e t : string) :
  ~ In (s, e, t) (map fst l) -> posted l s e t = None.
Proof.
  induction l as [|[[[s0 e0] t0] d0] l IH]; intro H.
  - reflexivity.
  - cbn [posted]. rewrite IH by (intro Hin; apply H; right; exact Hin).
    destruct (String.eqb s0 s && String.eqb e0 e && String.eqb t0 t)%bool eqn:E;
      [|reflexivity].
    apply triple_eqb_true in E. injection E as -> -> ->.
    exfalso. apply H. left. reflexivity.
Qed.

Lemma posted_tests (s e : string) (tests : pydict dict) (t : string) :
  unique_keys tests ->
  posted (map (fun '(test_name, result) => (s, e, test_name, result)) tests)
         s e t
  = dget tests t.
Proof.
  unfold unique_keys. induction tests as [|[t0 d0] tests IH]; intro H.
  - reflexivity.
  - cbn [map fst] in H. inversion H as [|? ? Hn Hu]; subst.
    cbn [map posted dget]. rewrite IH by exact Hu.
    rewrite !String.eqb_refl. cbn [andb].
    destruct (String.eqb t0 t) eqn:E.
    + apply String.eqb_eq in E. subst t0.
      apply dget_In in Hn. rewrite Hn. reflexivity.
    + destruct (dget tests t); reflexivity.
Qed.

Lemma posted_endpoints (s : string) (data : pydict (pydict dict))
    (e t : string) :
  unique_keys data ->
  Forall (fun by_test => unique_keys (snd by_test)) data ->
  posted (flat_map (fun '(endpoint, tests) =>
            map (fun '(test_name, result) => (s, endpoint, test_name, result))
                tests) data) s e t
  = match dget data e with
    | None => None
    | Some by_test => dget by_test t
    end.
Proof.
  unfold unique_keys. induction data as [|[e0 tests] data IH]; intros H Hf.
  - reflexivity.
  - cbn [map fst] in H. inversion H as [|? ? Hn Hu]; subst.
    inversion Hf as [|? ? Ht Hf']; subst. cbn [snd] in Ht.
    cbn [flat_map dget]. rewrite posted_app, IH by assumption.
    destruct (String.eqb e0 e) eqn:E.
    + apply String.eqb_eq in E. subst e0.
      apply dget_In in Hn. rewrite Hn. apply posted_tests. exact Ht.
    + assert (Hnone : posted (map (fun '(test_name, result) =>
                                     (s, e0, test_name, result)) tests) s e t
                      = None).
      { apply posted_absent. intros p Hp. apply in_map_iff in Hp.
        destruct Hp as ([t1 d1] & <- & _). cbn [fst]. intro H1.
        injection H1 as ->. rewrite String.eqb_refl in E. discriminate E. }
      rewrite Hnone. destruct (dget data e) as [by_test|]; [|reflexivity].
      destruct (dget by_test t); reflexivity.
Qed.

Lemma posted_postings_of (results : store) (s e t : string) :
  well_formed results -> posted (postings_of results) s e t = entry results s e t.
Proof.
  unfold well_formed, unique_keys, entry.
  induction results as [|[s0 data] results IH]; intros [H Hf].
  - reflexivity.
  - cbn [map fst] in H. inversion H as [|? ? Hn Hu]; subst.
    inversion Hf as [|? ? [Hd Ht] Hf']; subst. cbn [snd] in Hd, Ht.
    cbn [postings_of flat_map dget]. fold (postings_of results).
    rewrite posted_app, IH by (split; assumption).
    destruct (String.eqb s0 s) eqn:E.
    + apply String.eqb_eq in E. subst s0.
      apply dget_In in Hn. rewrite Hn. apply posted_endpoints; assumption.
    + assert (Hnone : posted (flat_map (fun '(endpoint, tests) =>
                          map (fun '(test_name, result) =>
                                 (s0, endpoint, test_name, result)) tests) data)
                        s e t = None).
      { apply posted_absent. intros p Hp. apply in_flat_map in Hp.
        destruct Hp as ([e1 tests1] & _ & Hp). apply in_map_iff in Hp.
        destruct Hp as ([t1 d1] & <- & _). cbn [fst]. intro H1.
        injection H1 as -> _. rewrite String.eqb_refl in E. discriminate E. }
      rewrite Hnone. destruct (dget results s) as [by_endpoint|]; [|reflexivity].
      destruct (dget by_endpoint e) as [by_test|]; [|reflexivity].
      destruct (dget by_test t); reflexivity.
Qed.

(** X20: the merge of [main] is an update of the sync results by the
    async results: a triple the async results hold gets their entry, every
    other triple keeps the entry of the sync results; the merged store is
    again well formed. *)
Theorem X20_merge_results_updates (sync_results async_results : store)
    (service endpoint test_name : string) :
  well_formed sync_results -> well_formed async_results ->
  entry (merge_results sync_results async_results) service endpoint test_name
  = match entry async_results service endpoint test_name with
    | Some d => Some d
    | None => entry sync_results service endpoint test_name
    end
  /\ well_formed (merge_results sync_results async_results).
Proof.
  intros Hs Ha. rewrite merge_results_add_all. split.
  - rewrite entry_add_all, posted_postings_of by exact Ha. reflexivity.
  - apply add_all_well_formed. exact Hs.
Qed.

Lemma posting_sync : well_formed
  (add_all [("quart-native", "/parallel", "concurrent_100", [])] empty_results).
Proof. apply add_all_well_formed. split; constructor. Defined.

Lemma posting_async : well_formed
  (add_all [("quart-native", "/parallel", "async_concurrent_100", [])]
           empty_results).
Proof. apply add_all_well_formed. split; constructor. Defined.

Lemma X20_witness :
  well_formed
    (add_all [("quart-native", "/parallel", "concurrent_100", [])] empty_results)
  /\ well_formed
       (add_all [("quart-native", "/parallel", "async_concurrent_100", [])]
                empty_results)
  /\ well_formed
       (merge_results
          (add_all [("quart-native", "/parallel", "concurrent_100", [])]
                   empty_results)
          (add_all [("quart-native", "/parallel", "async_concurrent_100", [])]
                   empty_results)).
Proof.
  split; [exact posting_sync|]. split; [exact posting_async|].
  exact (proj2 (X20_merge_results_updates _ _ "quart-native" "/parallel"
                  "concurrent_100" posting_sync posting_async)).
Defined.

(** ** The suites *)

Ltac binds_inv :=
  repeat match goal with
         | H : bind ?m _ = Ok _ |- _ =>
             let E := fresh "E" in
             destruct m eqn:E; cbn [bind] in H; [|discriminate H]
         | H : Ok _ = Ok ?x |- _ => is_var x; injection H as <-
         end.

Lemma suite_plan_calls (env : testbed) :
  map (fun call => fst call) (suite_calls env) = suite_plan.
Proof. reflexivity. Qed.

Lemma triple_dec (x y : string * string * string) : {x = y} + {x <> y}.
Proof. repeat decide equality; apply string_dec. Defined.

Lemma suite_plan_NoDup : NoDup suite_plan.
Proof.
  assert (E : nodup triple_dec suite_plan = suite_plan) by (vm_compute; reflexivity).
  rewrite <- E. apply NoDup_nodup.
Qed.

Lemma posted_In (l : list posting) (s e t : string) (d : dict) :
  NoDup (map fst l) -> In (s, e, t, d) l -> posted l s e t = Some d.
Proof.
  induction l as [|[[[s0 e0] t0] d0] l IH]; intros Hn Hin.
  - destruct Hin.
  - cbn [map fst] in Hn. inversion Hn as [|? ? Hnot Hn']; subst.
    cbn [posted]. destruct Hin as [Hin | Hin].
    + injection Hin as -> -> -> ->.
      rewrite posted_absent_key by exact Hnot.
      rewrite !String.eqb_refl. reflexivity.
    + rewrite (IH Hn' Hin). reflexivity.
Qed.

Lemma run_calls_app (c1 c2 : list (string * string * string * res dict))
    (results : store) :
  run_calls (c1 ++ c2) results
  = (results1 <- run_calls c1 results ;; run_calls c2 results1).
Proof.
  revert results. induction c1 as [|[[[s e] t] c] c1 IH]; intro results.
  - reflexivity.
  - cbn [app run_calls]. destruct c as [d | ex]; cbn [bind]; [apply IH | reflexivity].
Qed.

Lemma foldM_endpoints (service test_name : string) (call : string -> res dict)
    (l : list string) :
  forall results,
  foldM (fun acc endpoint =>
           result <- call endpoint ;;
           Ok (add_result acc service endpoint test_name result))
        l results
  = run_calls (map (fun endpoint => (service, endpoint, test_name, call endpoint))
                   l) results.
Proof.
  induction l as [|a l IH]; intro results.
  - reflexivity.
  - cbn [foldM map run_calls].
    destruct (call a) as [d | ex]; cbn [bind]; [apply IH | reflexivity].
Qed.

Lemma foldM_services_endpoints (test_name : string)
    (call : string -> string -> string -> res dict)
    (inner : list string) (l : list (string * string)) :
  forall results,
  foldM (fun acc '(service_name, url) =>
           foldM (fun acc endpoint =>
                    result <- call service_name url endpoint ;;
                    Ok (add_result acc service_name endpoint test_name result))
                 inner acc)
        l results
  = run_calls (flat_map (fun '(service_name, url) =>
                           map (fun endpoint =>
                                  (service_name, endpoint, test_name,
                                   call service_name url endpoint))
                               inner) l)
              results.
Proof.
  induction l as [|[service_name url] l IH]; intro results.
  - reflexivity.
  - cbn [foldM flat_map]. rewrite run_calls_app.
    rewrite (foldM_endpoints service_name test_name (call service_name url)).
    destruct (run_calls _ results) as [results1 | ex]; cbn [bind];
      [apply IH | reflexivity].
Qed.

Lemma foldM_services (endpoint test_name : string)
    (call : string -> string -> res dict) (l : list (string * string)) :
  forall results,
  foldM (fun acc '(service_name, url) =>
           result <- call service_name url ;;
           Ok (add_result acc service_name endpoint test_name result))
        l results
  = run_calls (map (fun '(service_name, url) =>
                      (service_name, endpoint, test_name,
                       call service_name url)) l)
              results.
Proof.
  induction l as [|[service_name url] l IH]; intro results.
  - reflexivity.
  - cbn [foldM map run_calls].
    destruct (call service_name url) as [d | ex]; cbn [bind];
      [apply IH | reflexivity].
Qed.

Lemma bind_ext {A B : Type} (m1 m2 : res A) (k1 k2 : A -> res B) :
  m1 = m2 -> (forall a, k1 a = k2 a) -> bind m1 k1 = bind m2 k2.
Proof. intros -> H. destruct m2; [apply H | reflexivity]. Qed.

Lemma bind_Ok {A : Type} (m : res A) : bind m (fun a => Ok a) = m.
Proof. destruct m; reflexivity. Qed.

Lemma run_calls_iff (calls : list (string * string * string * res dict)) :
  forall results results',
  run_calls calls results = Ok results'
  <-> Forall returns calls
      /\ results' = add_all (postings calls) results.
Proof.
  induction calls as [|[[[s e] t] c] calls IH]; intros results results'.
  - cbn [run_calls postings map add_all fold_left]. split.
    + intro H. injection H as <-. split; [constructor | reflexivity].
    + intros [_ ->]. reflexivity.
  - cbn [run_calls postings map add_all fold_left fst snd].
    fold (postings calls).
    fold (add_all (postings calls) (add_result results s e t (value_of c))).
    destruct c as [d | ex]; cbn [bind value_of].
    + rewrite IH. split.
      * intros [HF ->]. split; [|reflexivity].
        constructor; [exists d; reflexivity | exact HF].
      * intros [HF ->]. inversion HF; subst. split; [assumption | reflexivity].
    + split; [discriminate|].
      intros [HF _]. inversion HF as [|? ? [d Hd] _]; subst. discriminate Hd.
Qed.

Lemma run_benchmark_suite_calls (env : testbed) :
  run_benchmark_suite env = run_calls (suite_calls env) empty_results.
Proof.
  unfold run_benchmark_suite, suite_calls, items.
  rewrite run_calls_app. apply bind_ext.
  { exact (foldM_services_endpoints "single_request"
             (fun service_name url endpoint =>
                test_single_request service_name url endpoint
                  (single env url endpoint))
             ENDPOINTS SERVICES empty_results). }
  intro results1. rewrite run_calls_app. apply bind_ext.
  { exact (foldM_services_endpoints "concurrent_10"
             (fun service_name url endpoint =>
                test_concurrent_sync service_name url endpoint 10
                  (load env url endpoint 10))
             (firstn 2 ENDPOINTS) SERVICES results1). }
  intro results2. rewrite run_calls_app. apply bind_ext.
  { exact (foldM_services "/parallel" "concurrent_50"
             (fun service_name url =>
                test_concurrent_sync service_name url "/parallel" 50
                  (load env url "/parallel" 50))
             SERVICES results2). }
  intro results3. rewrite <- bind_Ok. apply bind_ext; [|reflexivity].
  exact (foldM_services "/parallel" "concurrent_100"
           (fun service_name url =>
              test_concurrent_sync service_name url "/parallel" 100
                (load env url "/parallel" 100))
           SERVICES results3).
Qed.

Lemma async_benchmark_suite_calls (env : testbed) :
  async_benchmark_suite env = run_calls (async_suite_calls env) empty_results.
Proof.
  unfold async_benchmark_suite, async_suite_calls, items.
  rewrite <- bind_Ok. apply bind_ext; [|reflexivity].
  exact (foldM_services "/parallel" "async_concurrent_100"
           (fun service_name url =>
              test_concurrent_async service_name url "/parallel" 100
                (async_load env url "/parallel" 100))
           SERVICES empty_results).
Qed.

Lemma keys_postings (calls : list (string * string * string * res dict)) :
  map fst (postings calls) = map fst calls.
Proof. unfold postings. rewrite map_map. reflexivity. Qed.

Lemma posted_Some_In (l : list posting) (s e t : string) (d : dict) :
  posted l s e t = Some d -> In (s, e, t) (map fst l).
Proof.
  intro H. destruct (in_dec triple_dec (s, e, t) (map fst l)) as [Hin | Hnot];
    [exact Hin|].
  rewrite posted_absent_key in H by exact Hnot. discriminate H.
Qed.

Lemma run_calls_entry (calls : list (string * string * string * res dict))
    (results : store) (s e t : string) (c : res dict) :
  NoDup (map fst calls) ->
  run_calls calls empty_results = Ok results ->
  In (s, e, t, c) calls ->
  exists d, c = Ok d /\ entry results s e t = Some d.
Proof.
  intros Hn H Hin. apply run_calls_iff in H. destruct H as [HF ->].
  rewrite Forall_forall in HF. destruct (HF _ Hin) as [d Hd]. cbn [snd] in Hd.
  exists d. split; [exact Hd|].
  rewrite entry_add_all.
  rewrite (posted_In (postings calls) s e t d).
  - reflexivity.
  - rewrite keys_postings. exact Hn.
  - unfold postings. apply in_map_iff. exists (s, e, t, c).
    split; [cbn [fst snd]; rewrite Hd; reflexivity | exact Hin].
Qed.

Lemma run_calls_domain (calls : list (string * string * string * res dict))
    (results : store) (s e t : string) :
  NoDup (map fst calls) ->
  run_calls calls empty_results = Ok results ->
  (exists d, entry results s e t = Some d) <-> In (s, e, t) (map fst calls).
Proof.
  intros Hn H. split.
  - intros [d Hd]. apply run_calls_iff in H. destruct H as [_ ->].
    rewrite entry_add_all in Hd.
    destruct (posted (postings calls) s e t) as [d'|] eqn:E; [|discriminate Hd].
    apply posted_Some_In in E. rewrite keys_postings in E. exact E.
  - intro Hin. apply in_map_iff in Hin. destruct Hin as ([k c] & Hk & Hin).
    cbn [fst] in Hk. subst k.
    destruct (run_calls_entry calls results s e t c Hn H Hin) as (d & _ & Hd).
    exists d. exact Hd.
Qed.

Lemma suite_calls_NoDup (env : testbed) : NoDup (map fst (suite_calls env)).
Proof.
  change (map fst (suite_calls env)) with suite_plan. apply suite_plan_NoDup.
Qed.

(** X21: when [run_benchmark_suite] returns, the store holds, for every
    configured service, the outcome of its single probe of each endpoint
    under "single_request", the summaries of the runs of 10 requests
    against the first two endpoints under "concurrent_10", and the
    summaries of the runs of 50 and 100 requests against "/parallel" under
    "concurrent_50" and "concurrent_100". *)
Theorem X21_suite_entries (env : testbed) (results : store)
    (service_name url : string) :
  run_benchmark_suite env = Ok results ->
  In (service_name, url) SERVICES ->
  (forall endpoint, In endpoint ENDPOINTS ->
     exists d, test_single_request service_name url endpoint
                 (single env url endpoint) = Ok d
               /\ entry results service_name endpoint "single_request" = Some d)
  /\ (forall endpoint, In endpoint (firstn 2 ENDPOINTS) ->
        exists d, test_concurrent_sync service_name url endpoint 10
                    (load env url endpoint 10) = Ok d
                  /\ entry results service_name endpoint "concurrent_10" = Some d)
  /\ (exists d, test_concurrent_sync service_name url "/parallel" 50
                  (load env url "/parallel" 50) = Ok d
                /\ entry results service_name "/parallel" "concurrent_50" = Some d)
  /\ (exists d, test_concurrent_sync service_name url "/parallel" 100
                  (load env url "/parallel" 100) = Ok d
                /\ entry results service_name "/parallel" "concurrent_100" = Some d).
Proof.
  intros H Hin. rewrite run_benchmark_suite_calls in H.
  assert (Hcall : forall s e t c, In (s, e, t, c) (suite_calls env) ->
                    exists d, c = Ok d /\ entry results s e t = Some d).
  { intros s e t c. apply run_calls_entry; [apply suite_calls_NoDup | exact H]. }
  split; [|split; [|split]].
  - intros endpoint He. apply Hcall. unfold suite_calls.
    apply in_or_app. left. apply in_flat_map.
    exists (service_name, url). split; [exact Hin|].
    apply in_map_iff. exists endpoint. split; [reflexivity | exact He].
  - intros endpoint He. apply Hcall. unfold suite_calls.
    apply in_or_app. right. apply in_or_app. left. apply in_flat_map.
    exists (service_name, url). split; [exact Hin|].
    apply in_map_iff. exists endpoint. split; [reflexivity | exact He].
  - apply Hcall. unfold suite_calls.
    apply in_or_app. right. apply in_or_app. right. apply in_or_app. left.
    apply in_map_iff. exists (service_name, url). split; [reflexivity | exact Hin].
  - apply Hcall. unfold suite_calls.
    apply in_or_app. right. apply in_or_app. right. apply in_or_app. right.
    apply in_map_iff. exists (service_name, url). split; [reflexivity | exact Hin].
Qed.

(** X22: the store [run_benchmark_suite] returns holds an entry for the
    triples of its plan and for no other triple: single requests for the
    five endpoints, 10 concurrent requests for "/parallel" and "/multi-io",
    50 and 100 concurrent requests for "/parallel" only. *)
Theorem X22_suite_domain (env : testbed) (results : store)
    (service endpoint test_name : string) :
  run_benchmark_suite env = Ok results ->
  (exists d, entry results service endpoint test_name = Some d)
  <-> In (service, endpoint, test_name) suite_plan.
Proof.
  intro H. rewrite run_benchmark_suite_calls in H.
  apply (run_calls_domain _ _ service endpoint test_name (suite_calls_NoDup env) H).
Qed.

Lemma suite_calls_return (env : testbed) :
  Forall returns (suite_calls env)
  <-> forall service_name url, In (service_name, url) SERVICES ->
      (forall endpoint, In endpoint (firstn 2 ENDPOINTS) ->
         exists d, test_concurrent_sync service_name url endpoint 10
                     (load env url endpoint 10) = Ok d)
      /\ (exists d, test_concurrent_sync service_name url "/parallel" 50
                      (load env url "/parallel" 50) = Ok d)
      /\ (exists d, test_concurrent_sync service_name url "/parallel" 100
                      (load env url "/parallel" 100) = Ok d).
Proof.
  unfold suite_calls, items. rewrite !Forall_app, !Forall_flat_map, !Forall_map.
  rewrite !Forall_forall. split.
  - intros (_ & H10 & H50 & H100) service_name url Hin.
    specialize (H10 _ Hin). specialize (H50 _ Hin). specialize (H100 _ Hin).
    cbn beta iota in H10, H50, H100.
    rewrite Forall_map, Forall_forall in H10.
    split; [|split]; [exact H10 | exact H50 | exact H100].
  - intro H. split; [|split; [|split]].
    + intros [service_name url] _. rewrite Forall_map, Forall_forall.
      intros endpoint _. unfold returns. cbn [snd].
      destruct (test_single_request_outcome service_name url endpoint
                  (single env url endpoint)) as (d & Hd & _).
      exists d. exact Hd.
    + intros [service_name url] Hin. rewrite Forall_map, Forall_forall.
      apply (H _ _ Hin).
    + intros [service_name url] Hin. apply (H _ _ Hin).
    + intros [service_name url] Hin. apply (H _ _ Hin).
Qed.

(** X23: [run_benchmark_suite] returns a store exactly when every one of
    its load tests returns a summary; one load test that raises (a run
    with a success and a total time of zero) makes the whole suite raise. *)
Theorem X23_suite_returns (env : testbed) :
  (exists results, run_benchmark_suite env = Ok results)
  <-> forall service_name url, In (service_name, url) SERVICES ->
      (forall endpoint, In endpoint (firstn 2 ENDPOINTS) ->
         exists d, test_concurrent_sync service_name url endpoint 10
                     (load env url endpoint 10) = Ok d)
      /\ (exists d, test_concurrent_sync service_name url "/parallel" 50
                      (load env url "/parallel" 50) = Ok d)
      /\ (exists d, test_concurrent_sync service_name url "/parallel" 100
                      (load env url "/parallel" 100) = Ok d).
Proof.
  rewrite <- suite_calls_return, run_benchmark_suite_calls. split.
  - intros [results H]. apply run_calls_iff in H. apply H.
  - intro H. eexists. apply run_calls_iff. split; [exact H | reflexivity].
Qed.

Lemma load_test_returns (service_name url endpoint : string)
    (num_requests : Z) (w : world) :
  1 <= num_requests -> run_end w <> run_start w ->
  exists d, test_concurrent_sync service_name url endpoint num_requests w = Ok d.
Proof.
  intros HN Ht.
  pose proof (sync_collect_collected service_name url endpoint num_requests w HN) as E.
  pose proof (collected_errors_nonneg
                (as_completed (launched w num_requests) (completion w))) as He.
  destruct (collected _) as [ds es]. cbn [snd] in He.
  rewrite (test_concurrent_sync_summary _ _ _ _ _ _ _ E).
  apply sync_summary_returns; [exact He|]. right. apply Qcminus_neq_0. exact Ht.
Qed.

Lemma async_load_test_returns (service_name url endpoint : string)
    (num_requests : Z) (w : world) :
  run_end w <> run_start w ->
  exists d, test_concurrent_async service_name url endpoint num_requests w = Ok d.
Proof.
  intro Ht. rewrite async_run_summary.
  apply sync_summary_returns; [apply collected_errors_nonneg|].
  right. apply Qcminus_neq_0. exact Ht.
Qed.

Lemma quiet_suite_returns :
  exists results, run_benchmark_suite quiet_bed = Ok results.
Proof.
  rewrite run_benchmark_suite_calls. eexists. apply run_calls_iff.
  split; [|reflexivity]. apply suite_calls_return.
  intros service_name url _.
  split; [|split]; intros; apply load_test_returns;
    try (apply Z.leb_le; reflexivity); discriminate.
Qed.

Lemma quart_configured : In ("quart-native", "http://localhost:5004") SERVICES.
Proof. right. right. right. left. reflexivity. Defined.

Lemma X21_witness :
  exists results,
    run_benchmark_suite quiet_bed = Ok results
    /\ In ("quart-native", "http://localhost:5004") SERVICES
    /\ exists d, test_concurrent_sync "quart-native" "http://localhost:5004"
                   "/parallel" 100
                   (load quiet_bed "http://localhost:5004" "/parallel" 100) = Ok d
                 /\ entry results "quart-native" "/parallel" "concurrent_100"
                    = Some d.
Proof.
  destruct quiet_suite_returns as [results H]. exists results.
  split; [exact H|]. split; [exact quart_configured|].
  exact (proj2 (proj2 (proj2
    (X21_suite_entries quiet_bed results "quart-native" "http://localhost:5004"
       H quart_configured)))).
Defined.

Lemma X22_witness :
  exists results,
    run_benchmark_suite quiet_bed = Ok results
    /\ ((exists d, entry results "quart-native" "/slow" "concurrent_100" = Some d)
        <-> In ("quart-native", "/slow", "concurrent_100") suite_plan).
Proof.
  destruct quiet_suite_returns as [results H]. exists results.
  split; [exact H|].
  exact (X22_suite_domain quiet_bed results "quart-native" "/slow"
           "concurrent_100" H).
Defined.

(** ** [main] *)

Lemma main_reported (now : Qc) (health_of : string -> list attempt)
    (env : testbed) (results : store) :
  main now health_of env = Reported results ->
  wait_for_all_services now health_of = Some true
  /\ exists sync_results async_results,
       run_calls (suite_calls env) empty_results = Ok sync_results
       /\ run_calls (async_suite_calls env) empty_results = Ok async_results
       /\ results = merge_results sync_results async_results.
Proof.
  unfold main. rewrite run_benchmark_suite_calls, async_benchmark_suite_calls.
  destruct (wait_for_all_services now health_of) as [[|]|]; try discriminate.
  destruct (run_calls (suite_calls env) empty_results) as [sr|]; [|discriminate].
  destruct (run_calls (async_suite_calls env) empty_results) as [ar|];
    [|discriminate].
  intro H. injection H as <-. split; [reflexivity|].
  exists sr, ar. repeat split.
Qed.

Lemma run_calls_well_formed
    (calls : list (string * string * string * res dict)) (results : store) :
  run_calls calls empty_results = Ok results -> well_formed results.
Proof.
  intro H. apply run_calls_iff in H. destruct H as [_ ->].
  apply add_all_well_formed. split; constructor.
Qed.

Lemma async_plan_NoDup (env : testbed) : NoDup (map fst (async_suite_calls env)).
Proof.
  change (map fst (async_suite_calls env)) with async_plan.
  assert (E : nodup triple_dec async_plan = async_plan) by (vm_compute; reflexivity).
  rewrite <- E. apply NoDup_nodup.
Qed.

Lemma merged_entry (sync_results async_results : store) (s e t : string) :
  well_formed async_results ->
  entry (merge_results sync_results async_results) s e t
  = match entry async_results s e t with
    | Some d => Some d
    | None => entry sync_results s e t
    end.
Proof.
  intro Ha. rewrite merge_results_add_all, entry_add_all, posted_postings_of
    by exact Ha.
  reflexivity.
Qed.

Lemma absent_entry (calls : list (string * string * string * res dict))
    (results : store) (s e t : string) :
  NoDup (map fst calls) ->
  run_calls calls empty_results = Ok results ->
  ~ In (s, e, t) (map fst calls) -> entry results s e t = None.
Proof.
  intros Hn H Hnot. destruct (entry results s e t) as [d|] eqn:E; [|reflexivity].
  exfalso. apply Hnot.
  apply (run_calls_domain calls results s e t Hn H). exists d. exact E.
Qed.

(** X24: when [main] reaches its report writers, the gate had returned
    True and the store it hands over is well formed and holds, for every
    configured service, under "/parallel" both the summary of the
    thread-pool run of 100 requests ("concurrent_100") and the summary of
    the cooperative run ("async_concurrent_100"). *)
Theorem X24_main_reports (now : Qc) (health_of : string -> list attempt)
    (env : testbed) (results : store) (service_name url : string) :
  main now health_of env = Reported results ->
  In (service_name, url) SERVICES ->
  wait_for_all_services now health_of = Some true
  /\ well_formed results
  /\ (exists d, test_concurrent_sync service_name url "/parallel" 100
                  (load env url "/parallel" 100) = Ok d
                /\ entry results service_name "/parallel" "concurrent_100" = Some d)
  /\ (exists d, test_concurrent_async service_name url "/parallel" 100
                  (async_load env url "/parallel" 100) = Ok d
                /\ entry results service_name "/parallel" "async_concurrent_100"
                   = Some d).
Proof.
  intros H Hin. apply main_reported in H.
  destruct H as (Hgate & sr & ar & Hs & Ha & ->).
  pose proof (run_calls_well_formed _ _ Hs) as Ws.
  pose proof (run_calls_well_formed _ _ Ha) as Wa.
  split; [exact Hgate|]. split.
  { rewrite merge_results_add_all. apply add_all_well_formed. exact Ws. }
  split.
  - destruct (run_calls_entry _ _ service_name "/parallel" "concurrent_100"
                (test_concurrent_sync service_name url "/parallel" 100
                   (load env url "/parallel" 100))
                (suite_calls_NoDup env) Hs) as (d & Hd & He).
    { unfold suite_calls.
      apply in_or_app. right. apply in_or_app. right. apply in_or_app. right.
      apply in_map_iff. exists (service_name, url).
      split; [reflexivity | exact Hin]. }
    exists d. split; [exact Hd|].
    rewrite merged_entry by exact Wa.
    rewrite (absent_entry _ _ _ _ _ (async_plan_NoDup env) Ha); [exact He|].
    change (map fst (async_suite_calls env)) with async_plan.
    cbn. intuition discriminate.
  - destruct (run_calls_entry _ _ service_name "/parallel" "async_concurrent_100"
                (test_concurrent_async service_name url "/parallel" 100
                   (async_load env url "/parallel" 100))
                (async_plan_NoDup env) Ha) as (d & Hd & He).
    { unfold async_suite_calls. apply in_map_iff. exists (service_name, url).
      split; [reflexivity | exact Hin]. }
    exists d. split; [exact Hd|].
    rewrite merged_entry by exact Wa. rewrite He. reflexivity.
Qed.

Lemma quiet_main_reports :
  exists results, main (frac 0 1) all_healthy quiet_bed = Reported results.
Proof.
  unfold main.
  assert (Hg : wait_for_all_services (frac 0 1) all_healthy = Some true)
    by reflexivity.
  rewrite Hg. destruct quiet_suite_returns as [sr ->].
  assert (Ha : exists ar, async_benchmark_suite quiet_bed = Ok ar).
  { rewrite async_benchmark_suite_calls. eexists. apply run_calls_iff.
    split; [|reflexivity]. unfold async_suite_calls, items.
    rewrite Forall_map, Forall_forall. intros [service_name url] _.
    apply async_load_test_returns. discriminate. }
  destruct Ha as [ar ->]. eexists. reflexivity.
Qed.

Lemma X24_witness :
  exists results,
    main (frac 0 1) all_healthy quiet_bed = Reported results
    /\ In ("quart-native", "http://localhost:5004") SERVICES
    /\ wait_for_all_services (frac 0 1) all_healthy = Some true
    /\ well_formed results.
Proof.
  destruct quiet_main_reports as [results H]. exists results.
  split; [exact H|]. split; [exact quart_configured|].
  destruct (X24_main_reports (frac 0 1) all_healthy quiet_bed results
              "quart-native" "http://localhost:5004" H quart_configured)
    as (Hg & Hw & _).
  split; [exact Hg | exact Hw].
Defined.

(** ** What the plots find in the report *)

Lemma metric_of_entry (results : store) (s e t m : string) (d : dict) :
  entry results s e t = Some d -> metric_of results s e t m = getkey d m.
Proof.
  unfold entry, metric_of, subscript. intro H.
  destruct (dget results s) as [by_endpoint|]; [|discriminate H]. cbn [bind].
  destruct (dget by_endpoint e) as [by_test|]; [|discriminate H]. cbn [bind].
  rewrite H. reflexivity.
Qed.

Lemma metric_of_absent (results : store) (s e t t' m : string) (d : dict) :
  entry results s e t' = Some d -> entry results s e t = None ->
  metric_of results s e t m = Raise (KeyError t).
Proof.
  unfold entry, metric_of, subscript. intros H' H.
  destruct (dget results s) as [by_endpoint|]; [|discriminate H']. cbn [bind].
  destruct (dget by_endpoint e) as [by_test|]; [|discriminate H']. cbn [bind].
  rewrite H. reflexivity.
Qed.

Lemma not_In_by_dec (x : string * string * string)
    (l : list (string * string * string)) :
  (if in_dec triple_dec x l then false else true) = true -> ~ In x l.
Proof. destruct (in_dec triple_dec x l); [discriminate | intros _; assumption]. Qed.

Lemma reported_entry (now : Qc) (health_of : string -> list attempt)
    (env : testbed) (results : store) :
  main now health_of env = Reported results ->
  (forall s e t, ~ In (s, e, t) suite_plan -> ~ In (s, e, t) async_plan ->
                 entry results s e t = None)
  /\ (forall service_name url endpoint,
        In (service_name, url) SERVICES -> In endpoint ENDPOINTS ->
        exists d, test_single_request service_name url endpoint
                    (single env url endpoint) = Ok d
                  /\ entry results service_name endpoint "single_request"
                     = Some d).
Proof.
  intro H. apply main_reported in H.
  destruct H as (_ & sr & ar & Hs & Ha & ->).
  pose proof (run_calls_well_formed _ _ Ha) as Wa.
  split.
  - intros s e t Hs' Ha'. rewrite merged_entry by exact Wa.
    rewrite (absent_entry _ _ _ _ _ (async_plan_NoDup env) Ha) by exact Ha'.
    apply (absent_entry _ _ _ _ _ (suite_calls_NoDup env) Hs). exact Hs'.
  - intros service_name url endpoint Hin He.
    destruct (run_calls_entry _ _ service_name endpoint "single_request"
                (test_single_request service_name url endpoint
                   (single env url endpoint))
                (suite_calls_NoDup env) Hs) as (d & Hd & Hentry).
    { unfold suite_calls. apply in_or_app. left. apply in_flat_map.
      exists (service_name, url). split; [exact Hin|].
      apply in_map_iff. exists endpoint. split; [reflexivity | exact He]. }
    exists d. split; [exact Hd|].
    rewrite merged_entry by exact Wa.
    rewrite (absent_entry _ _ _ _ _ (async_plan_NoDup env) Ha); [exact Hentry|].
    change (map fst (async_suite_calls env)) with async_plan.
    cbn. intuition discriminate.
Qed.

(** X25: on the store [main] writes to the report (taken as the JSON file
    gives it back) the concurrency plots of visual_benchmark.py find no
    data: they look up the tests "concurrent_10", "concurrent_50" and
    "concurrent_100" under the endpoint "/slow", for which test_all.py
    runs single requests only, so every lookup raises KeyError and every
    value plotted is the default 0. *)
Theorem X25_concurrency_plots_empty (now : Qc)
    (health_of : string -> list attempt) (env : testbed) (results : store)
    (service metric : string) :
  main now health_of env = Reported results ->
  In service LABELS_keys ->
  concurrent_series metric results service = Ok [VInt 0; VInt 0; VInt 0]
  /\ metric_of results service "/slow" "concurrent_100" metric
     = Raise (KeyError "concurrent_100").
Proof.
  intros H Hin. apply reported_entry in H. destruct H as [Habsent Hsingle].
  assert (Hurl : exists url, In (service, url) SERVICES).
  { cbn [LABELS_keys In] in Hin.
    destruct Hin as [<- | [<- | [<- | [<- | []]]]]; eexists; cbn; eauto 6. }
  destruct Hurl as [url Hurl].
  destruct (Hsingle service url "/slow" Hurl) as (d & _ & Hd).
  { cbn. auto 6. }
  assert (Hmiss : forall t, In t ["concurrent_10"; "concurrent_50"; "concurrent_100"] ->
            metric_of results service "/slow" t metric = Raise (KeyError t)).
  { intros t Ht. apply (metric_of_absent _ _ _ _ _ _ _ Hd).
    cbn [In] in Ht, Hin.
    apply Habsent; apply not_In_by_dec;
      destruct Hin as [<- | [<- | [<- | [<- | []]]]];
      destruct Ht as [<- | [<- | [<- | []]]]; vm_compute; reflexivity. }
  split.
  - unfold concurrent_series. cbn [mapM].
    rewrite !Hmiss by (cbn; auto). reflexivity.
  - apply Hmiss. cbn. auto.
Qed.

(** X26: on the same store the lookups of [plot_endpoint_comparison] all
    succeed: the latencies plotted for a service are the durations its
    single probes of "/slow", "/multi-io", "/cpu-intensive" and
    "/db-simulation" measured. *)
Theorem X26_endpoint_plot_data (now : Qc)
    (health_of : string -> list attempt) (env : testbed) (results : store)
    (service_name url : string) :
  main now health_of env = Reported results ->
  In (service_name, url) SERVICES ->
  endpoint_latencies results service_name
  = Ok (map (fun endpoint => VFloat (elapsed (single env url endpoint)))
            ["/slow"; "/multi-io"; "/cpu-intensive"; "/db-simulation"]).
Proof.
  intros H Hin. apply reported_entry in H. destruct H as [_ Hsingle].
  assert (Hm : forall endpoint, In endpoint ENDPOINTS ->
            metric_of results service_name endpoint "single_request" "duration"
            = Ok (VFloat (elapsed (single env url endpoint)))).
  { intros endpoint He.
    destruct (Hsingle service_name url endpoint Hin He) as (d & Hd & Hentry).
    rewrite (metric_of_entry _ _ _ _ _ _ Hentry).
    destruct (test_single_request_outcome service_name url endpoint
                (single env url endpoint)) as (d' & Hd' & _ & Hdur).
    rewrite Hd in Hd'. injection Hd' as <-. exact Hdur. }
  unfold endpoint_latencies. cbn [mapM map].
  rewrite !Hm by (cbn; auto 6). reflexivity.
Qed.

Lemma quart_labelled : In "quart-native" LABELS_keys.
Proof. right. right. right. left. reflexivity. Defined.

Lemma X25_witness :
  exists results,
    main (frac 0 1) all_healthy quiet_bed = Reported results
    /\ In "quart-native" LABELS_keys
    /\ concurrent_series "total_time" results "quart-native"
       = Ok [VInt 0; VInt 0; VInt 0].
Proof.
  destruct quiet_main_reports as [results H]. exists results.
  split; [exact H|]. split; [exact quart_labelled|].
  exact (proj1 (X25_concurrency_plots_empty (frac 0 1) all_healthy quiet_bed
                  results "quart-native" "total_time" H quart_labelled)).
Defined.

Lemma X26_witness :
  exists results,
    main (frac 0 1) all_healthy quiet_bed = Reported results
    /\ In ("quart-native", "http://localhost:5004") SERVICES
    /\ endpoint_latencies results "quart-native"
       = Ok (map (fun endpoint =>
                    VFloat (elapsed (single quiet_bed "http://localhost:5004"
                                       endpoint)))
                 ["/slow"; "/multi-io"; "/cpu-intensive"; "/db-simulation"]).
Proof.
  destruct quiet_main_reports as [results H]. exists results.
  split; [exact H|]. split; [exact quart_configured|].
  exact (X26_endpoint_plot_data (frac 0 1) all_healthy quiet_bed results
           "quart-native" "http://localhost:5004" H quart_configured).
Defined.

(** ** A service that stays down *)

Lemma gather_returns (tasks : list (option bool)) :
  (forall t, In t tasks -> t <> None) ->
  exists results, gather tasks = Some results
                  /\ (In (Some false) tasks ->
                      forallb (fun r => r) results = false).
Proof.
  induction tasks as [|[r|] tasks IH]; intro H.
  - exists []. split; [reflexivity | intros []].
  - destruct IH as (rs & E & Hf); [intros t Ht; apply H; right; exact Ht|].
    exists (r :: rs). cbn [gather]. rewrite E. split; [reflexivity|].
    intros [Hin | Hin]; cbn [forallb].
    + injection Hin as ->. reflexivity.
    + rewrite (Hf Hin). apply andb_false_r.
  - exfalso. apply (H None); [left|]; reflexivity.
Qed.

(** X27: a configured service that stays down keeps [main] from running
    anything: if every GET of its health endpoint raises for at least the
    60 attempts the default timeout allows, and the poll loops of the other
    services end, [main] ends on "not ready", whatever the benchmarks would
    have met. *)
Theorem X27_service_down_nothing_runs (now : Qc)
    (health_of : string -> list attempt) (env : testbed)
    (service_name url : string) :
  In (service_name, url) SERVICES ->
  Forall (fun a => (0 <= took a)%Qc /\ raised a = true) (health_of url) ->
  default_timeout <= len (health_of url) ->
  (forall name' url', In (name', url') SERVICES ->
     returned (wait_for_service url' default_timeout now (health_of url'))
     <> None) ->
  wait_for_all_services now health_of = Some false
  /\ main now health_of env = NotReady.
Proof.
  intros Hin Hdown Hlen Hothers.
  assert (Hgate : wait_for_all_services now health_of = Some false).
  { unfold wait_for_all_services.
    destruct (gather_returns
                (map (fun url => returned (wait_for_service url default_timeout now
                                             (health_of url)))
                     (values SERVICES))) as (results & E & Hf).
    - intros t Ht. apply in_map_iff in Ht. destruct Ht as (url' & <- & Hurl).
      unfold values in Hurl. apply in_map_iff in Hurl.
      destruct Hurl as ([name' url''] & <- & Hs). apply (Hothers name' _ Hs).
    - rewrite E, Hf; [reflexivity|].
      apply in_map_iff. exists url. split.
      + unfold wait_for_service.
        destruct (poll_loop_down default_timeout now (health_of url) Hdown now 0)
          as [Hr _]; [|lia|exact Hr].
        replace (now - now)%Qc with 0%Qc by ring. apply Qcle_refl.
      + unfold values. apply (in_map snd) in Hin. exact Hin. }
  split; [exact Hgate|]. unfold main. rewrite Hgate. reflexivity.
Qed.

Lemma quart_down_is_down :
  Forall (fun a => (0 <= took a)%Qc /\ raised a = true)
         (quart_down "http://localhost:5004").
Proof.
  apply Forall_forall. intros a Ha. apply repeat_spec in Ha. subst a.
  split; [intro H; discriminate H | reflexivity].
Defined.

Lemma quart_down_long : default_timeout <= len (quart_down "http://localhost:5004").
Proof. apply Z.leb_le. reflexivity. Defined.

Lemma quart_down_gates_end (name' url' : string) :
  In (name', url') SERVICES ->
  returned (wait_for_service url' default_timeout (frac 0 1) (quart_down url'))
  <> None.
Proof.
  intros [H|[H|[H|[H|[]]]]]; injection H as <- <-; vm_compute; discriminate.
Defined.

Lemma X27_witness :
  wait_for_all_services (frac 0 1) quart_down = Some false
  /\ main (frac 0 1) quart_down quiet_bed = NotReady.
Proof.
  exact (X27_service_down_nothing_runs (frac 0 1) quart_down quiet_bed
           "quart-native" "http://localhost:5004"
           (or_intror (or_intror (or_intror (or_introl eq_refl))))
           quart_down_is_down quart_down_long quart_down_gates_end).
Defined.

(** ** The request counters of the applications *)

Lemma total_dset (d : pydict Z) (k : string) (v : Z) :
  flask_wsgi.total (dset d k v)
  = flask_wsgi.total d - flask_wsgi.get d k 0 + v.
Proof.
  unfold flask_wsgi.total, flask_wsgi.get, values.
  induction d as [|[k' v'] d IH]; simpl.
  - lia.
  - destruct (String.eqb k' k); simpl; [lia|]. rewrite IH. lia.
Qed.

Lemma count_app (served : list string) (name e : string) :
  flask_wsgi.count (served ++ [name]) e
  = flask_wsgi.count served e + (if String.eqb e name then 1 else 0).
Proof.
  unfold flask_wsgi.count, len. rewrite filter_app, length_app. simpl.
  destruct (String.eqb e name); simpl; lia.
Qed.

Lemma count_nonneg (served : list string) (e : string) :
  0 <= flask_wsgi.count served e.
Proof. unfold flask_wsgi.count, len. lia. Qed.

Lemma after_requests_app (now : Qc) (served : list string) (name : string) :
  flask_wsgi.after_requests now (served ++ [name])
  = flask_wsgi.track_request (flask_wsgi.after_requests now served) name.
Proof. unfold flask_wsgi.after_requests. rewrite fold_left_app. reflexivity. Qed.

Lemma after_requests_start (now : Qc) (served : list string) :
  flask_wsgi.start_time (flask_wsgi.after_requests now served) = now.
Proof.
  induction served as [|name served IH] using rev_ind; [reflexivity|].
  rewrite after_requests_app. exact IH.
Qed.

(** X28: the request counters after any sequence of requests handled one
    after the other: [requests_total] is the number of requests, an endpoint
    has a counter exactly when it was requested and the counter is the number
    of its requests, the counters add up to [requests_total], and no endpoint
    is listed twice; /metrics reports these, with a rate that is the total
    over the uptime when the clock advanced and the integer 0 otherwise. *)
Theorem X28_request_counters (start : Qc) (served : list string)
    (pid : Z) (now : Qc) :
  let m := flask_wsgi.after_requests start served in
  let json := flask_wsgi.get_metrics m pid now in
  flask_wsgi.json_requests_total json = len served
  /\ (forall e,
        dget (flask_wsgi.json_requests_by_endpoint json) e
        = if flask_wsgi.count served e =? 0 then None
          else Some (flask_wsgi.count served e))
  /\ flask_wsgi.total (flask_wsgi.json_requests_by_endpoint json)
     = flask_wsgi.json_requests_total json
  /\ unique_keys (flask_wsgi.json_requests_by_endpoint json)
  /\ flask_wsgi.requests_per_second json
     = if Qcltb 0 (now - start)
       then VFloat (of_int (len served) / (now - start))
       else VInt 0.
Proof.
  cbv zeta. unfold flask_wsgi.get_metrics.
  cbn [flask_wsgi.json_requests_total flask_wsgi.json_requests_by_endpoint
       flask_wsgi.requests_per_second].
  rewrite after_requests_start.
  assert (H : flask_wsgi.requests_total (flask_wsgi.after_requests start served)
              = len served
              /\ (forall e,
                    dget (flask_wsgi.requests_by_endpoint
                            (flask_wsgi.after_requests start served)) e
                    = if flask_wsgi.count served e =? 0 then None
                      else Some (flask_wsgi.count served e))
              /\ flask_wsgi.total (flask_wsgi.requests_by_endpoint
                                     (flask_wsgi.after_requests start served))
                 = flask_wsgi.requests_total
                     (flask_wsgi.after_requests start served)
              /\ unique_keys (flask_wsgi.requests_by_endpoint
                                (flask_wsgi.after_requests start served))).
  { induction served as [|name served (Ht & Hc & Hs & Hu)] using rev_ind.
    - repeat split; [constructor].
    - rewrite after_requests_app.
      set (m := flask_wsgi.after_requests start served) in *.
      cbn [flask_wsgi.track_request flask_wsgi.requests_total
           flask_wsgi.requests_by_endpoint].
      split; [|split; [|split]].
      + rewrite Ht. unfold len. rewrite length_app. simpl. lia.
      + intro e. rewrite count_app.
        pose proof (count_nonneg served e) as Hn.
        destruct (String.eqb e name) eqn:E.
        * apply String.eqb_eq in E. subst e. rewrite dget_dset_same.
          unfold flask_wsgi.get. rewrite Hc.
          destruct (flask_wsgi.count served name =? 0) eqn:Z0.
          -- apply Z.eqb_eq in Z0. rewrite Z0. reflexivity.
          -- destruct (flask_wsgi.count served name + 1 =? 0) eqn:Z1;
               [apply Z.eqb_eq in Z1; lia | reflexivity].
        * apply String.eqb_neq in E.
          rewrite dget_dset_other by (intro H; apply E; symmetry; exact H).
          rewrite Z.add_0_r. apply Hc.
      + rewrite total_dset, Hs. lia.
      + apply unique_keys_dset. exact Hu. }
  destruct H as (Ht & Hc & Hs & Hu).
  rewrite Ht. repeat split; try assumption. rewrite Hs. exact Ht.
Qed.

(** ** The reports *)

(** The lines of a report, service by service. *)
Lemma mapM_guard {A B : Type} (f : A -> res B) (ok : A -> bool) (g : A -> B)
    (e : exn) (l : list A) :
  (forall x, f x = if ok x then Ok (g x) else Raise e) ->
  mapM f l = if forallb ok l then Ok (map g l) else Raise e.
Proof.
  intro H. induction l as [|x l IH]; [reflexivity|].
  cbn [mapM forallb map]. rewrite H.
  destruct (ok x); cbn [bind andb]; [|reflexivity].
  rewrite IH. destruct (forallb ok l); reflexivity.
Qed.

Lemma format_piece_fixed (v : pyval) (digits : Z) :
  format_piece (Fixed v digits)
  = if numeric v then Ok (Fixed v digits)
    else Raise (ValueError "Unknown format code 'f' for object of type 'str'").
Proof. destruct v; reflexivity. Qed.

Lemma formatted_comparison_line (service : string) (result : dict) :
  formatted (comparison_line service result)
  = if printable result then Ok (comparison_line service result)
    else Raise (ValueError "Unknown format code 'f' for object of type 'str'").
Proof.
  unfold formatted, comparison_line, printable.
  cbn [mapM]. rewrite !format_piece_fixed.
  destruct (numeric (get_or_zero result "total_time")); [|reflexivity].
  destruct (numeric (get_or_zero result "requests_per_second")); [|reflexivity].
  destruct (numeric (get_or_zero result "p95_latency")); [|reflexivity].
  destruct (numeric (get_or_zero result "p99_latency")); reflexivity.
Qed.

Lemma formatted_markdown_row (service : string) (result : dict) :
  formatted (markdown_row service result)
  = if printable result then Ok (markdown_row service result)
    else Raise (ValueError "Unknown format code 'f' for object of type 'str'").
Proof.
  unfold formatted, markdown_row, printable.
  cbn [mapM]. rewrite !format_piece_fixed.
  destruct (numeric (get_or_zero result "total_time")); [|reflexivity].
  destruct (numeric (get_or_zero result "requests_per_second")); [|reflexivity].
  destruct (numeric (get_or_zero result "p95_latency")); [|reflexivity].
  destruct (numeric (get_or_zero result "p99_latency")); reflexivity.
Qed.

Lemma for_each_result_items (results : store) (endpoint test_name : string)
    (body : string -> dict -> list piece) (e : exn) :
  (forall service result,
     formatted (body service result)
     = if printable result then Ok (body service result) else Raise e) ->
  for_each_result results endpoint test_name body
  = if all_printable results endpoint test_name
    then Ok (map (fun '(service, data) =>
                    match dget data endpoint with
                    | Some tests =>
                        match dget tests test_name with
                        | Some result => body service result
                        | None => []
                        end
                    | None => []
                    end) results)
    else Raise e.
Proof.
  intro Hb. unfold for_each_result, all_printable, items.
  apply mapM_guard. intros [service data].
  unfold has_test, contains, subscript.
  destruct (dget data endpoint) as [tests|]; cbn [bind]; [|reflexivity].
  destruct (dget tests test_name) as [result|]; cbn [bind]; [|reflexivity].
  apply Hb.
Qed.

Lemma dget_unique {V : Type} (d : pydict V) (k : string) (v : V) :
  unique_keys d -> In (k, v) d -> dget d k = Some v.
Proof.
  unfold unique_keys. induction d as [|[k' v'] d IH]; intros Hn Hin.
  - destruct Hin.
  - cbn [map fst] in Hn. inversion Hn as [|? ? Hnot Hn']; subst.
    cbn [dget]. destruct Hin as [Hin | Hin].
    + injection Hin as -> ->. rewrite String.eqb_refl. reflexivity.
    + destruct (String.eqb k' k) eqn:E; [|apply IH; assumption].
      apply String.eqb_eq in E. subst k'. exfalso. apply Hnot.
      apply (in_map fst) in Hin. exact Hin.
Qed.

Lemma for_each_result_entries (results : store) (endpoint test_name : string)
    (body : string -> dict -> list piece) (e : exn) :
  (forall service result,
     formatted (body service result)
     = if printable result then Ok (body service result) else Raise e) ->
  unique_keys results ->
  for_each_result results endpoint test_name body
  = if all_printable results endpoint test_name
    then Ok (map (fun service =>
                    match entry results service endpoint test_name with
                    | Some result => body service result
                    | None => []
                    end) (map fst results))
    else Raise e.
Proof.
  intros Hb Hu. rewrite (for_each_result_items _ _ _ _ e Hb).
  destruct (all_printable results endpoint test_name); [|reflexivity].
  rewrite map_map. apply f_equal.
  apply map_ext_in. intros [service data] Hin. cbn [fst]. unfold entry.
  rewrite (dget_unique results service data Hu Hin).
  destruct (dget data endpoint); reflexivity.
Qed.

Lemma forallb_map_in {A B : Type} (f : A -> bool) (g : B -> bool)
    (h : A -> B) (l : list A) :
  (forall x, In x l -> f x = g (h x)) ->
  forallb f l = forallb g (map h l).
Proof.
  induction l as [|x l IH]; intro H; [reflexivity|].
  cbn [forallb map]. rewrite (H x (or_introl eq_refl)), IH; [reflexivity|].
  intros y Hy. apply H. right. exact Hy.
Qed.

Lemma all_printable_entries (results : store) (endpoint test_name : string) :
  unique_keys results ->
  all_printable results endpoint test_name
  = forallb (fun service =>
               match entry results service endpoint test_name with
               | Some result => printable result
               | None => true
               end) (map fst results).
Proof.
  intro Hu. unfold all_printable, items.
  apply forallb_map_in.
  intros [service data] Hin. cbn [fst]. unfold entry.
  rewrite (dget_unique results service data Hu Hin).
  destruct (dget data endpoint); reflexivity.
Qed.

(** X29: on a store with pairwise different service keys
    [print_comparison] prints, after its banner, exactly one line for every
    service that has a result of the test at the endpoint, in the order in
    which the services got their first result, and nothing for a service
    without one; a metric missing from a result is printed as 0.  This is
    so when the four metrics of every such result are numbers or missing;
    if one of them is a string, the call raises the ValueError of the
    format code instead. *)
Theorem X29_print_comparison_lines (results : store)
    (endpoint test_name : string) :
  unique_keys results ->
  print_comparison results endpoint test_name
  = if all_printable results endpoint test_name
    then Ok (comparison_banner endpoint test_name
             ++ flat_map (fun service =>
                            match entry results service endpoint test_name with
                            | Some result => comparison_line service result
                            | None => []
                            end) (map fst results))
    else Raise (ValueError "Unknown format code 'f' for object of type 'str'").
Proof.
  intro Hu. unfold print_comparison.
  rewrite (for_each_result_entries _ _ _ _ _ formatted_comparison_line Hu).
  destruct (all_printable results endpoint test_name); [|reflexivity].
  cbn [bind]. rewrite flat_map_concat_map. reflexivity.
Qed.

Lemma two_services_unique : unique_keys two_services.
Proof.
  unfold unique_keys. cbn. repeat constructor; cbn; intuition discriminate.
Defined.

Lemma X29_witness :
  unique_keys two_services
  /\ print_comparison two_services "/parallel" "concurrent_10"
     = Ok (comparison_banner "/parallel" "concurrent_10"
           ++ comparison_line "flask-wsgi"
                [("total_time", VFloat (frac 1 2)); ("errors", VInt 10);
                 ("success_rate", VInt 0)]).
Proof.
  split; [exact two_services_unique|].
  exact (X29_print_comparison_lines two_services "/parallel" "concurrent_10"
           two_services_unique).
Defined.

Lemma contains_existsb {V : Type} (d : pydict V) (k : string) :
  contains d k = existsb (String.eqb k) (map fst d).
Proof.
  unfold contains. induction d as [|[k' v] d IH]; [reflexivity|].
  cbn [dget map fst existsb]. rewrite (String.eqb_sym k k').
  destruct (String.eqb k' k); [reflexivity | exact IH].
Qed.

Lemma keys_add_all (l : list posting) :
  forall results,
  map fst (add_all l results)
  = fold_left note_service (map (fun p => fst (fst (fst p))) l)
              (map fst results).
Proof.
  induction l as [|[[[s e] t] d] l IH]; intro results; [reflexivity|].
  cbn [add_all fold_left map fst]. fold (add_all l (add_result results s e t d)).
  rewrite IH, add_result_at_key, keys_at_key, contains_existsb. reflexivity.
Qed.

Lemma note_known_services (l services : list string) :
  Forall (fun s => In s services) l ->
  fold_left note_service l services = services.
Proof.
  induction 1 as [|s l Hs _ IH]; [reflexivity|].
  cbn [fold_left]. unfold note_service at 2.
  replace (existsb (String.eqb s) services) with true; [exact IH|].
  symmetry. apply existsb_exists. exists s. split; [exact Hs|].
  apply String.eqb_refl.
Qed.

Lemma services_of_postings_of (results : store) :
  Forall (fun s => In s (map fst results))
         (map (fun p : posting => fst (fst (fst p))) (postings_of results)).
Proof.
  apply Forall_forall. intros s Hs. apply in_map_iff in Hs.
  destruct Hs as ([[[s' e] t] d] & <- & Hin). cbn [fst].
  unfold postings_of in Hin. apply in_flat_map in Hin.
  destruct Hin as ([service data] & Hin & Hin').
  apply in_flat_map in Hin'. destruct Hin' as ([endpoint tests] & _ & Hin').
  apply in_map_iff in Hin'. destruct Hin' as ([test_name result] & E & _).
  injection E as -> _ _ _. apply (in_map fst) in Hin. exact Hin.
Qed.

Lemma suite_services :
  fold_left note_service (map (fun p => fst (fst p)) suite_plan) []
  = map fst SERVICES.
Proof. vm_compute. reflexivity. Qed.

Lemma reported_services (now : Qc) (health_of : string -> list attempt)
    (env : testbed) (results : store) :
  main now health_of env = Reported results ->
  map fst results = map fst SERVICES.
Proof.
  intro H. apply main_reported in H.
  destruct H as (_ & sr & ar & Hs & Ha & ->).
  apply run_calls_iff in Hs. destruct Hs as [_ Hs].
  apply run_calls_iff in Ha. destruct Ha as [_ Ha].
  assert (Ks : map fst sr = map fst SERVICES).
  { rewrite Hs, keys_add_all. unfold postings. rewrite map_map.
    exact suite_services. }
  assert (Ka : map fst ar = map fst SERVICES).
  { rewrite Ha, keys_add_all. unfold postings. rewrite map_map.
    vm_compute. reflexivity. }
  rewrite merge_results_add_all, keys_add_all, Ks.
  apply note_known_services. rewrite <- Ka. apply services_of_postings_of.
Qed.

Lemma reported_concurrent_100 (now : Qc) (health_of : string -> list attempt)
    (env : testbed) (results : store) (service_name url : string) :
  main now health_of env = Reported results ->
  In (service_name, url) SERVICES ->
  entry results service_name "/parallel" "concurrent_100"
  = Some (value_of (test_concurrent_sync service_name url "/parallel" 100
                      (load env url "/parallel" 100))).
Proof.
  intros H Hin. apply main_reported in H.
  destruct H as (_ & sr & ar & Hs & Ha & ->).
  pose proof (run_calls_well_formed _ _ Ha) as Wa.
  destruct (run_calls_entry _ _ service_name "/parallel" "concurrent_100"
              (test_concurrent_sync service_name url "/parallel" 100
                 (load env url "/parallel" 100))
              (suite_calls_NoDup env) Hs) as (d & Hd & Hentry).
  { unfold suite_calls. apply in_or_app. right. apply in_or_app. right.
    apply in_or_app. right. apply in_map_iff.
    exists (service_name, url). split; [reflexivity | exact Hin]. }
  rewrite merged_entry by exact Wa.
  rewrite (absent_entry _ _ _ _ _ (async_plan_NoDup env) Ha).
  - rewrite Hentry, Hd. reflexivity.
  - change (map fst (async_suite_calls env)) with async_plan.
    unfold async_plan. intro Hin'. apply in_map_iff in Hin'.
    destruct Hin' as ([n u] & E & _). discriminate E.
Qed.

(** The metrics of a summary are numbers. *)
Lemma summary_printable (service_name url endpoint : string)
    (num_requests : Z) (w : world) :
  printable (value_of (test_concurrent_sync service_name url endpoint
                         num_requests w)) = true.
Proof.
  unfold test_concurrent_sync.
  destruct (sync_collect service_name url endpoint num_requests w)
    as [[durations errors]|e]; cbn [bind]; [|reflexivity].
  destruct (sync_summary (run_end w - run_start w) durations errors)
    as [d|e] eqn:E; [|reflexivity].
  apply sync_summary_inv in E.
  destruct E as [[_ ->] | (_ & rps & mean & median & p95 & p99 & lo & hi & rate
                           & _ & _ & _ & _ & _ & _ & _ & _ & ->)];
    reflexivity.
Qed.

(** X30: the Markdown report that [main] writes: between the fixed head
    and foot, the table has exactly one row for each configured service, in
    the order of [SERVICES], and the row shows the summary that the
    thread-pool run of 100 requests against /parallel returned for this
    service (a metric the summary lacks, as after a run without any
    success, is shown as 0); writing the report raises no [KeyError]. *)
Theorem X30_markdown_table (now : Qc) (health_of : string -> list attempt)
    (env : testbed) (results : store) (timestamp : string) :
  main now health_of env = Reported results ->
  generate_markdown_report results timestamp
  = Ok (markdown_head timestamp
        ++ flat_map (fun '(service_name, url) =>
                       markdown_row service_name
                         (value_of (test_concurrent_sync service_name url
                                      "/parallel" 100
                                      (load env url "/parallel" 100))))
                    (items SERVICES)
        ++ markdown_foot).
Proof.
  intro H. unfold generate_markdown_report, get_summary. cbv zeta.
  assert (Hu : unique_keys results).
  { unfold unique_keys. rewrite (reported_services _ _ _ _ H).
    repeat constructor; cbn [In]; intuition discriminate. }
  rewrite (for_each_result_entries _ _ _ _ _ formatted_markdown_row Hu).
  rewrite (all_printable_entries _ _ _ Hu).
  rewrite (reported_services _ _ _ _ H).
  unfold items, SERVICES. cbn [map fst forallb].
  rewrite !(reported_concurrent_100 _ _ _ _ "flask-wsgi" "http://localhost:5001" H)
    by (cbn; tauto).
  rewrite !(reported_concurrent_100 _ _ _ _ "flask-async-trap"
              "http://localhost:5002" H) by (cbn; tauto).
  rewrite !(reported_concurrent_100 _ _ _ _ "flask-asgi-wrapper"
              "http://localhost:5003" H) by (cbn; tauto).
  rewrite !(reported_concurrent_100 _ _ _ _ "quart-native"
              "http://localhost:5004" H) by (cbn; tauto).
  rewrite !summary_printable. cbn [andb bind].
  do 2 apply f_equal. apply (f_equal (fun l => l ++ markdown_foot)).
  reflexivity.
Qed.

Lemma X30_witness :
  exists results,
    main (frac 0 1) all_healthy quiet_bed = Reported results
    /\ exists rows,
         generate_markdown_report results "2024-01-01T00:00:00"
         = Ok (markdown_head "2024-01-01T00:00:00" ++ rows ++ markdown_foot).
Proof.
  destruct quiet_main_reports as [results H]. exists results.
  split; [exact H|]. eexists.
  exact (X30_markdown_table (frac 0 1) all_healthy quiet_bed results
           "2024-01-01T00:00:00" H).
Defined.

(** * Binary64 rounding *)

Lemma pow2_pos (e : Z) : (0 < binary64.pow2 e)%Q.
Proof. apply Qpower_0_lt. reflexivity. Qed.

Lemma pow2_plus (a b : Z) :
  (binary64.pow2 (a + b) == binary64.pow2 a * binary64.pow2 b)%Q.
Proof. apply Qpower_plus. discriminate. Qed.

Lemma pow2_le (a b : Z) : a <= b -> (binary64.pow2 a <= binary64.pow2 b)%Q.
Proof. intro H. apply Qpower_le_compat_l; [exact H | discriminate]. Qed.

Lemma pow2_inject (e : Z) :
  0 <= e -> (binary64.pow2 e == inject_Z (2 ^ e))%Q.
Proof. intro H. symmetry. apply (Zpower_Qpower 2 e H). Qed.

Lemma inject_Z_le (a b : Z) : a <= b -> (inject_Z a <= inject_Z b)%Q.
Proof. intro H. rewrite <- Zle_Qle. exact H. Qed.

Lemma inject_Z_lt (a b : Z) : a < b -> (inject_Z a < inject_Z b)%Q.
Proof. intro H. rewrite <- Zlt_Qlt. exact H. Qed.

Lemma floor_bounds (t : Q) :
  (inject_Z (Qfloor t) <= t /\ t < inject_Z (Qfloor t) + 1)%Q.
Proof.
  split; [apply Qfloor_le|].
  pose proof (Qlt_floor t) as H. rewrite inject_Z_plus in H. exact H.
Qed.

Lemma rne_cases (t : Q) :
  let f := Qfloor t in
  (binary64.rne t = f /\ (t - inject_Z f <= 1 # 2)%Q)
  \/ (binary64.rne t = f + 1 /\ (1 # 2 <= t - inject_Z f)%Q).
Proof.
  cbv zeta. unfold binary64.rne.
  destruct (t - inject_Z (Qfloor t) ?= 1 # 2)%Q eqn:E.
  - apply Qeq_alt in E. destruct (Z.even (Qfloor t)); [left | right];
      (split; [reflexivity | lra]).
  - apply Qlt_alt in E. left. split; [reflexivity | lra].
  - apply Qgt_alt in E. right. split; [reflexivity | lra].
Qed.

(** No integer is nearer to [t] than [rne t]. *)
Lemma rne_nearest (t : Q) (z : Z) :
  (Qabs (t - inject_Z (binary64.rne t)) <= Qabs (t - inject_Z z))%Q.
Proof.
  destruct (floor_bounds t) as [H0 H1].
  assert (Hz : (inject_Z z <= inject_Z (Qfloor t)
                \/ inject_Z (Qfloor t) + 1 <= inject_Z z)%Q).
  { destruct (Z_le_gt_dec z (Qfloor t)) as [Hle | Hgt].
    - left. apply inject_Z_le. exact Hle.
    - right. change 1%Q with (inject_Z 1). rewrite <- inject_Z_plus.
      apply inject_Z_le. lia. }
  destruct (rne_cases t) as [[-> Hc] | [-> Hc]].
  - apply Qabs_case; intro Ha; apply Qabs_case; intro Hb; destruct Hz; lra.
  - rewrite inject_Z_plus. change (inject_Z 1) with 1%Q.
    apply Qabs_case; intro Ha; apply Qabs_case; intro Hb; destruct Hz; lra.
Qed.

Lemma rne_le (t : Q) (k : Z) :
  (t <= inject_Z k)%Q -> binary64.rne t <= k.
Proof.
  intro H. destruct (Z_le_gt_dec (binary64.rne t) k) as [Hle | Hgt]; [exact Hle|].
  exfalso. pose proof (rne_nearest t k) as Hn.
  assert (H1 : (inject_Z k + 1 <= inject_Z (binary64.rne t))%Q).
  { change 1%Q with (inject_Z 1). rewrite <- inject_Z_plus.
    apply inject_Z_le. lia. }
  revert Hn. apply Qabs_case; intro Ha; apply Qabs_case; intro Hb; lra.
Qed.

Lemma rne_ge (t : Q) (k : Z) :
  (inject_Z k <= t)%Q -> k <= binary64.rne t.
Proof.
  intro H. destruct (Z_le_gt_dec k (binary64.rne t)) as [Hle | Hgt]; [exact Hle|].
  exfalso. pose proof (rne_nearest t k) as Hn.
  assert (H1 : (inject_Z (binary64.rne t) + 1 <= inject_Z k)%Q).
  { change 1%Q with (inject_Z 1). rewrite <- inject_Z_plus.
    apply inject_Z_le. lia. }
  revert Hn. apply Qabs_case; intro Ha; apply Qabs_case; intro Hb; lra.
Qed.

Lemma log2_bounds (n : Z) :
  0 < n ->
  (binary64.pow2 (Z.log2 n) <= inject_Z n
   /\ inject_Z n < binary64.pow2 (Z.log2 n + 1))%Q.
Proof.
  intro H. destruct (Z.log2_spec n H) as [H0 H1].
  pose proof (Z.log2_nonneg n) as Hn.
  rewrite !pow2_inject by lia. split.
  - apply inject_Z_le. exact H0.
  - apply inject_Z_lt. rewrite <- Z.add_1_r in H1. exact H1.
Qed.

Lemma exponent_spec (x : Q) :
  (0 < x)%Q ->
  (binary64.pow2 (binary64.exponent x) <= x
   /\ x < binary64.pow2 (binary64.exponent x + 1))%Q.
Proof.
  intro Hx. destruct x as [a b].
  assert (Ha : 0 < a).
  { unfold Qlt in Hx. cbn in Hx. lia. }
  destruct (log2_bounds a Ha) as [A0 A1].
  destruct (log2_bounds (Zpos b) (Pos2Z.is_pos b)) as [B0 B1].
  assert (Hq : ((a # b) * inject_Z (Zpos b) == inject_Z a)%Q).
  { rewrite (Qmake_Qdiv a b). field. discriminate. }
  unfold binary64.exponent. cbn [Qnum Qden].
  set (la := Z.log2 a) in *. set (lb := Z.log2 (Zpos b)) in *.
  set (x := (a # b)%Q) in *.
  pose proof (pow2_pos lb) as Plb.
  pose proof (pow2_pos (la - lb)) as Pe.
  pose proof (pow2_pos (la - lb - 1)) as Pe1.
  assert (E0 : (binary64.pow2 (la - lb + 1) * binary64.pow2 lb
                == binary64.pow2 (la + 1))%Q).
  { rewrite <- pow2_plus. replace (la - lb + 1 + lb) with (la + 1) by lia.
    reflexivity. }
  assert (E1 : (binary64.pow2 (la - lb - 1) * binary64.pow2 (lb + 1)
                == binary64.pow2 la)%Q).
  { rewrite <- pow2_plus. replace (la - lb - 1 + (lb + 1)) with la by lia.
    reflexivity. }
  destruct (Qle_bool (binary64.pow2 (la - lb)) x) eqn:T.
  - apply Qle_bool_iff in T. split; [exact T|].
    apply Qnot_le_lt. intro Hc.
    assert (Hm : (binary64.pow2 (la - lb + 1) * binary64.pow2 lb
                  <= x * inject_Z (Zpos b))%Q).
    { apply Qmult_le_compat_nonneg; split; try assumption;
        apply Qlt_le_weak; [apply pow2_pos | exact Plb]. }
    lra.
  - assert (T' : (x < binary64.pow2 (la - lb))%Q).
    { apply Qnot_le_lt. intro Hc. apply Qle_bool_iff in Hc. congruence. }
    replace (la - lb - 1 + 1) with (la - lb) by lia.
    split; [|exact T'].
    apply Qnot_lt_le. intro Hc.
    assert (Hs : (x * inject_Z (Zpos b)
                  < binary64.pow2 (la - lb - 1) * binary64.pow2 (lb + 1))%Q).
    { apply Qle_lt_trans
        with (binary64.pow2 (la - lb - 1) * inject_Z (Zpos b))%Q.
      - apply Qmult_le_compat_r; [apply Qlt_le_weak; exact Hc|].
        apply Qle_trans with (binary64.pow2 lb); [|exact B0].
        apply Qlt_le_weak. exact Plb.
      - rewrite !(Qmult_comm (binary64.pow2 (la - lb - 1))).
        apply Qmult_lt_compat_r; assumption. }
    lra.
Qed.

Lemma ulp_exponent_bounds (x : Q) :
  binary64.exponent x - 52 <= binary64.ulp_exponent x
  /\ -1074 <= binary64.ulp_exponent x
  /\ (binary64.ulp_exponent x = binary64.exponent x - 52
      \/ binary64.ulp_exponent x = -1074).
Proof. unfold binary64.ulp_exponent. lia. Qed.

Lemma scaled_distance (x g : Q) (z : Z) :
  (0 < g)%Q ->
  (Qabs (x - inject_Z z * g) == Qabs (x / g - inject_Z z) * g)%Q.
Proof.
  intro Hg.
  assert (E : (x - inject_Z z * g == (x / g - inject_Z z) * g)%Q)
    by (field; lra).
  rewrite E, Qabs_Qmult, (Qabs_pos g) by lra. reflexivity.
Qed.

(** No multiple of the unit in the last place is nearer to [x]. *)
Lemma round_pos_nearest_multiple (x : Q) (z : Z) :
  (Qabs (x - binary64.round_pos x)
   <= Qabs (x - inject_Z z * binary64.pow2 (binary64.ulp_exponent x)))%Q.
Proof.
  unfold binary64.round_pos. cbv zeta.
  pose proof (pow2_pos (binary64.ulp_exponent x)) as Hg.
  rewrite !scaled_distance by exact Hg.
  apply Qmult_le_compat_r; [apply rne_nearest | lra].
Qed.

Lemma round_pos_significand (x : Q) :
  (0 < x)%Q ->
  0 <= binary64.rne (x / binary64.pow2 (binary64.ulp_exponent x)) <= 2 ^ 53.
Proof.
  intro Hx. destruct (exponent_spec x Hx) as [_ Hhi].
  destruct (ulp_exponent_bounds x) as (Hu & _ & _).
  set (u := binary64.ulp_exponent x) in *.
  pose proof (pow2_pos u) as Hg.
  split.
  - apply rne_ge. change (inject_Z 0) with 0%Q.
    apply Qlt_le_weak. apply Qlt_shift_div_l; lra.
  - apply rne_le. rewrite <- pow2_inject by lia.
    apply Qlt_le_weak. apply Qlt_shift_div_r; [exact Hg|].
    rewrite <- pow2_plus.
    apply Qlt_le_trans with (binary64.pow2 (binary64.exponent x + 1));
      [exact Hhi | apply pow2_le; lia].
Qed.

Lemma round_pos_representable (x : Q) :
  (0 < x)%Q -> binary64.representable (binary64.round_pos x).
Proof.
  intro Hx. pose proof (round_pos_significand x Hx) as Hm.
  destruct (ulp_exponent_bounds x) as (_ & Hu & _).
  exists (binary64.rne (x / binary64.pow2 (binary64.ulp_exponent x))),
         (binary64.ulp_exponent x).
  split; [lia|]. split; [exact Hu | reflexivity].
Qed.

Lemma representable_bound (f : Q) (m u : Z) :
  Z.abs m <= 2 ^ 53 -> (f == inject_Z m * binary64.pow2 u)%Q ->
  (f <= binary64.pow2 (53 + u))%Q.
Proof.
  intros Hm ->. rewrite pow2_plus, (pow2_inject 53) by lia.
  apply Qmult_le_compat_r; [|apply Qlt_le_weak, pow2_pos].
  apply inject_Z_le. lia.
Qed.

(** No binary64 number is nearer to a positive [x] than [round_pos x]. *)
Lemma round_pos_nearest (x f : Q) :
  (0 < x)%Q -> binary64.representable f ->
  (Qabs (x - binary64.round_pos x) <= Qabs (x - f))%Q.
Proof.
  intros Hx (m & uf & Hm & Huf & Ef).
  destruct (exponent_spec x Hx) as [Hlo _].
  destruct (ulp_exponent_bounds x) as (_ & _ & Hu).
  destruct (Z_le_gt_dec (binary64.ulp_exponent x) uf) as [Hle | Hgt].
  - assert (E : (f == inject_Z (m * 2 ^ (uf - binary64.ulp_exponent x))
                      * binary64.pow2 (binary64.ulp_exponent x))%Q).
    { rewrite Ef, inject_Z_mult,
        <- (pow2_inject (uf - binary64.ulp_exponent x)) by lia.
      rewrite <- Qmult_assoc, <- pow2_plus.
      replace (uf - binary64.ulp_exponent x + binary64.ulp_exponent x)
        with uf by lia.
      reflexivity. }
    rewrite E. apply round_pos_nearest_multiple.
  - destruct Hu as [Hu | Hu]; [|lia].
    pose proof (representable_bound f m uf Hm Ef) as Hf.
    assert (Hp : (binary64.pow2 (53 + uf)
                  <= binary64.pow2 (binary64.exponent x))%Q)
      by (apply pow2_le; lia).
    assert (E : (binary64.pow2 (binary64.exponent x)
                 == inject_Z (2 ^ 52)
                    * binary64.pow2 (binary64.ulp_exponent x))%Q).
    { rewrite <- (pow2_inject 52), <- pow2_plus by lia.
      replace (52 + binary64.ulp_exponent x) with (binary64.exponent x) by lia.
      reflexivity. }
    pose proof (round_pos_nearest_multiple x (2 ^ 52)) as Hn.
    rewrite <- E in Hn.
    eapply Qle_trans; [exact Hn|].
    apply Qabs_case; intro Ha; apply Qabs_case; intro Hb; lra.
Qed.

Lemma representable_opp (f : Q) :
  binary64.representable f -> binary64.representable (- f).
Proof.
  intros (m & u & Hm & Hu & E). exists (- m), u.
  split; [lia|]. split; [exact Hu|].
  rewrite E, inject_Z_opp. ring.
Qed.

Lemma representable_0 : binary64.representable 0.
Proof.
  exists 0, 0. split; [apply Z.leb_le; reflexivity|].
  split; [apply Z.leb_le; reflexivity | reflexivity].
Qed.

Lemma roundQ_representable (x : Q) : binary64.representable (binary64.roundQ x).
Proof.
  unfold binary64.roundQ. destruct (x ?= 0)%Q eqn:E.
  - exact representable_0.
  - apply Qlt_alt in E. apply representable_opp, round_pos_representable. lra.
  - apply Qgt_alt in E. apply round_pos_representable. exact E.
Qed.

(** Rounding is to a nearest binary64 number. *)
Lemma roundQ_nearest (x f : Q) :
  binary64.representable f ->
  (Qabs (x - binary64.roundQ x) <= Qabs (x - f))%Q.
Proof.
  intro Hf. unfold binary64.roundQ. destruct (x ?= 0)%Q eqn:E.
  - apply Qeq_alt in E.
    apply Qabs_case; intro Ha; apply Qabs_case; intro Hb; lra.
  - apply Qlt_alt in E.
    assert (Hx : (0 < - x)%Q) by lra.
    pose proof (round_pos_nearest (- x) (- f) Hx (representable_opp f Hf)) as H.
    revert H.
    apply Qabs_case; intro Ha; apply Qabs_case; intro Hb;
      apply Qabs_case; intro Hc; apply Qabs_case; intro Hd; lra.
  - apply Qgt_alt in E. apply round_pos_nearest; assumption.
Qed.

Lemma roundQ_representable_id (x : Q) :
  binary64.representable x -> (binary64.roundQ x == x)%Q.
Proof.
  intro H. pose proof (roundQ_nearest x x H) as Hn. revert Hn.
  apply Qabs_case; intro Ha; apply Qabs_case; intro Hb; lra.
Qed.

Lemma roundQ_lt_le (x y : Q) :
  (x < y)%Q -> (binary64.roundQ x <= binary64.roundQ y)%Q.
Proof.
  intro H. apply Qnot_lt_le. intro Hc.
  pose proof (roundQ_nearest x _ (roundQ_representable y)) as Hx.
  pose proof (roundQ_nearest y _ (roundQ_representable x)) as Hy.
  revert Hx Hy.
  apply Qabs_case; intro Ha; apply Qabs_case; intro Hb;
    apply Qabs_case; intro Hd; apply Qabs_case; intro He; lra.
Qed.

(** Rounding is monotone. *)
Lemma round_le (x y : Qc) : (x <= y)%Qc -> (binary64.round x <= binary64.round y)%Qc.
Proof.
  intro H. destruct (Qc_eq_dec x y) as [-> | N]; [apply Qcle_refl|].
  assert (Hlt : (x < y)%Qc).
  { destruct (Qcle_lt_or_eq _ _ H) as [L | E]; [exact L | contradiction]. }
  unfold binary64.round, Qcle. cbn [this Q2Qc]. rewrite !Qred_correct.
  apply roundQ_lt_le. exact Hlt.
Qed.

(** A binary64 number rounds to itself. *)
Lemma round_representable (x : Qc) :
  binary64.representable x -> binary64.round x = x.
Proof.
  intro H. apply Qc_is_canon. unfold binary64.round. cbn [this Q2Qc].
  rewrite Qred_correct. apply roundQ_representable_id. exact H.
Qed.

(** ** Durations on the grid of the clock *)

Lemma this_frac (k : Z) (p : positive) : (this (frac k p) == k # p)%Q.
Proof. unfold frac. cbn [this Q2Qc]. apply Qred_correct. Qed.

Lemma this_of_int (z : Z) : (this (of_int z) == inject_Z z)%Q.
Proof. unfold of_int. cbn [this Q2Qc]. apply Qred_correct. Qed.

Lemma frac_mult_int (k c : Z) (p : positive) :
  (frac k p * of_int c)%Qc = frac (k * c) p.
Proof.
  apply Qc_is_canon. unfold Qcmult. cbn [this Q2Qc].
  rewrite Qred_correct, this_frac, this_of_int, this_frac.
  unfold Qeq, Qmult, inject_Z. cbn [Qnum Qden]. lia.
Qed.

Lemma frac_plus (k k' : Z) (p : positive) :
  (frac k p + frac k' p)%Qc = frac (k + k') p.
Proof.
  apply Qc_is_canon. unfold Qcplus. cbn [this Q2Qc].
  rewrite Qred_correct, !this_frac.
  unfold Qeq, Qplus. cbn [Qnum Qden]. lia.
Qed.

Lemma frac_minus (k k' : Z) (p : positive) :
  (frac k p - frac k' p)%Qc = frac (k - k') p.
Proof.
  apply Qc_is_canon. unfold Qcminus, Qcplus, Qcopp. cbn [this Q2Qc].
  rewrite !Qred_correct, !this_frac.
  unfold Qeq, Qplus, Qopp. cbn [Qnum Qden]. lia.
Qed.

Lemma frac_le (k k' : Z) (p : positive) :
  (frac k p <= frac k' p)%Qc <-> k <= k'.
Proof.
  unfold Qcle. rewrite !this_frac. unfold Qle. cbn [Qnum Qden]. nia.
Qed.

(** A multiple of [2^-22] with a numerator of at most 53 bits is a
    binary64 number. *)
Lemma grid_representable (k : Z) :
  Z.abs k <= 2 ^ 53 -> binary64.representable (frac k (2 ^ 22)).
Proof.
  intro H. exists k, (-22). split; [exact H|]. split; [lia|].
  rewrite this_frac. unfold binary64.pow2.
  change (2 ^ (-22))%Q with (1 # 2 ^ 22)%Q.
  unfold Qeq, Qmult, inject_Z. cbn [Qnum Qden]. lia.
Qed.

Lemma int_representable (z : Z) :
  Z.abs z <= 2 ^ 53 -> binary64.representable (of_int z).
Proof.
  intro H. exists z, 0. split; [exact H|]. split; [lia|].
  rewrite this_of_int. unfold binary64.pow2. change (2 ^ 0)%Q with 1%Q. ring.
Qed.

Lemma float_small_int (z : Z) :
  Z.abs z <= 2 ^ 53 -> binary64.float z = of_int z.
Proof. intro H. apply round_representable, int_representable, H. Qed.

Lemma on_clock_grid_representable (d : Qc) :
  on_clock_grid d -> binary64.representable d.
Proof.
  intros (k & Hk & ->). apply grid_representable.
  assert (2 ^ 44 <= 2 ^ 53) by (apply Z.leb_le; reflexivity). lia.
Qed.

(** On the grid the interpolation rounds once: the two products and their
    sum are binary64 numbers, only the quotient is rounded. *)
Lemma interpolation_rounds_once (a b : Qc) (n delta : Z) :
  on_clock_grid a -> on_clock_grid b ->
  Z.abs (n - delta) <= 256 -> Z.abs delta <= 256 -> Z.abs n <= 256 ->
  binary64.div
    (binary64.add (binary64.mul a (binary64.float (n - delta)))
                  (binary64.mul b (binary64.float delta)))
    (binary64.float n)
  = binary64.round (lerp a b n delta).
Proof.
  intros (ka & Ha & ->) (kb & Hb & ->) H1 H2 H3.
  assert (P53 : 2 ^ 53 = 2 ^ 44 * 512) by reflexivity.
  assert (P44 : 0 < 2 ^ 44) by reflexivity.
  rewrite !float_small_int by lia.
  unfold binary64.div, binary64.add, binary64.mul, lerp.
  rewrite !frac_mult_int.
  rewrite (round_representable (frac (ka * (n - delta)) (2 ^ 22)))
    by (apply grid_representable; nia).
  rewrite (round_representable (frac (kb * delta) (2 ^ 22)))
    by (apply grid_representable; nia).
  rewrite frac_plus.
  rewrite (round_representable (frac _ (2 ^ 22)))
    by (apply grid_representable; nia).
  reflexivity.
Qed.

Lemma delta_bounds (ld n i : Z) :
  2 <= ld -> 1 <= i <= n - 1 ->
  - n <= i * (ld + 1) - rank ld n i * n <= 2 * n.
Proof.
  intros Hld Hi. assert (Hn : 0 < n) by lia.
  pose proof (div_bounds (i * (ld + 1)) n Hn) as Hq.
  unfold rank.
  destruct (Z.max_spec 1 (Z.min (ld - 1) (i * (ld + 1) / n))) as [[H1 ->] | [H1 ->]];
    destruct (Z.min_spec (ld - 1) (i * (ld + 1) / n)) as [[H2 E] | [H2 E]];
    rewrite ?E in *; nia.
Qed.

Lemma In_range (lo hi i : Z) : In i (range lo hi) -> lo <= i < hi.
Proof.
  unfold range. intro H. apply in_map_iff in H. destruct H as (k & <- & Hk).
  apply in_seq in Hk. lia.
Qed.

Lemma interpolated64_grid (s : list Qc) (n i : Z) :
  Forall on_clock_grid s -> 2 <= len s -> n <= 128 -> 1 <= i <= n - 1 ->
  statistics64.interpolated s n (len s) (len s + 1) i
  = Ok (binary64.round (cut s n i)).
Proof.
  intros Hg Hld Hn Hi. unfold statistics64.interpolated, cut.
  set (ld := len s) in *.
  assert (Hj : (if i * (ld + 1) / n <? 1 then 1
                else if i * (ld + 1) / n >? ld - 1 then ld - 1
                     else i * (ld + 1) / n) = rank ld n i).
  { unfold rank.
    destruct (i * (ld + 1) / n <? 1) eqn:E1.
    - apply Z.ltb_lt in E1. lia.
    - apply Z.ltb_ge in E1.
      destruct (i * (ld + 1) / n >? ld - 1) eqn:E2.
      + apply Z.gtb_lt in E2. lia.
      + rewrite Z.gtb_ltb in E2. apply Z.ltb_ge in E2. lia. }
  rewrite Hj.
  pose proof (rank_bounds ld n i Hld) as Hb.
  pose proof (delta_bounds ld n i Hld Hi) as Hd.
  rewrite (getitem_nth s (rank ld n i - 1) 0%Qc) by (fold ld; lia).
  rewrite (getitem_nth s (rank ld n i) 0%Qc) by (fold ld; lia).
  cbn [bind]. apply f_equal.
  rewrite Forall_forall in Hg.
  apply interpolation_rounds_once; try lia.
  - apply Hg. apply nth_In. subst ld. unfold len in *. lia.
  - apply Hg. apply nth_In. subst ld. unfold len in *. lia.
Qed.

Lemma sorted_on_clock_grid (data : list Qc) :
  Forall on_clock_grid data -> Forall on_clock_grid (sorted data).
Proof.
  intro H. rewrite Forall_forall in *. intros x Hx. apply H.
  apply (Permutation_in _ (sorted_perm data)). exact Hx.
Qed.

(** On durations measured with the clock the cut points the interpreter
    computes are the exact cut points, each rounded once. *)
Lemma quantiles64_grid (data : list Qc) (n : Z) :
  Forall on_clock_grid data -> 2 <= len data -> 1 <= n <= 128 ->
  statistics64.quantiles data n
  = Ok (map (fun i => binary64.round (cut (sorted data) n i)) (range 1 n)).
Proof.
  intros Hg Hld Hn. unfold statistics64.quantiles.
  destruct (n <? 1) eqn:E; [apply Z.ltb_lt in E; lia|].
  destruct (len (sorted data) <? 2) eqn:E2.
  { apply Z.ltb_lt in E2. rewrite len_sorted in E2. lia. }
  apply mapM_pure. intros i Hi. apply In_range in Hi.
  apply interpolated64_grid;
    [apply sorted_on_clock_grid; exact Hg | rewrite len_sorted; exact Hld
     | lia | lia].
Qed.

Lemma quantiles64_getitem (data : list Qc) (n k : Z) :
  Forall on_clock_grid data -> 2 <= len data -> n <= 128 -> 0 <= k < n - 1 ->
  (qs <- statistics64.quantiles data n ;; getitem qs k)
  = Ok (binary64.round (cut (sorted data) n (1 + k))).
Proof.
  intros Hg Hld Hn Hk. rewrite quantiles64_grid by (try assumption; lia).
  unfold bind.
  rewrite (getitem_nth _ k 0%Qc).
  - f_equal.
    assert (Hlen : len (range 1 n) = n - 1) by (apply len_range; lia).
    rewrite (nth_map_in _ _ _ _ 0) by (unfold len in Hlen; lia).
    do 2 f_equal. rewrite nth_range by lia. lia.
  - unfold len. rewrite length_map. fold (len (range 1 n)).
    rewrite len_range; lia.
Qed.

Lemma p95_latency64_grid (durations : list Qc) :
  Forall on_clock_grid durations -> 2 <= len durations ->
  p95_latency64 durations = Ok (binary64.round (cut (sorted durations) 20 19)).
Proof.
  intros Hg H. unfold p95_latency64.
  destruct (len durations >? 1) eqn:E.
  - apply (quantiles64_getitem durations 20 18); try assumption; lia.
  - rewrite Z.gtb_ltb in E. apply Z.ltb_ge in E. lia.
Qed.

Lemma p99_latency64_grid (durations : list Qc) :
  Forall on_clock_grid durations -> 2 <= len durations ->
  p99_latency64 durations = Ok (binary64.round (cut (sorted durations) 100 99)).
Proof.
  intros Hg H. unfold p99_latency64.
  destruct (len durations >? 1) eqn:E.
  - apply (quantiles64_getitem durations 100 98); try assumption; lia.
  - rewrite Z.gtb_ltb in E. apply Z.ltb_ge in E. lia.
Qed.

(** ** What the clock measures is on the grid *)

Lemma clock_reading_grid (t : Qc) :
  clock_reading t -> exists k, 2 ^ 52 <= k < 2 ^ 53 /\ t = frac k (2 ^ 22).
Proof.
  intros ((m & u & Hm & Hu & E) & Hlo & Hhi).
  assert (Q30 : (binary64.pow2 30 == inject_Z (2 ^ 30))%Q)
    by (apply pow2_inject; lia).
  assert (Hlo' : (inject_Z (2 ^ 30) <= t)%Q).
  { unfold Qcle in Hlo. rewrite this_of_int in Hlo. exact Hlo. }
  assert (Hhi' : (t < inject_Z (2 ^ 31))%Q).
  { unfold Qclt in Hhi. rewrite this_of_int in Hhi. exact Hhi. }
  assert (Hk : exists k, (this t == k # 2 ^ 22)%Q).
  { destruct (Z_le_gt_dec (-22) u) as [Hle | Hgt].
    - exists (m * 2 ^ (u + 22)). rewrite E.
      assert (Ep : (binary64.pow2 u
                    == inject_Z (2 ^ (u + 22)) * binary64.pow2 (-22))%Q).
      { rewrite <- pow2_inject, <- pow2_plus by lia.
        replace (u + 22 + -22) with u by lia. reflexivity. }
      rewrite Ep. unfold binary64.pow2.
      change (2 ^ (-22))%Q with (1 # 2 ^ 22)%Q.
      unfold Qeq, Qmult, inject_Z. cbn [Qnum Qden].
      rewrite !Pos.mul_1_l. ring.
    - exists (2 ^ 52).
      pose proof (representable_bound t m u Hm E) as Hb.
      assert (Hp : (binary64.pow2 (53 + u) <= binary64.pow2 30)%Q)
        by (apply pow2_le; lia).
      assert (Et : (this t == inject_Z (2 ^ 30))%Q) by lra.
      rewrite Et. reflexivity. }
  destruct Hk as [k Ek]. exists k.
  assert (Et : t = frac k (2 ^ 22)).
  { apply Qc_is_canon. rewrite this_frac. exact Ek. }
  split; [|exact Et].
  rewrite Ek in Hlo', Hhi'. unfold Qle, Qlt, inject_Z in Hlo', Hhi'.
  cbn [Qnum Qden] in Hlo', Hhi'.
  change (Z.pos (2 ^ 22)) with (2 ^ 22) in *.
  assert (P52 : 2 ^ 52 = 2 ^ 30 * 2 ^ 22) by reflexivity.
  assert (P53 : 2 ^ 53 = 2 ^ 31 * 2 ^ 22) by reflexivity.
  lia.
Qed.

(** The subtraction of two clock readings is exact, and a difference of
    at most [2^22] s is a duration on the grid. *)
Lemma clock_difference_on_grid (start now : Qc) :
  clock_reading start -> clock_reading now ->
  (- of_int (2 ^ 22) <= now - start)%Qc ->
  (now - start <= of_int (2 ^ 22))%Qc ->
  binary64.sub now start = (now - start)%Qc
  /\ on_clock_grid (now - start).
Proof.
  intros Hs Hn Hlo Hhi.
  destruct (clock_reading_grid start Hs) as (ks & Bs & ->).
  destruct (clock_reading_grid now Hn) as (kn & Bn & ->).
  rewrite frac_minus in *.
  assert (E22 : of_int (2 ^ 22) = frac (2 ^ 44) (2 ^ 22)).
  { apply Qc_is_canon. vm_compute. reflexivity. }
  assert (E22' : (- of_int (2 ^ 22))%Qc = frac (- 2 ^ 44) (2 ^ 22)).
  { apply Qc_is_canon. vm_compute. reflexivity. }
  rewrite E22 in Hhi. rewrite E22' in Hlo.
  apply frac_le in Hhi. apply frac_le in Hlo.
  split.
  - unfold binary64.sub. rewrite frac_minus.
    apply round_representable, grid_representable. lia.
  - exists (kn - ks). split; [lia | reflexivity].
Qed.

(** * The percentiles as the interpreter computes them *)

(** On durations measured with the clock, the percentile the interpreter
    computes is the exact percentile of the summary, rounded once. *)
Lemma percentiles_round_once (durations : list Qc) :
  2 <= len durations ->
  Forall on_clock_grid durations ->
  exists p95 p99,
    p95_latency durations = Ok p95 /\ p99_latency durations = Ok p99
    /\ p95_latency64 durations = Ok (binary64.round p95)
    /\ p99_latency64 durations = Ok (binary64.round p99).
Proof.
  intros H Hg.
  exists (cut (sorted durations) 20 19), (cut (sorted durations) 100 99).
  split; [apply p95_latency_cut; exact H|].
  split; [apply p99_latency_cut; exact H|].
  split; [apply p95_latency64_grid | apply p99_latency64_grid]; assumption.
Qed.

Lemma res_Qc_eq (r : res Qc) (q : Qc) :
  match r with
  | Ok x => Qeq_bool x q
  | Raise _ => false
  end = true ->
  r = Ok q.
Proof.
  destruct r as [x|e]; intro H; [|discriminate H].
  apply f_equal, Qc_is_canon, Qeq_bool_iff, H.
Qed.

Lemma float_0_7_value :
  float_0_7 = frac 3152519739159347 4503599627370496.
Proof. apply Qc_is_canon. vm_compute. reflexivity. Qed.

Lemma p95_of_0_7 :
  p95_latency64 [float_0_7; float_0_7]
  = Ok (frac 3152519739159347 4503599627370496).
Proof. apply res_Qc_eq. vm_compute. reflexivity. Qed.

Lemma p99_of_0_7 :
  p99_latency64 [float_0_7; float_0_7]
  = Ok (frac 6305039478318693 9007199254740992).
Proof. apply res_Qc_eq. vm_compute. reflexivity. Qed.

Lemma min_of_0_7 :
  min_ [float_0_7; float_0_7] = Ok (frac 3152519739159347 4503599627370496).
Proof. apply res_Qc_eq. vm_compute. reflexivity. Qed.

Lemma p95_64_of_two :
  p95_latency64 [frac 1 4; frac 1 2]
  = Ok (frac 6417629469002957 9007199254740992).
Proof. apply res_Qc_eq. vm_compute. reflexivity. Qed.

Lemma quarter_on_grid : on_clock_grid (frac 1 4).
Proof.
  exists (2 ^ 20). split; [apply Z.leb_le; reflexivity|].
  apply Qc_is_canon. vm_compute. reflexivity.
Defined.

Lemma half_on_grid : on_clock_grid (frac 1 2).
Proof.
  exists (2 ^ 21). split; [apply Z.leb_le; reflexivity|].
  apply Qc_is_canon. vm_compute. reflexivity.
Defined.

Lemma two_durations_on_grid : Forall on_clock_grid [frac 1 4; frac 1 2].
Proof.
  constructor; [exact quarter_on_grid|].
  constructor; [exact half_on_grid | constructor].
Defined.

(** C6, as stated, fails on the interpreter's floats: for the two
    durations 0.7, 0.7 the code computes p95_latency = 0.7 and
    p99_latency = 0.6999999999999998, one unit in the last place below. *)
Lemma C6_counterexample :
  2 <= len [float_0_7; float_0_7]
  /\ p95_latency64 [float_0_7; float_0_7]
     = Ok (frac 3152519739159347 4503599627370496)
  /\ p99_latency64 [float_0_7; float_0_7]
     = Ok (frac 6305039478318693 9007199254740992)
  /\ (frac 6305039478318693 9007199254740992
      < frac 3152519739159347 4503599627370496)%Qc
  /\ ~ (exists p95 p99,
          p95_latency64 [float_0_7; float_0_7] = Ok p95
          /\ p99_latency64 [float_0_7; float_0_7] = Ok p99
          /\ (p95 <= p99)%Qc).
Proof.
  split; [apply Z.leb_le; reflexivity|].
  split; [exact p95_of_0_7|]. split; [exact p99_of_0_7|].
  assert (Hlt : (frac 6305039478318693 9007199254740992
                 < frac 3152519739159347 4503599627370496)%Qc) by reflexivity.
  split; [exact Hlt|].
  intros (p95 & p99 & E95 & E99 & Hle).
  rewrite p95_of_0_7 in E95. injection E95 as <-.
  rewrite p99_of_0_7 in E99. injection E99 as <-.
  exact (Qclt_not_le _ _ Hlt Hle).
Qed.

(** C6, amended: for every sample of at least two durations measured with
    the clock (multiples of 2^-22 s of at most 2^22 s) both percentiles are
    computed and, as binary64 numbers, p95_latency <= p99_latency. *)
Theorem C6_p95_le_p99 (durations : list Qc) :
  2 <= len durations ->
  Forall on_clock_grid durations ->
  exists p95 p99,
    p95_latency64 durations = Ok p95 /\ p99_latency64 durations = Ok p99
    /\ (p95 <= p99)%Qc.
Proof.
  intros H Hg.
  exists (binary64.round (cut (sorted durations) 20 19)),
         (binary64.round (cut (sorted durations) 100 99)).
  split; [apply p95_latency64_grid; assumption|].
  split; [apply p99_latency64_grid; assumption|].
  apply round_le. apply cut_95_le_99; [apply sorted_StronglySorted|].
  rewrite len_sorted. exact H.
Qed.

Lemma C6_witness :
  2 <= len [frac 1 4; frac 1 2]
  /\ Forall on_clock_grid [frac 1 4; frac 1 2]
  /\ exists p95 p99,
       p95_latency64 [frac 1 4; frac 1 2] = Ok p95
       /\ p99_latency64 [frac 1 4; frac 1 2] = Ok p99 /\ (p95 <= p99)%Qc.
Proof.
  split; [exact two_durations|]. split; [exact two_durations_on_grid|].
  exact (C6_p95_le_p99 [frac 1 4; frac 1 2] two_durations
           two_durations_on_grid).
Defined.

(** C10, as stated, fails in two ways.  On the sample 0.25, 0.5 the
    maximum is 0.5 and the 95th percentile is 0.7125: the quantile method
    extrapolates past a small sample.  On the sample 0.7, 0.7 the minimum
    is 0.7 and the 99th percentile is 0.6999999999999998: off the grid of
    the clock the interpolation rounds below the sample. *)
Lemma C10_counterexample :
  (max_ [frac 1 4; frac 1 2] = Ok (frac 1 2)
   /\ p95_latency64 [frac 1 4; frac 1 2]
      = Ok (frac 6417629469002957 9007199254740992)
   /\ (frac 1 2 < frac 6417629469002957 9007199254740992)%Qc
   /\ ~ within_range p95_latency64 [frac 1 4; frac 1 2])
  /\ (min_ [float_0_7; float_0_7]
      = Ok (frac 3152519739159347 4503599627370496)
      /\ p99_latency64 [float_0_7; float_0_7]
         = Ok (frac 6305039478318693 9007199254740992)
      /\ (frac 6305039478318693 9007199254740992
          < frac 3152519739159347 4503599627370496)%Qc
      /\ ~ within_range p99_latency64 [float_0_7; float_0_7]).
Proof.
  split.
  - split; [exact max_of_two|]. split; [exact p95_64_of_two|].
    assert (Hlt : (frac 1 2 < frac 6417629469002957 9007199254740992)%Qc)
      by reflexivity.
    split; [exact Hlt|].
    intros (lo & hi & x & _ & Ehi & Ex & _ & Hx).
    rewrite max_of_two in Ehi. injection Ehi as <-.
    rewrite p95_64_of_two in Ex. injection Ex as <-.
    exact (Qclt_not_le _ _ Hlt Hx).
  - split; [exact min_of_0_7|]. split; [exact p99_of_0_7|].
    assert (Hlt : (frac 6305039478318693 9007199254740992
                   < frac 3152519739159347 4503599627370496)%Qc) by reflexivity.
    split; [exact Hlt|].
    intros (lo & hi & x & Elo & _ & Ex & Hx & _).
    rewrite min_of_0_7 in Elo. injection Elo as <-.
    rewrite p99_of_0_7 in Ex. injection Ex as <-.
    exact (Qclt_not_le _ _ Hlt Hx).
Qed.

(** C10, amended: for every sample of at least two durations measured
    with the clock, p95_latency and p99_latency as the interpreter computes
    them are not below min_latency; p95_latency is not above max_latency
    when the sample has at least 19 values, and p99_latency when it has at
    least 99.  On a sample of at most 19 (99) values p95_latency
    (p99_latency) is at or above max_latency. *)
Theorem C10_percentile_bounds (durations : list Qc) :
  2 <= len durations ->
  Forall on_clock_grid durations ->
  exists lo hi p95 p99,
    min_ durations = Ok lo /\ max_ durations = Ok hi
    /\ p95_latency64 durations = Ok p95 /\ p99_latency64 durations = Ok p99
    /\ (lo <= p95)%Qc /\ (lo <= p99)%Qc
    /\ (19 <= len durations -> (p95 <= hi)%Qc)
    /\ (99 <= len durations -> (p99 <= hi)%Qc)
    /\ (len durations <= 19 -> (hi <= p95)%Qc)
    /\ (len durations <= 99 -> (hi <= p99)%Qc).
Proof.
  intros H Hg.
  destruct (cut_bounds durations H)
    as (lo & hi & Elo & Ehi & Ilo & Ihi & L95 & L99 & U95 & U99 & B95 & B99).
  rewrite Forall_forall in Hg.
  pose proof (round_representable lo
                (on_clock_grid_representable lo (Hg lo Ilo))) as Rlo.
  pose proof (round_representable hi
                (on_clock_grid_representable hi (Hg hi Ihi))) as Rhi.
  rewrite <- Forall_forall in Hg.
  exists lo, hi, (binary64.round (cut (sorted durations) 20 19)),
         (binary64.round (cut (sorted durations) 100 99)).
  split; [exact Elo|]. split; [exact Ehi|].
  split; [apply p95_latency64_grid; assumption|].
  split; [apply p99_latency64_grid; assumption|].
  split; [rewrite <- Rlo; apply round_le; exact L95|].
  split; [rewrite <- Rlo; apply round_le; exact L99|].
  split; [intro Hn; rewrite <- Rhi; apply round_le, U95, Hn|].
  split; [intro Hn; rewrite <- Rhi; apply round_le, U99, Hn|].
  split; [intro Hn; rewrite <- Rhi; apply round_le, B95, Hn|].
  intro Hn. rewrite <- Rhi. apply round_le, B99, Hn.
Qed.

Lemma C10_witness :
  2 <= len [frac 1 4; frac 1 2]
  /\ Forall on_clock_grid [frac 1 4; frac 1 2]
  /\ exists lo hi p95 p99,
       min_ [frac 1 4; frac 1 2] = Ok lo /\ max_ [frac 1 4; frac 1 2] = Ok hi
       /\ p95_latency64 [frac 1 4; frac 1 2] = Ok p95
       /\ p99_latency64 [frac 1 4; frac 1 2] = Ok p99
       /\ (lo <= p95)%Qc /\ (lo <= p99)%Qc.
Proof.
  split; [exact two_durations|]. split; [exact two_durations_on_grid|].
  destruct (C10_percentile_bounds [frac 1 4; frac 1 2] two_durations
              two_durations_on_grid)
    as (lo & hi & p95 & p99 & E1 & E2 & E3 & E4 & L1 & L2 & _).
  exists lo, hi, p95, p99. repeat split; assumption.
Defined.

Lemma map_round_sorted (l : list Qc) :
  Sorted Qcle l -> Sorted Qcle (map binary64.round l).
Proof.
  induction 1 as [|x l Hl IH Hx]; cbn [map]; constructor; [exact IH|].
  destruct Hx as [|y l Hxy]; cbn [map]; constructor.
  apply round_le. exact Hxy.
Qed.

(** X18: on a sample of durations measured with the clock, the cut
    points [quantiles] returns, as the interpreter computes them, are in
    non-decreasing order, for every number of intervals up to 128 (the
    code asks for 20 and 100). *)
Theorem X18_quantiles_sorted (data : list Qc) (n : Z) :
  Forall on_clock_grid data -> 2 <= len data -> 1 <= n <= 128 ->
  exists qs, statistics64.quantiles data n = Ok qs
             /\ len qs = n - 1 /\ StronglySorted Qcle qs.
Proof.
  intros Hg Hld Hn.
  exists (map (fun i => binary64.round (cut (sorted data) n i)) (range 1 n)).
  split; [apply quantiles64_grid; assumption|]. split.
  - unfold len. rewrite length_map. fold (len (range 1 n)).
    apply len_range. lia.
  - apply Sorted_StronglySorted; [intros x y z; apply Qcle_trans|].
    rewrite <- (map_map (cut (sorted data) n) binary64.round).
    apply map_round_sorted. unfold range. apply cuts_sorted;
      [apply sorted_StronglySorted | rewrite len_sorted; exact Hld | lia].
Qed.

Lemma one_le_four_le_128 : 1 <= 4 <= 128.
Proof. split; apply Z.leb_le; reflexivity. Defined.

Lemma X18_witness :
  Forall on_clock_grid [frac 1 4; frac 1 2]
  /\ 2 <= len [frac 1 4; frac 1 2]
  /\ exists qs, statistics64.quantiles [frac 1 4; frac 1 2] 4 = Ok qs
                /\ len qs = 4 - 1 /\ StronglySorted Qcle qs.
Proof.
  split; [exact two_durations_on_grid|]. split; [exact two_durations|].
  exact (X18_quantiles_sorted [frac 1 4; frac 1 2] 4 two_durations_on_grid
           two_durations one_le_four_le_128).
Defined.
